(** * agentic-pdf-extractor: the extraction core and its two front-ends

    A shallow embedding of [extract_pdf.js] (the extraction core), of the
    command-line front-end and of the MCP server's tool handlers, followed by
    the properties the specification states about them.

    The PDF toolkit (mupdf), the metadata parser (pdf-parse), the file system
    and the [path] module are external: they appear as the fields of a
    [World], which the program only calls.  The calls on the file system,
    the call of the metadata parser, [openDocument], [loadPage] and what is
    printed are recorded in a trace, so that statements about "what was
    called before the failure" and "what was written" are statements about
    that trace.  Calls on a document or page that is already in hand
    ([countPages], [toStructuredText], [asText], [toPixmap], the encoders,
    [walk]) are not recorded: they appear through their outcomes only. *)

From Stdlib Require Import List NArith ZArith Bool Ascii String Lia.
From Stdlib Require Import Sorting.Sorted.
From Stdlib Require Import Floats.PrimFloat Floats.SpecFloat Floats.FloatOps.
Import ListNotations.
Local Open Scope nat_scope.
Local Open Scope list_scope.

Set Implicit Arguments.

(* ===================================================================== *)
(** ** JavaScript values used by the program *)
(* ===================================================================== *)

Module Js.

(** A JavaScript string is a sequence of UTF-16 code units. *)
Definition jsstring := list N.

(** A [Buffer] / [Uint8Array]. *)
Definition bytes := list Byte.byte.

(** An ASCII literal of the source. *)
Definition lit (s : string) : jsstring :=
  map N_of_ascii (list_ascii_of_string s).
Arguments lit s%_string.

Fixpoint str_eqb (a b : jsstring) : bool :=
  match a, b with
  | [], [] => true
  | x :: a', y :: b' => N.eqb x y && str_eqb a' b'
  | _, _ => false
  end.

(** Truthiness of a string: every string but the empty one. *)
Definition truthy_str (s : jsstring) : bool :=
  match s with [] => false | _ => true end.

(** [String.prototype.startsWith] for a one-unit prefix. *)
Definition startsWith1 (s : jsstring) (c : N) : bool :=
  match s with x :: _ => N.eqb x c | [] => false end.

(** [String.prototype.repeat]. *)
Fixpoint str_repeat (s : jsstring) (n : nat) : jsstring :=
  match n with O => [] | S k => s ++ str_repeat s k end.

(** WhiteSpace and LineTerminator of ECMAScript: the code points that
    [trim] and [parseInt] strip.  All of them lie in the basic plane, so the
    test is on one code unit. *)
Definition isWhiteSpace (c : N) : bool :=
  ((c =? 9) || (c =? 10) || (c =? 11) || (c =? 12) || (c =? 13)
   || (c =? 32) || (c =? 160) || (c =? 5760)
   || ((8192 <=? c) && (c <=? 8202))
   || (c =? 8232) || (c =? 8233) || (c =? 8239) || (c =? 8287)
   || (c =? 12288) || (c =? 65279))%N.

Fixpoint trimStart (s : jsstring) : jsstring :=
  match s with
  | [] => []
  | c :: r => if isWhiteSpace c then trimStart r else s
  end.

Definition trimEnd (s : jsstring) : jsstring := rev (trimStart (rev s)).

(** [String.prototype.trim]. *)
Definition trim (s : jsstring) : jsstring := trimEnd (trimStart s).

(** Decimal rendering of a non-negative integer, as a template literal
    renders a small integral Number. *)
Fixpoint uint_units (d : Decimal.uint) : jsstring :=
  match d with
  | Decimal.Nil => []
  | Decimal.D0 r => 48%N :: uint_units r
  | Decimal.D1 r => 49%N :: uint_units r
  | Decimal.D2 r => 50%N :: uint_units r
  | Decimal.D3 r => 51%N :: uint_units r
  | Decimal.D4 r => 52%N :: uint_units r
  | Decimal.D5 r => 53%N :: uint_units r
  | Decimal.D6 r => 54%N :: uint_units r
  | Decimal.D7 r => 55%N :: uint_units r
  | Decimal.D8 r => 56%N :: uint_units r
  | Decimal.D9 r => 57%N :: uint_units r
  end.

Definition String_of_N (n : N) : jsstring := uint_units (N.to_uint n).
Definition String_of_nat (n : nat) : jsstring := String_of_N (N.of_nat n).

(** A Number is an IEEE 754 binary64 value; its arithmetic is that of the
    primitive floats, which round to nearest, ties to even, as JavaScript
    does. *)
Definition JsNumber : Type := float.

Definition NaN : JsNumber := PrimFloat.nan.

(** The Number value for a mathematical integer: the nearest double. *)
Definition number_of_Z (z : Z) : JsNumber :=
  SF2Prim (binary_normalize prec emax z 0 false).

(** [parseInt(s, 10)]: leading white space, an optional sign, then the
    longest run of decimal digits; NaN when there is none. *)
Definition isDigit (c : N) : bool := ((48 <=? c) && (c <=? 57))%N.

Fixpoint digits_value (s : jsstring) (acc : option Z) : option Z :=
  match s with
  | c :: r =>
      if isDigit c
      then digits_value r
             (Some (10 * (match acc with Some a => a | None => 0 end)
                    + Z.of_N (c - 48))%Z)
      else acc
  | [] => acc
  end.

Definition parseInt10 (s : jsstring) : JsNumber :=
  let s' := trimStart s in
  let '(neg, body) :=
    match s' with
    | c :: r => if (c =? 45)%N then (true, r)
                else if (c =? 43)%N then (false, r) else (false, s')
    | [] => (false, s')
    end in
  match digits_value body None with
  | Some z => if neg then PrimFloat.opp (number_of_Z z) else number_of_Z z
  | None => NaN
  end.

(** [Buffer.prototype.toString("base64")]. *)
Definition b64char (n : N) : N :=
  (if n <? 26 then 65 + n
   else if n <? 52 then 97 + (n - 26)
   else if n <? 62 then 48 + (n - 52)
   else if n =? 62 then 43 else 47)%N.

Fixpoint toBase64 (b : bytes) : jsstring :=
  match b with
  | [] => []
  | [x] =>
      let n := Byte.to_N x in
      [b64char (n / 4); b64char ((n mod 4) * 16); 61; 61]%N
  | [x; y] =>
      let n := Byte.to_N x in
      let m := Byte.to_N y in
      [b64char (n / 4); b64char ((n mod 4) * 16 + m / 16);
       b64char ((m mod 16) * 4); 61]%N
  | x :: y :: z :: r =>
      let n := Byte.to_N x in
      let m := Byte.to_N y in
      let k := Byte.to_N z in
      [b64char (n / 4); b64char ((n mod 4) * 16 + m / 16);
       b64char ((m mod 16) * 4 + k / 64); b64char (k mod 64)]%N
      ++ toBase64 r
  end.

(** A property value that may be a string, [null] or [undefined]. *)
Inductive JsVal : Type :=
| JUndefined
| JNull
| JString (s : jsstring).

(** A thrown [Error]; only its [message] is ever read. *)
Inductive ErrorClass : Type := ClsError | ClsTypeError.

Record JsError : Type := mkJsError {
  errClass : ErrorClass;
  message : jsstring
}.

(** The outcome of a call that may throw. *)
Inductive result (A : Type) : Type :=
| Ok (a : A)
| Throw (e : JsError).
Arguments Ok {A} a.
Arguments Throw {A} e.

End Js.
Import Js.

(* ===================================================================== *)
(** ** The external collaborators *)
(* ===================================================================== *)

Module Adapters.

(** A mupdf [Pixmap]: its size, and its two encoders, which may throw. *)
Record Pixmap : Type := {
  getWidth : N;
  getHeight : N;
  asJPEG : N -> result bytes;
  asPNG : result bytes
}.

(** What [onImageBlock(bbox, transform, image)] receives: the four corners
    [bbox[0..3]] and the image, whose [toPixmap()] may throw. *)
Record ImageBlock : Type := {
  bbox0 : JsNumber; bbox1 : JsNumber; bbox2 : JsNumber; bbox3 : JsNumber;
  image_toPixmap : result Pixmap
}.

(** [page.toStructuredText("preserve-images")]: the image blocks that
    [walk] visits, in order, and the error [walk] itself throws after
    visiting them, if it does. *)
Record StructuredText : Type := {
  imageBlocks : list ImageBlock;
  walkError : option JsError
}.

(** A mupdf page. [page_asText] is
    [toStructuredText("preserve-whitespace").asText()]; [page_toPixmap s] is
    [toPixmap(Matrix.scale(s, s), DeviceRGB, false, true)]. *)
Record Page : Type := {
  page_asText : result jsstring;
  page_toPixmap : JsNumber -> result Pixmap;
  page_toStructuredText : result StructuredText
}.

(** A mupdf document. *)
Record Document : Type := {
  countPages : nat;
  loadPage : nat -> result Page
}.

(** The [info] dictionary pdf-parse returns; an absent key is [None]. *)
Record Info : Type := {
  Title : option jsstring;
  Author : option jsstring;
  Subject : option jsstring;
  Creator : option jsstring;
  Producer : option jsstring;
  CreationDate : option jsstring;
  ModDate : option jsstring
}.

(** The three ways [await PDFParse(dataBuffer)] can go: the call throws on
    the spot, the promise it returns rejects, or it resolves.  A resolved
    value is [None] when it is [null] or [undefined] (reading [.info] off it
    throws); otherwise it carries [data.info], [None] when that is falsy. *)
Inductive MetaOutcome : Type :=
| MetaThrows (e : JsError)
| MetaRejects (e : JsError)
| MetaResolves (data : option (option Info)).

(** Everything outside the program.  The file system is read as an oracle:
    the program tests and reads only its input file, and what it writes is
    in the trace. *)
Record World : Type := {
  path_resolve : jsstring -> jsstring;
  path_dirname : jsstring -> jsstring;
  path_basename : jsstring -> jsstring -> jsstring;
  path_extname : jsstring -> jsstring;
  path_join : jsstring -> jsstring -> jsstring;
  existsSync : jsstring -> bool;
  readFileSync : jsstring -> result bytes;
  mkdirSync : jsstring -> option JsError;
  writeFileSync : jsstring -> bytes -> option JsError;
  PDFParse : bytes -> MetaOutcome;
  openDocument : bytes -> result Document;
  env_DEBUG : bool
}.

End Adapters.
Import Adapters.

(* ===================================================================== *)
(** ** The data the program returns *)
(* ===================================================================== *)

Module Data.

(** [{ page, text }] *)
Record PageText : Type := {
  pt_page : nat;
  pt_text : jsstring
}.

(** The [metadata] object of a text result; [None] is [null]. *)
Record Metadata : Type := {
  md_title : option jsstring;
  md_author : option jsstring;
  md_subject : option jsstring;
  md_creator : option jsstring;
  md_producer : option jsstring;
  md_creationDate : option jsstring;
  md_modDate : option jsstring
}.

Record TextResult : Type := {
  tr_file : jsstring;
  tr_totalPages : nat;
  tr_metadata : Metadata;
  tr_pages : list PageText
}.

Record BBox : Type := {
  bb_x : JsNumber; bb_y : JsNumber; bb_w : JsNumber; bb_h : JsNumber
}.

(** The [imageInfo] object.  A property that was never assigned is [None]:
    a page render has no [type] and no [bbox]. *)
Record ImageInfo : Type := {
  img_page : nat;
  img_imageIndex : nat;
  img_width : N;
  img_height : N;
  img_format : jsstring;
  img_type : option jsstring;
  img_bbox : option BBox;
  img_base64 : option jsstring;
  img_mimeType : option jsstring;
  img_path : option jsstring
}.

Record ImageResult : Type := {
  ir_file : jsstring;
  ir_totalPages : nat;
  ir_totalImages : nat;
  ir_images : list ImageInfo
}.

(** [{ ...p, images: pageImages }] *)
Record CombinedPage : Type := {
  cp_page : nat;
  cp_text : jsstring;
  cp_images : list ImageInfo
}.

Record AllResult : Type := {
  ar_file : jsstring;
  ar_totalPages : nat;
  ar_metadata : Metadata;
  ar_pages : list CombinedPage;
  ar_totalImages : nat
}.

(** The [options] argument of [extractImages]; [None] is [undefined]. *)
Record Options : Type := {
  opt_outputDir : JsVal;
  opt_format : option jsstring;
  opt_base64 : option bool;
  opt_dpi : option JsNumber
}.

(** [options = {}] *)
Definition no_options : Options :=
  {| opt_outputDir := JUndefined; opt_format := None;
     opt_base64 := None; opt_dpi := None |}.

End Data.
Import Data.

(* ===================================================================== *)
(** ** Effects: a trace of calls, and exceptions *)
(* ===================================================================== *)

Module Effects.

(** What [console.log(JSON.stringify(result, null, 2))] prints is kept as
    the value printed; the serialiser is a built-in. *)
Inductive Printed : Type :=
| PrintedText (r : TextResult)
| PrintedImages (r : ImageResult)
| PrintedAll (r : AllResult).

(** The calls a trace records, one event per call:
    [fs.existsSync], [fs.readFileSync], [fs.mkdirSync], [fs.writeFileSync],
    [PDFParse], [mupdf.Document.openDocument], [doc.loadPage], and the
    output of the command line ([console.log], [console.error], the help
    text, the import of the server).

    Not recorded, and so not spoken of by any statement about a trace:
    [path.resolve], [path.dirname], [path.basename], [path.extname],
    [path.join], [doc.countPages], [page.toStructuredText], [stext.asText],
    [stext.walk], [page.toPixmap], [image.toPixmap], [pixmap.getWidth],
    [pixmap.getHeight], [pixmap.asJPEG], [pixmap.asPNG] and
    [Buffer.from(..).toString].  These enter a computation through [lift]
    or as plain functions: their outcomes count, their occurrence leaves no
    event. *)
Inductive Event : Type :=
| FsExists (p : jsstring)
| FsRead (p : jsstring)
| FsMkdir (p : jsstring)
| FsWrite (p : jsstring) (data : bytes)
| MetadataParse (data : bytes)
| PdfOpen (data : bytes)
| PdfLoadPage (i : nat)
| ConsoleLog (s : jsstring)
| ConsoleLogJSON (v : Printed)
| ConsoleError (s : jsstring)
| ConsoleErrorStack (e : JsError)
| PrintHelp
| ImportServer.

(** A computation: the recorded calls it made, in order, and how it
    ended. *)
Definition M (A : Type) : Type := (list Event * result A)%type.

Definition ret {A} (a : A) : M A := ([], Ok a).

Definition throw {A} (e : JsError) : M A := ([], Throw e).

Definition bind {A B} (m : M A) (f : A -> M B) : M B :=
  match m with
  | (t, Ok a) => let '(t', r) := f a in (t ++ t', r)
  | (t, Throw e) => (t, Throw e)
  end.

(** [try { m } catch (e) { h e }] *)
Definition try_catch {A} (m : M A) (h : JsError -> M A) : M A :=
  match m with
  | (t, Ok a) => (t, Ok a)
  | (t, Throw e) => let '(t', r) := h e in (t ++ t', r)
  end.

Definition tell (e : Event) : M unit := ([e], Ok tt).

(** The outcome of an adapter call that is not recorded, as a
    computation. *)
Definition lift {A} (r : result A) : M A := ([], r).

Definition trace_of {A} (m : M A) : list Event := fst m.
Definition outcome {A} (m : M A) : result A := snd m.

(** A loop over a list that threads the loop's variables. *)
Fixpoint foldM {A S} (body : S -> A -> M S) (l : list A) (s : S) : M S :=
  match l with
  | [] => ret s
  | a :: l' => bind (body s a) (foldM body l')
  end.

End Effects.
Import Effects.

Declare Scope js_scope.
Delimit Scope js_scope with js.
Notation "x <- m ;; k" := (bind m (fun x => k))
  (at level 61, m at next level, right associativity) : js_scope.
Notation "m ;; k" := (bind m (fun _ => k))
  (at level 61, right associativity) : js_scope.
Notation "a +++ b" := (@app N a b)
  (at level 60, right associativity) : js_scope.
Local Open Scope js_scope.

(* ===================================================================== *)
(** ** extract_pdf.js *)
(* ===================================================================== *)

Module ExtractPdf.

Section Core.

Variable w : World.

(** The calls into [fs], each leaving its mark in the trace. *)
Definition fs_existsSync (p : jsstring) : M bool :=
  tell (FsExists p) ;; ret (existsSync w p).

Definition fs_readFileSync (p : jsstring) : M bytes :=
  tell (FsRead p) ;; lift (readFileSync w p).

(** Node validates the path argument before it touches the disk: anything
    but a string (a Buffer, a URL) is a TypeError. *)
Definition invalid_path_arg (expected : jsstring) (v : JsVal) : JsError :=
  mkJsError ClsTypeError
    (lit "The " +++ [34%N] +++ lit "path" +++ [34%N] +++
     lit " argument must be of type " +++ expected +++ lit ". Received " +++
     match v with
     | JNull => lit "null"
     | _ => lit "undefined"
     end).

Definition fs_mkdirSync (dir : JsVal) : M unit :=
  match dir with
  | JString d =>
      tell (FsMkdir d) ;;
      match mkdirSync w d with
      | None => ret tt
      | Some e => throw e
      end
  | v => throw (invalid_path_arg
                  (lit "string or an instance of Buffer or URL") v)
  end.

Definition fs_writeFileSync (p : jsstring) (data : bytes) : M unit :=
  tell (FsWrite p data) ;;
  match writeFileSync w p data with
  | None => ret tt
  | Some e => throw e
  end.

(** [path.join(dir, fileName)]; like every function of [path] it rejects
    an argument that is not a string. *)
Definition join_path (dir : JsVal) (fileName : jsstring) : M jsstring :=
  match dir with
  | JString d => ret (path_join w d fileName)
  | v => throw (invalid_path_arg (lit "string") v)
  end.

Definition mupdf_openDocument (data : bytes) : M Document :=
  tell (PdfOpen data) ;; lift (openDocument w data).

Definition doc_loadPage (doc : Document) (i : nat) : M Page :=
  tell (PdfLoadPage i) ;; lift (loadPage doc i).

(** [x || null] on a property that holds a string or is absent. *)
Definition or_null (x : option jsstring) : option jsstring :=
  match x with
  | Some s => if truthy_str s then Some s else None
  | None => None
  end.

(** [{}] *)
Definition empty_info : Info :=
  {| Title := None; Author := None; Subject := None; Creator := None;
     Producer := None; CreationDate := None; ModDate := None |}.

(** The [metadata] variable after
    [try { const data = await PDFParse(dataBuffer);
           metadata = data.info || {}; } catch { }]. *)
Definition metadata_after (o : MetaOutcome) : Info :=
  match o with
  | MetaThrows _ => empty_info
  | MetaRejects _ => empty_info
  | MetaResolves None => empty_info
  | MetaResolves (Some None) => empty_info
  | MetaResolves (Some (Some info)) => info
  end.

(** [extractText], up to the call of [PDFParse]. *)
Definition extractText_begin (pdfPath : jsstring) : M (jsstring * bytes) :=
  let absolutePath := path_resolve w pdfPath in
  found <- fs_existsSync absolutePath ;;
  if negb found
  then throw (mkJsError ClsError (lit "PDF file not found: " +++ absolutePath))
  else
    dataBuffer <- fs_readFileSync absolutePath ;;
    tell (MetadataParse dataBuffer) ;;
    ret (absolutePath, dataBuffer).

(** The body of the page loop of [extractText]. *)
Definition text_page (doc : Document) (pages : list PageText) (i : nat)
  : M (list PageText) :=
  page <- doc_loadPage doc i ;;
  text <- lift (page_asText page) ;;
  ret (pages ++ [ {| pt_page := i + 1; pt_text := trim text |} ]).

(** [extractText], from the end of the [try] block on. *)
Definition extractText_rest (absolutePath : jsstring) (dataBuffer : bytes)
    (metadata : Info) : M TextResult :=
  doc <- mupdf_openDocument dataBuffer ;;
  let totalPages := countPages doc in
  pages <- foldM (text_page doc) (seq 0 totalPages) [] ;;
  ret {| tr_file := absolutePath;
         tr_totalPages := totalPages;
         tr_metadata :=
           {| md_title := or_null (Title metadata);
              md_author := or_null (Author metadata);
              md_subject := or_null (Subject metadata);
              md_creator := or_null (Creator metadata);
              md_producer := or_null (Producer metadata);
              md_creationDate := or_null (CreationDate metadata);
              md_modDate := or_null (ModDate metadata) |};
         tr_pages := pages |}.

Definition extractText (pdfPath : jsstring) : M TextResult :=
  ab <- extractText_begin pdfPath ;;
  extractText_rest (fst ab) (snd ab) (metadata_after (PDFParse w (snd ab))).

(** [format === "jpeg"] *)
Definition is_jpeg (format : jsstring) : bool := str_eqb format (lit "jpeg").

Definition encode (format : jsstring) (pixmap : Pixmap) : M bytes :=
  if is_jpeg format then lift (asJPEG pixmap 85%N) else lift (asPNG pixmap).

Definition mime_of (format : jsstring) : jsstring :=
  if is_jpeg format then lit "image/jpeg" else lit "image/png".

Definition ext_of (format : jsstring) : jsstring :=
  if is_jpeg format then lit "jpg" else lit "png".

(** The [options] object [extractImages] hands to
    [extractEmbeddedImages]. *)
Record EmbedOptions : Type := {
  eo_outputDir : JsVal;
  eo_format : jsstring;
  eo_returnBase64 : bool
}.

(** The [onImageBlock] callback.  Its two variables, [images] and
    [imageIndex], are only touched after everything that can throw. *)
Definition onImageBlock (pageIndex : nat) (pdfBaseName : jsstring)
    (options : EmbedOptions) (st : list ImageInfo * nat) (b : ImageBlock)
  : M (list ImageInfo * nat) :=
  let '(images, imageIndex) := st in
  try_catch
    (pixmap <- lift (image_toPixmap b) ;;
     let width := getWidth pixmap in
     let height := getHeight pixmap in
     imgBuffer <- encode (eo_format options) pixmap ;;
     let imageInfo :=
       {| img_page := pageIndex + 1;
          img_imageIndex := imageIndex;
          img_width := width;
          img_height := height;
          img_format := eo_format options;
          img_type := Some (lit "embedded");
          img_bbox := Some {| bb_x := bbox0 b; bb_y := bbox1 b;
                              bb_w := (bbox2 b - bbox0 b)%float;
                              bb_h := (bbox3 b - bbox1 b)%float |};
          img_base64 := None; img_mimeType := None; img_path := None |} in
     imageInfo' <-
       (if eo_returnBase64 options
        then ret {| img_page := img_page imageInfo;
                    img_imageIndex := img_imageIndex imageInfo;
                    img_width := img_width imageInfo;
                    img_height := img_height imageInfo;
                    img_format := img_format imageInfo;
                    img_type := img_type imageInfo;
                    img_bbox := img_bbox imageInfo;
                    img_base64 := Some (toBase64 imgBuffer);
                    img_mimeType := Some (mime_of (eo_format options));
                    img_path := None |}
        else
          let ext := ext_of (eo_format options) in
          let fileName :=
            pdfBaseName +++ lit "_page_" +++ String_of_nat (pageIndex + 1)
            +++ lit "_img_" +++ String_of_nat imageIndex
            +++ lit "." +++ ext in
          filePath <- join_path (eo_outputDir options) fileName ;;
          fs_writeFileSync filePath imgBuffer ;;
          ret {| img_page := img_page imageInfo;
                 img_imageIndex := img_imageIndex imageInfo;
                 img_width := img_width imageInfo;
                 img_height := img_height imageInfo;
                 img_format := img_format imageInfo;
                 img_type := img_type imageInfo;
                 img_bbox := img_bbox imageInfo;
                 img_base64 := None;
                 img_mimeType := None;
                 img_path := Some filePath |}) ;;
     ret (images ++ [imageInfo'], imageIndex + 1))
    (fun _ => ret (images, imageIndex)).

Definition extractEmbeddedImages (page : Page) (pageIndex : nat)
    (pdfBaseName : jsstring) (options : EmbedOptions) : M (list ImageInfo) :=
  stext <- lift (page_toStructuredText page) ;;
  st <- foldM (onImageBlock pageIndex pdfBaseName options)
          (imageBlocks stext) ([], 1) ;;
  match walkError stext with
  | Some e => throw e
  | None => ret (fst st)
  end.

(** The body of the page loop of [extractImages]. *)
Definition image_page (doc : Document) (outputDir : JsVal)
    (format : jsstring) (returnBase64 : bool) (scale : JsNumber)
    (pdfBaseName : jsstring) (images : list ImageInfo) (i : nat)
  : M (list ImageInfo) :=
  page <- doc_loadPage doc i ;;
  pixmap <- lift (page_toPixmap page scale) ;;
  let width := getWidth pixmap in
  let height := getHeight pixmap in
  imgBuffer <- encode format pixmap ;;
  imageInfo <-
    (if returnBase64
     then ret {| img_page := i + 1; img_imageIndex := 0;
                 img_width := width; img_height := height;
                 img_format := format;
                 img_type := None; img_bbox := None;
                 img_base64 := Some (toBase64 imgBuffer);
                 img_mimeType := Some (mime_of format);
                 img_path := None |}
     else
       let ext := ext_of format in
       let fileName :=
         pdfBaseName +++ lit "_page_" +++ String_of_nat (i + 1)
         +++ lit "." +++ ext in
       filePath <- join_path outputDir fileName ;;
       fs_writeFileSync filePath imgBuffer ;;
       ret {| img_page := i + 1; img_imageIndex := 0;
              img_width := width; img_height := height;
              img_format := format;
              img_type := None; img_bbox := None;
              img_base64 := None; img_mimeType := None;
              img_path := Some filePath |}) ;;
  let images := images ++ [imageInfo] in
  try_catch
    (embeddedImages <-
       extractEmbeddedImages page i pdfBaseName
         {| eo_outputDir := outputDir; eo_format := format;
            eo_returnBase64 := returnBase64 |} ;;
     ret (images ++ embeddedImages))
    (fun _ => ret images).

(** A destructuring default: it replaces [undefined], and only that. *)
Definition default_to {A} (d : A) (x : option A) : A :=
  match x with Some a => a | None => d end.

Definition default_dir (d : jsstring) (x : JsVal) : JsVal :=
  match x with JUndefined => JString d | v => v end.

Definition extractImages (pdfPath : jsstring) (options : Options)
  : M ImageResult :=
  let absolutePath := path_resolve w pdfPath in
  found <- fs_existsSync absolutePath ;;
  if negb found
  then throw (mkJsError ClsError (lit "PDF file not found: " +++ absolutePath))
  else
    let outputDir :=
      default_dir (path_dirname w absolutePath) (opt_outputDir options) in
    let format := default_to (lit "png") (opt_format options) in
    let returnBase64 := default_to false (opt_base64 options) in
    let dpi := default_to 150%float (opt_dpi options) in
    dataBuffer <- fs_readFileSync absolutePath ;;
    doc <- mupdf_openDocument dataBuffer ;;
    let totalPages := countPages doc in
    (if negb returnBase64 then fs_mkdirSync outputDir else ret tt) ;;
    let pdfBaseName :=
      path_basename w absolutePath (path_extname w absolutePath) in
    let scale := (dpi / 72)%float in
    images <- foldM (image_page doc outputDir format returnBase64 scale
                       pdfBaseName)
                (seq 0 totalPages) [] ;;
    ret {| ir_file := absolutePath;
           ir_totalPages := totalPages;
           ir_totalImages := List.length images;
           ir_images := images |}.

(** The [.map] of [extractAll]. *)
Definition combine_pages (textResult : TextResult) (imageResult : ImageResult)
  : AllResult :=
  {| ar_file := tr_file textResult;
     ar_totalPages := tr_totalPages textResult;
     ar_metadata := tr_metadata textResult;
     ar_pages :=
       map (fun p =>
              let pageImages :=
                filter (fun img => Nat.eqb (img_page img) (pt_page p))
                       (ir_images imageResult) in
              {| cp_page := pt_page p; cp_text := pt_text p;
                 cp_images := pageImages |})
           (tr_pages textResult);
     ar_totalImages := ir_totalImages imageResult |}.

(** [Promise.all] settles with the first rejection, or with both values. *)
Definition join_first {A B C} (f : A -> B -> C)
    (first : result A) (second : result B) : result C :=
  match first, second with
  | Throw e, _ => Throw e
  | Ok _, Throw e => Throw e
  | Ok a, Ok b => Ok (f a b)
  end.

(** [extractAll].  Both calls are made before [Promise.all] sees either
    promise.  [extractImages] never awaits, so it runs to its end inside its
    call.  [extractText] runs up to its [await]; only when [PDFParse] throws
    on the spot is there nothing to wait for, and it finishes first.  The
    promise that is rejected first decides the error. *)
Definition extractAll (pdfPath : jsstring) (options : Options)
  : M AllResult :=
  let '(t1, r1) := extractText_begin pdfPath in
  let '(ti, ri) := extractImages pdfPath options in
  match r1 with
  | Throw e => (t1 ++ ti, Throw e)
  | Ok ab =>
      let '(t2, rt) :=
        extractText_rest (fst ab) (snd ab)
          (metadata_after (PDFParse w (snd ab))) in
      match PDFParse w (snd ab) with
      | MetaThrows _ =>
          (t1 ++ t2 ++ ti, join_first combine_pages rt ri)
      | _ =>
          (t1 ++ ti ++ t2,
           join_first (fun ir tr => combine_pages tr ir) ri rt)
      end
  end.

End Core.

End ExtractPdf.
Import ExtractPdf.

(* ===================================================================== *)
(** ** Pieces of text both front-ends print *)
(* ===================================================================== *)

Module Glyphs.

Definition nl : jsstring := [10%N].
(** U+1F4C4, U+1F5BC U+FE0F, U+2501, U+2500, U+2022, U+00D7, U+2192,
    U+274C, as UTF-16. *)
Definition page_facing_up : jsstring := [55357; 56516]%N.
Definition framed_picture : jsstring := [55357; 56764; 65039]%N.
Definition heavy_bar : jsstring := [9473%N].
Definition light_bar : jsstring := [9472%N].
Definition bullet : jsstring := [8226%N].
Definition times : jsstring := [215%N].
Definition arrow : jsstring := [8594%N].
Definition cross_mark : jsstring := [10060%N].

(** [s || d] *)
Definition or_else (s d : jsstring) : jsstring :=
  if truthy_str s then s else d.

(** [if (x) ...] on a property that is a string or absent. *)
Definition truthy_opt (x : option jsstring) : bool :=
  match x with Some s => truthy_str s | None => false end.

(** The line [label + value + "\n"], when the value is truthy. *)
Definition line_if (label : jsstring) (x : option jsstring) : jsstring :=
  match x with
  | Some s => if truthy_str s then label +++ s +++ nl else []
  | None => []
  end.

End Glyphs.
Import Glyphs.

(* ===================================================================== *)
(** ** The command-line front-end *)
(* ===================================================================== *)

Module Cli.

Record Parsed : Type := {
  command : option jsstring;
  pdfPath : option jsstring;
  outputDir : JsVal;
  format : option jsstring;
  dpi : JsNumber;
  base64 : bool;
  json : bool
}.

Definition initial : Parsed :=
  {| command := None; pdfPath := None; outputDir := JNull;
     format := Some (lit "png"); dpi := 150%float;
     base64 := false; json := false |}.

Definition set_command (p : Parsed) (v : jsstring) : Parsed :=
  {| command := Some v; pdfPath := pdfPath p; outputDir := outputDir p;
     format := format p; dpi := dpi p; base64 := base64 p; json := json p |}.
Definition set_pdfPath (p : Parsed) (v : jsstring) : Parsed :=
  {| command := command p; pdfPath := Some v; outputDir := outputDir p;
     format := format p; dpi := dpi p; base64 := base64 p; json := json p |}.
Definition set_outputDir (p : Parsed) (v : JsVal) : Parsed :=
  {| command := command p; pdfPath := pdfPath p; outputDir := v;
     format := format p; dpi := dpi p; base64 := base64 p; json := json p |}.
Definition set_format (p : Parsed) (v : option jsstring) : Parsed :=
  {| command := command p; pdfPath := pdfPath p; outputDir := outputDir p;
     format := v; dpi := dpi p; base64 := base64 p; json := json p |}.
Definition set_dpi (p : Parsed) (v : JsNumber) : Parsed :=
  {| command := command p; pdfPath := pdfPath p; outputDir := outputDir p;
     format := format p; dpi := v; base64 := base64 p; json := json p |}.
Definition set_base64 (p : Parsed) : Parsed :=
  {| command := command p; pdfPath := pdfPath p; outputDir := outputDir p;
     format := format p; dpi := dpi p; base64 := true; json := json p |}.
Definition set_json (p : Parsed) : Parsed :=
  {| command := command p; pdfPath := pdfPath p; outputDir := outputDir p;
     format := format p; dpi := dpi p; base64 := base64 p; json := true |}.

Definition is_flag (arg : jsstring) : bool := startsWith1 arg 45%N.

Definition one_of (arg : jsstring) (long short : jsstring) : bool :=
  str_eqb arg long || str_eqb arg short.

(** The [while] loop of [parseArgs], on the arguments from index [i] on.
    [args[++i]] past the end is [undefined]. *)
Fixpoint parseArgs_from (args : list jsstring) (parsed : Parsed) : Parsed :=
  match args with
  | [] => parsed
  | arg :: rest =>
      if negb (truthy_opt (command parsed)) && negb (is_flag arg)
      then parseArgs_from rest (set_command parsed arg)
      else if negb (truthy_opt (pdfPath parsed)) && negb (is_flag arg)
              && truthy_opt (command parsed)
      then parseArgs_from rest (set_pdfPath parsed arg)
      else if one_of arg (lit "--output-dir") (lit "-o")
      then match rest with
           | v :: rest' => parseArgs_from rest' (set_outputDir parsed (JString v))
           | [] => set_outputDir parsed JUndefined
           end
      else if one_of arg (lit "--format") (lit "-f")
      then match rest with
           | v :: rest' => parseArgs_from rest' (set_format parsed (Some v))
           | [] => set_format parsed None
           end
      else if one_of arg (lit "--dpi") (lit "-d")
      then match rest with
           | v :: rest' => parseArgs_from rest' (set_dpi parsed (parseInt10 v))
           | [] => set_dpi parsed NaN
           end
      else if one_of arg (lit "--base64") (lit "-b")
      then parseArgs_from rest (set_base64 parsed)
      else if one_of arg (lit "--json") (lit "-j")
      then parseArgs_from rest (set_json parsed)
      else parseArgs_from rest parsed
  end.

Definition parseArgs (args : list jsstring) : Parsed :=
  parseArgs_from args initial.

Definition formatTextOutput (result : TextResult) : jsstring :=
  nl +++ page_facing_up +++ lit " PDF: " +++ tr_file result +++ nl
  +++ str_repeat heavy_bar 60 +++ nl
  +++ lit "Pages: " +++ String_of_nat (tr_totalPages result) +++ nl
  +++ line_if (lit "Title: ") (md_title (tr_metadata result))
  +++ line_if (lit "Author: ") (md_author (tr_metadata result))
  +++ nl
  +++ flat_map
        (fun page =>
           light_bar +++ light_bar +++ lit " Page "
           +++ String_of_nat (pt_page page) +++ lit " "
           +++ str_repeat light_bar 45 +++ nl
           +++ or_else (pt_text page) (lit "(empty page)") +++ nl +++ nl)
        (tr_pages result).

Definition formatImagesOutput (result : ImageResult) : jsstring :=
  nl +++ framed_picture +++ lit " Images from: " +++ ir_file result +++ nl
  +++ str_repeat heavy_bar 60 +++ nl
  +++ lit "Pages: " +++ String_of_nat (ir_totalPages result) +++ nl
  +++ lit "Images: " +++ String_of_nat (ir_totalImages result) +++ nl +++ nl
  +++ flat_map
        (fun img =>
           let type :=
             match img_type img with
             | Some t =>
                 if str_eqb t (lit "embedded")
                 then lit "embedded img #"
                      +++ String_of_nat (img_imageIndex img)
                 else lit "full page"
             | None => lit "full page"
             end in
           lit "  " +++ bullet +++ lit " Page "
           +++ String_of_nat (img_page img) +++ lit " (" +++ type
           +++ lit "): " +++ String_of_N (img_width img) +++ times
           +++ String_of_N (img_height img) +++ lit "px"
           +++ match img_path img with
               | Some p => if truthy_str p then lit " " +++ arrow +++ lit " " +++ p
                           else []
               | None => []
               end
           +++ nl)
        (ir_images result).

(** How the process ends: [process.exit(code)], the end of [main] (exit
    code 0), or the server that [serve] leaves running. *)
Inductive Ending : Type :=
| Exit (code : nat)
| Serving.

(** The options object the [images] and [all] commands build. *)
Definition options_of (opts : Parsed) : Options :=
  {| opt_outputDir := outputDir opts;
     opt_format := format opts;
     opt_base64 := Some (base64 opts);
     opt_dpi := Some (dpi opts) |}.

(** The part of a combined result [formatTextOutput] reads. *)
Definition text_part (r : AllResult) : TextResult :=
  {| tr_file := ar_file r; tr_totalPages := ar_totalPages r;
     tr_metadata := ar_metadata r;
     tr_pages := map (fun p => {| pt_page := cp_page p;
                                  pt_text := cp_text p |}) (ar_pages r) |}.

(** The object the [all] command hands to [formatImagesOutput]. *)
Definition images_part (r : AllResult) : ImageResult :=
  {| ir_file := ar_file r; ir_totalPages := ar_totalPages r;
     ir_totalImages := ar_totalImages r;
     ir_images := flat_map cp_images (ar_pages r) |}.

Definition missing_path : list Event * Ending :=
  ([ConsoleError (lit "Error: Please provide a PDF file path.")], Exit 1).

(** The [try]/[catch] of [main] around one command. *)
Definition report {A} (w : World) (m : M A) (print : A -> list Event)
  : list Event * Ending :=
  match m with
  | (t, Ok r) => (t ++ print r, Exit 0)
  | (t, Throw error) =>
      (t ++ [ConsoleError (nl +++ cross_mark +++ lit " Error: "
                           +++ message error)]
         ++ (if env_DEBUG w then [ConsoleErrorStack error] else []),
       Exit 1)
  end.

Definition name_of_command (c : option jsstring) : jsstring :=
  match c with Some s => s | None => lit "null" end.

Definition main (w : World) (args : list jsstring) : list Event * Ending :=
  if match args with [] => true | _ => false end
     || existsb (fun a => str_eqb a (lit "--help")) args
     || existsb (fun a => str_eqb a (lit "-h")) args
  then ([PrintHelp], Exit 0)
  else
    let opts := parseArgs args in
    let cmd := name_of_command (command opts) in
    if str_eqb cmd (lit "text") then
      match pdfPath opts with
      | Some p =>
          if truthy_str p then
            report w (extractText w p)
              (fun result =>
                 if json opts
                 then [ConsoleLogJSON (PrintedText result)]
                 else [ConsoleLog (formatTextOutput result)])
          else missing_path
      | None => missing_path
      end
    else if str_eqb cmd (lit "images") then
      match pdfPath opts with
      | Some p =>
          if truthy_str p then
            report w (extractImages w p (options_of opts))
              (fun result =>
                 if json opts
                 then [ConsoleLogJSON (PrintedImages result)]
                 else [ConsoleLog (formatImagesOutput result)])
          else missing_path
      | None => missing_path
      end
    else if str_eqb cmd (lit "all") then
      match pdfPath opts with
      | Some p =>
          if truthy_str p then
            report w (extractAll w p (options_of opts))
              (fun result =>
                 if json opts
                 then [ConsoleLogJSON (PrintedAll result)]
                 else [ConsoleLog (formatTextOutput (text_part result));
                       ConsoleLog (formatImagesOutput (images_part result))])
          else missing_path
      | None => missing_path
      end
    else if str_eqb cmd (lit "serve") then ([ImportServer], Serving)
    else ([ConsoleError (lit "Unknown command: " +++ cmd); PrintHelp], Exit 1).

End Cli.

(* ===================================================================== *)
(** ** The MCP server's tool handlers *)
(* ===================================================================== *)

Module Server.

(** A content block of a tool response. *)
Inductive Content : Type :=
| TextContent (text : jsstring)
| ImageContent (data : jsstring) (mimeType : option jsstring).

(** A tool response; [isError] is [false] where the source leaves the
    property out. *)
Record ToolResult : Type := {
  content : list Content;
  isError : bool
}.

(** [z.enum(["png", "jpeg"])] *)
Inductive Format : Type := Png | Jpeg.

Definition format_name (f : Format) : jsstring :=
  match f with Png => lit "png" | Jpeg => lit "jpeg" end.

(** The arguments of each tool as the handler receives them, that is after
    the schema has been checked and its defaults filled in. *)
Record ImagesArgs : Type := {
  ia_pdfPath : jsstring;
  ia_outputDir : option jsstring;
  ia_format : Format;
  ia_returnBase64 : bool;
  ia_dpi : JsNumber
}.

Record AllArgs : Type := {
  aa_pdfPath : jsstring;
  aa_outputDir : option jsstring;
  aa_format : Format;
  aa_dpi : JsNumber
}.

Definition optional (x : option jsstring) : JsVal :=
  match x with Some s => JString s | None => JUndefined end.

Definition bar36 : jsstring := str_repeat heavy_bar 36.

Definition page_rule (n : nat) : jsstring :=
  light_bar +++ light_bar +++ lit " Page " +++ String_of_nat n +++ lit " "
  +++ str_repeat light_bar 22 +++ nl.

(** The [catch] block every handler ends with. *)
Definition error_response (error : JsError) : ToolResult :=
  {| content := [TextContent (lit "Error: " +++ message error)];
     isError := true |}.

(** The image blocks of the artifacts that carry base64 data. *)
Definition inline_blocks (images : list ImageInfo) : list Content :=
  flat_map
    (fun img =>
       match img_base64 img with
       | Some data =>
           if truthy_str data
           then [ImageContent data (img_mimeType img)]
           else []
       | None => []
       end)
    images.

Definition extract_pdf_text (w : World) (pdfPath : jsstring) : M ToolResult :=
  try_catch
    (result <- extractText w pdfPath ;;
     let output :=
       page_facing_up +++ lit " PDF Text Extraction: " +++ tr_file result
       +++ nl +++ bar36 +++ nl
       +++ lit "Total Pages: " +++ String_of_nat (tr_totalPages result) +++ nl
       +++ line_if (lit "Title: ") (md_title (tr_metadata result))
       +++ line_if (lit "Author: ") (md_author (tr_metadata result))
       +++ line_if (lit "Subject: ") (md_subject (tr_metadata result))
       +++ nl
       +++ flat_map
             (fun page =>
                page_rule (pt_page page)
                +++ or_else (pt_text page) (lit "(empty page)")
                +++ nl +++ nl)
             (tr_pages result) in
     ret {| content := [TextContent output]; isError := false |})
    (fun error => ret (error_response error)).

Definition extract_pdf_images (w : World) (a : ImagesArgs) : M ToolResult :=
  try_catch
    (result <- extractImages w (ia_pdfPath a)
                 {| opt_outputDir := optional (ia_outputDir a);
                    opt_format := Some (format_name (ia_format a));
                    opt_base64 := Some (ia_returnBase64 a);
                    opt_dpi := Some (ia_dpi a) |} ;;
     let summary :=
       framed_picture +++ lit " PDF Image Extraction: " +++ ir_file result
       +++ nl +++ bar36 +++ nl
       +++ lit "Total Pages: " +++ String_of_nat (ir_totalPages result) +++ nl
       +++ lit "Total Images Extracted: "
       +++ String_of_nat (ir_totalImages result) +++ nl +++ nl
       +++ flat_map
             (fun img =>
                bullet +++ lit " Page " +++ String_of_nat (img_page img)
                +++ match img_type img with
                    | Some t =>
                        if str_eqb t (lit "embedded")
                        then lit " (embedded image #"
                             +++ String_of_nat (img_imageIndex img) +++ lit ")"
                        else lit " (full page render)"
                    | None => lit " (full page render)"
                    end
                +++ lit ": " +++ String_of_N (img_width img) +++ times
                +++ String_of_N (img_height img) +++ lit "px"
                +++ match img_path img with
                    | Some p =>
                        if truthy_str p
                        then lit " " +++ arrow +++ lit " " +++ p else []
                    | None => []
                    end
                +++ nl)
             (ir_images result) in
     ret {| content :=
              TextContent summary
              :: (if ia_returnBase64 a
                  then inline_blocks (ir_images result) else []);
            isError := false |})
    (fun error => ret (error_response error)).

Definition extract_pdf_all (w : World) (a : AllArgs) : M ToolResult :=
  try_catch
    (result <- extractAll w (aa_pdfPath a)
                 {| opt_outputDir := optional (aa_outputDir a);
                    opt_format := Some (format_name (aa_format a));
                    opt_base64 := Some true;
                    opt_dpi := Some (aa_dpi a) |} ;;
     let summary :=
       page_facing_up +++ framed_picture +++ lit " Full PDF Extraction: "
       +++ ar_file result +++ nl +++ bar36 +++ nl
       +++ lit "Total Pages: " +++ String_of_nat (ar_totalPages result) +++ nl
       +++ lit "Total Images: " +++ String_of_nat (ar_totalImages result)
       +++ nl
       +++ line_if (lit "Title: ") (md_title (ar_metadata result))
       +++ line_if (lit "Author: ") (md_author (ar_metadata result))
       +++ nl in
     ret {| content :=
              TextContent summary
              :: flat_map
                   (fun page =>
                      let pageText :=
                        page_rule (cp_page page)
                        +++ or_else (cp_text page) (lit "(empty page)") +++ nl
                        +++ match cp_images page with
                            | [] => []
                            | imgs =>
                                nl +++ lit "["
                                +++ String_of_nat (List.length imgs)
                                +++ lit " image(s) on this page]" +++ nl
                            end in
                      TextContent pageText :: inline_blocks (cp_images page))
                   (ar_pages result);
            isError := false |})
    (fun error => ret (error_response error)).

(** A tool call, by name and arguments. *)
Inductive ToolCall : Type :=
| Call_extract_pdf_text (pdfPath : jsstring)
| Call_extract_pdf_images (a : ImagesArgs)
| Call_extract_pdf_all (a : AllArgs).

Definition handle (w : World) (c : ToolCall) : M ToolResult :=
  match c with
  | Call_extract_pdf_text p => extract_pdf_text w p
  | Call_extract_pdf_images a => extract_pdf_images w a
  | Call_extract_pdf_all a => extract_pdf_all w a
  end.

End Server.

(* ===================================================================== *)
(** ** Vocabulary of the properties *)
(* ===================================================================== *)

Module Props.

(** A text with no white space at either end. *)
Definition starts_clean (s : jsstring) : Prop :=
  match s with c :: _ => isWhiteSpace c = false | [] => True end.

Definition trimmed (s : jsstring) : Prop :=
  starts_clean s /\ starts_clean (rev s).

(** The input file is there and its bytes are [buf]. *)
Definition readable (w : World) (pdfPath : jsstring) (buf : bytes) : Prop :=
  existsSync w (path_resolve w pdfPath) = true
  /\ readFileSync w (path_resolve w pdfPath) = Ok buf.

(** Page [i] of the document loads and yields its text. *)
Definition page_reads (doc : Document) (i : nat) : Prop :=
  exists pg t, loadPage doc i = Ok pg /\ page_asText pg = Ok t.

(** The values [extractImages] settles on for an [options] object. *)
Definition format_of (o : Options) : jsstring :=
  default_to (lit "png") (opt_format o).
Definition inline_mode (o : Options) : bool :=
  default_to false (opt_base64 o).
Definition scale_of (o : Options) : JsNumber :=
  (default_to 150%float (opt_dpi o) / 72)%float.
Definition dir_of (w : World) (pdfPath : jsstring) (o : Options) : JsVal :=
  default_dir (path_dirname w (path_resolve w pdfPath)) (opt_outputDir o).

(** What the encoder chosen for [format] returns. *)
Definition encoded (format : jsstring) (px : Pixmap) : result bytes :=
  if is_jpeg format then asJPEG px 85%N else asPNG px.

(** Page [i] loads, rasterises and encodes. *)
Definition page_renders (doc : Document) (o : Options) (i : nat) : Prop :=
  exists pg px buf,
    loadPage doc i = Ok pg
    /\ page_toPixmap pg (scale_of o) = Ok px
    /\ encoded (format_of o) px = Ok buf.

(** Either nothing has to be written, or the output directory is a string
    and the disk takes what it is given. *)
Definition disk_ready (w : World) (pdfPath : jsstring) (o : Options) : Prop :=
  inline_mode o = true
  \/ exists d, dir_of w pdfPath o = JString d
               /\ mkdirSync w d = None
               /\ forall f data, writeFileSync w f data = None.

(** The walk over page [i] visits the blocks [bs] and does not throw. *)
Definition page_walks (doc : Document) (i : nat) (bs : list ImageBlock)
  : Prop :=
  exists pg,
    loadPage doc i = Ok pg
    /\ page_toStructuredText pg
       = Ok {| imageBlocks := bs; walkError := None |}.

(** An embedded image decodes: its pixmap is there and encodes. *)
Definition decodes (format : jsstring) (b : ImageBlock) : bool :=
  match image_toPixmap b with
  | Ok px => match encoded format px with Ok _ => true | Throw _ => false end
  | Throw _ => false
  end.

(** The artifact [e] is the one made from block [b]: it has the size of
    the block's pixmap, and its [bbox] has the block's corner and the width
    and height the callback computes, [bbox[2] - bbox[0]] and
    [bbox[3] - bbox[1]], each a subtraction of doubles. *)
Definition made_from (e : ImageInfo) (b : ImageBlock) : Prop :=
  exists px,
    image_toPixmap b = Ok px
    /\ img_width e = getWidth px
    /\ img_height e = getHeight px
    /\ img_bbox e = Some {| bb_x := bbox0 b; bb_y := bbox1 b;
                            bb_w := (bbox2 b - bbox0 b)%float;
                            bb_h := (bbox3 b - bbox1 b)%float |}.

(** How an artifact is delivered: in inline mode as the base64 text of the
    bytes some pixmap encoded to, with the MIME type of the format and no
    path; otherwise as a path alone. *)
Definition delivered (inline : bool) (format : jsstring) (e : ImageInfo)
  : Prop :=
  if inline
  then (exists px buf, encoded format px = Ok buf
                       /\ img_base64 e = Some (toBase64 buf))
       /\ img_mimeType e = Some (mime_of format)
       /\ img_path e = None
  else (exists f, img_path e = Some f)
       /\ img_base64 e = None
       /\ img_mimeType e = None.

(** Handing an artifact over cannot fail: it stays in memory, or it goes
    to a directory named by a string on a disk that takes every write. *)
Definition emits (w : World) (dir : JsVal) (inline : bool) : Prop :=
  inline = true
  \/ exists d, dir = JString d
               /\ forall f data, writeFileSync w f data = None.

(** The page render of the page with index [i]. *)
Definition is_render (i : nat) (r : ImageInfo) : Prop :=
  img_page r = i + 1 /\ img_imageIndex r = 0 /\ img_type r = None.

(** The embedded artifacts of the page with index [i], numbered from 1. *)
Definition is_embedded_run (i : nat) (es : list ImageInfo) : Prop :=
  forall j e, nth_error es j = Some e ->
    img_page e = i + 1 /\ img_imageIndex e = j + 1
    /\ img_type e = Some (lit "embedded").

(** The artifacts of one page: the render, then the embedded ones. *)
Definition Group : Type := (ImageInfo * list ImageInfo)%type.

Definition flatten (groups : list Group) : list ImageInfo :=
  flat_map (fun g => fst g :: snd g) groups.

(** [groups] holds, page after page from index [from] on, a render
    followed by a run of embedded artifacts. *)
Definition page_groups (from : nat) (groups : list Group) : Prop :=
  forall i g, nth_error groups i = Some g ->
    is_render (from + i) (fst g) /\ is_embedded_run (from + i) (snd g).

(** [g] holds the artifacts of the page with index [i]: a render, then the
    embedded ones, each delivered as the mode says; and when the walk over
    the page goes through and nothing can fail on the way out, the embedded
    ones are, in order, those made from the blocks that decode. *)
Definition group_of_page (w : World) (doc : Document) (dir : JsVal)
    (format : jsstring) (inline : bool) (i : nat) (g : Group) : Prop :=
  is_render i (fst g)
  /\ is_embedded_run i (snd g)
  /\ delivered inline format (fst g)
  /\ Forall (delivered inline format) (snd g)
  /\ forall bs, page_walks doc i bs -> emits w dir inline ->
       Forall2 made_from (snd g) (filter (decodes format) bs).

(** Page number first, image index second. *)
Definition before (a b : ImageInfo) : Prop :=
  img_page a < img_page b
  \/ (img_page a = img_page b /\ img_imageIndex a < img_imageIndex b).

(** The trace entries that change the disk. *)
Definition is_fs_write (e : Event) : bool :=
  match e with
  | FsMkdir _ => true
  | FsWrite _ _ => true
  | _ => false
  end.

Definition fs_writes (t : list Event) : list Event := filter is_fs_write t.

(** The trace entries that are calls into the PDF toolkit or the metadata
    parser, and the read of the file's bytes. *)
Definition is_adapter_call (e : Event) : bool :=
  match e with
  | FsRead _ => true
  | MetadataParse _ => true
  | PdfOpen _ => true
  | PdfLoadPage _ => true
  | _ => false
  end.

(** The [FileNotFound] condition. *)
Definition FileNotFound (absolutePath : jsstring) : JsError :=
  mkJsError ClsError (lit "PDF file not found: " +++ absolutePath).

Definition metadata_fails (o : MetaOutcome) : Prop :=
  match o with
  | MetaThrows _ => True
  | MetaRejects _ => True
  | MetaResolves _ => False
  end.

Definition all_null : Metadata :=
  {| md_title := None; md_author := None; md_subject := None;
     md_creator := None; md_producer := None; md_creationDate := None;
     md_modDate := None |}.

(** What the [images] entry of a combined page holds. *)
Definition images_of_page (imageResult : ImageResult) (n : nat)
  : list ImageInfo :=
  filter (fun img => Nat.eqb (img_page img) n) (ir_images imageResult).

(** The extraction call behind a tool. *)
Definition core_error (w : World) (c : Server.ToolCall) : option JsError :=
  match c with
  | Server.Call_extract_pdf_text p =>
      match outcome (extractText w p) with
      | Throw e => Some e | Ok _ => None
      end
  | Server.Call_extract_pdf_images a =>
      match outcome
              (extractImages w (Server.ia_pdfPath a)
                 {| opt_outputDir := Server.optional (Server.ia_outputDir a);
                    opt_format :=
                      Some (Server.format_name (Server.ia_format a));
                    opt_base64 := Some (Server.ia_returnBase64 a);
                    opt_dpi := Some (Server.ia_dpi a) |}) with
      | Throw e => Some e | Ok _ => None
      end
  | Server.Call_extract_pdf_all a =>
      match outcome
              (extractAll w (Server.aa_pdfPath a)
                 {| opt_outputDir := Server.optional (Server.aa_outputDir a);
                    opt_format :=
                      Some (Server.format_name (Server.aa_format a));
                    opt_base64 := Some true;
                    opt_dpi := Some (Server.aa_dpi a) |}) with
      | Throw e => Some e | Ok _ => None
      end
  end.

End Props.
Import Props.

(* ===================================================================== *)
(** ** A small world to run the program in *)
(* ===================================================================== *)

Module Sample.

(** POSIX-style [path] functions, enough for plain absolute paths. *)
Fixpoint split_at_last (c : N) (s : jsstring) : option (jsstring * jsstring) :=
  match s with
  | [] => None
  | x :: r =>
      match split_at_last c r with
      | Some (a, b) => Some (x :: a, b)
      | None => if N.eqb x c then Some ([], r) else None
      end
  end.

Definition dirname (p : jsstring) : jsstring :=
  match split_at_last 47%N p with
  | Some (d, _) => match d with [] => lit "/" | _ => d end
  | None => lit "."
  end.

Definition last_part (p : jsstring) : jsstring :=
  match split_at_last 47%N p with Some (_, f) => f | None => p end.

Definition extname (p : jsstring) : jsstring :=
  match split_at_last 46%N (last_part p) with
  | Some (_ :: _, e) => 46%N :: e
  | _ => []
  end.

Definition basename (p ext : jsstring) : jsstring :=
  let f := last_part p in
  let n := List.length f - List.length ext in
  if str_eqb (skipn n f) ext then firstn n f else f.

Definition join (d f : jsstring) : jsstring := d +++ lit "/" +++ f.

Definition png_bytes : bytes := [Byte.x89; Byte.x50; Byte.x4e; Byte.x47].
Definition jpg_bytes : bytes := [Byte.xff; Byte.xd8; Byte.xff].

Definition pixmap (width height : N) : Pixmap :=
  {| getWidth := width; getHeight := height;
     asJPEG := fun _ => Ok jpg_bytes; asPNG := Ok png_bytes |}.

Definition broken : JsError := mkJsError ClsError (lit "cannot decode image").

Definition block (x0 y0 x1 y1 : Z) (px : result Pixmap) : ImageBlock :=
  {| bbox0 := number_of_Z x0; bbox1 := number_of_Z y0;
     bbox2 := number_of_Z x1; bbox3 := number_of_Z y1;
     image_toPixmap := px |}.

(** Page 1: three image blocks, the second of which does not decode. *)
Definition blocks1 : list ImageBlock :=
  [ block 10 10 110 60 (Ok (pixmap 100 50));
    block 0 100 40 140 (Throw broken);
    block 50 200 80 230 (Ok (pixmap 30 30)) ].

Definition page1 : Page :=
  {| page_asText := Ok (lit "  Hello, world " +++ nl);
     page_toPixmap := fun _ => Ok (pixmap 1275 1650);
     page_toStructuredText :=
       Ok {| imageBlocks := blocks1; walkError := None |} |}.

(** Page 2: text only. *)
Definition page2 : Page :=
  {| page_asText := Ok (nl +++ lit "Second page");
     page_toPixmap := fun _ => Ok (pixmap 1275 1650);
     page_toStructuredText :=
       Ok {| imageBlocks := []; walkError := None |} |}.

Definition document : Document :=
  {| countPages := 2;
     loadPage := fun i =>
       match i with
       | 0 => Ok page1
       | 1 => Ok page2
       | _ => Throw (mkJsError ClsError (lit "page out of range"))
       end |}.

Definition report_pdf : jsstring := lit "/docs/report.pdf".
Definition missing_pdf : jsstring := lit "/docs/missing.pdf".
Definition pdf_bytes : bytes := [Byte.x25; Byte.x50; Byte.x44; Byte.x46].

Definition info : Info :=
  {| Title := Some (lit "My Document"); Author := Some (lit "John Doe");
     Subject := None; Creator := None; Producer := Some [];
     CreationDate := None; ModDate := None |}.

(** One file on disk, [/docs/report.pdf]; every write succeeds. *)
Definition world (meta : MetaOutcome) : World :=
  {| path_resolve := fun p => p;
     path_dirname := dirname;
     path_basename := basename;
     path_extname := extname;
     path_join := join;
     existsSync := fun p => str_eqb p report_pdf;
     readFileSync := fun p =>
       if str_eqb p report_pdf then Ok pdf_bytes
       else Throw (mkJsError ClsError (lit "ENOENT"));
     mkdirSync := fun _ => None;
     writeFileSync := fun _ _ => None;
     PDFParse := fun _ => meta;
     openDocument := fun _ => Ok document;
     env_DEBUG := false |}.

Definition parsed_ok : MetaOutcome := MetaResolves (Some (Some info)).
Definition parse_fails : MetaOutcome :=
  MetaRejects (mkJsError ClsError (lit "bad XRef entry")).

Definition inline_jpeg : Options :=
  {| opt_outputDir := JUndefined; opt_format := Some (lit "jpeg");
     opt_base64 := Some true; opt_dpi := None |}.

(** What the two extractions return in this world. *)
Definition value_or {A} (d : A) (r : result A) : A :=
  match r with Ok a => a | Throw _ => d end.

Definition text_result : TextResult :=
  Eval vm_compute in
    value_or {| tr_file := []; tr_totalPages := 0; tr_metadata := all_null;
                tr_pages := [] |}
      (outcome (extractText (world parsed_ok) report_pdf)).

Definition inline_result : ImageResult :=
  Eval vm_compute in
    value_or {| ir_file := []; ir_totalPages := 0; ir_totalImages := 0;
                ir_images := [] |}
      (outcome (extractImages (world parsed_ok) report_pdf inline_jpeg)).

(** The first artifact of [inline_result]. *)
Definition first_inline : ImageInfo :=
  Eval vm_compute in
    hd {| img_page := 0; img_imageIndex := 0; img_width := 0;
          img_height := 0; img_format := []; img_type := None;
          img_bbox := None; img_base64 := None; img_mimeType := None;
          img_path := None |}
       (ir_images inline_result).

End Sample.

(* ===================================================================== *)
(** ** Further vocabulary, and further worlds *)
(* ===================================================================== *)

Module More.

(** A text made of white space only. *)
Definition blank (s : jsstring) : Prop :=
  Forall (fun c => isWhiteSpace c = true) s.

(** Page [i] fails with [e]: it does not load, or its text cannot be
    extracted. *)
Definition page_fails (doc : Document) (i : nat) (e : JsError) : Prop :=
  loadPage doc i = Throw e
  \/ exists pg, loadPage doc i = Ok pg /\ page_asText pg = Throw e.

(** The walk over page [i] throws: [toStructuredText] does, or [walk]
    does after visiting some blocks. *)
Definition walk_fails (doc : Document) (i : nat) : Prop :=
  exists pg,
    loadPage doc i = Ok pg
    /\ match page_toStructuredText pg with
       | Throw _ => True
       | Ok st => walkError st <> None
       end.

(** The base name [extractImages] derives from the path. *)
Definition base_of (w : World) (pdfPath : jsstring) : jsstring :=
  path_basename w (path_resolve w pdfPath)
    (path_extname w (path_resolve w pdfPath)).

(** The file name of an artifact: [<base>_page_<n>.<ext>] for a render,
    [<base>_page_<n>_img_<k>.<ext>] for an embedded image. *)
Definition artifact_name (base format : jsstring) (img : ImageInfo)
  : jsstring :=
  base +++ lit "_page_" +++ String_of_nat (img_page img)
  +++ (if Nat.eqb (img_imageIndex img) 0 then []
       else lit "_img_" +++ String_of_nat (img_imageIndex img))
  +++ lit "." +++ ext_of format.

(** The files a trace has written. *)
Definition written_files (t : list Event) : list jsstring :=
  flat_map (fun e => match e with FsWrite f _ => [f] | _ => [] end) t.

(** A word of the command line that is neither empty nor a flag. *)
Definition plain (a : jsstring) : Prop :=
  truthy_str a = true /\ Cli.is_flag a = false.

(** None of the words [names] occurs in [args]. *)
Definition without (names : list jsstring) (args : list jsstring) : Prop :=
  forall a, In a args -> existsb (str_eqb a) names = false.

(** The data of the image blocks of a response, with their MIME types. *)
Definition image_blocks (cs : list Server.Content)
  : list (jsstring * option jsstring) :=
  flat_map (fun c => match c with
                     | Server.ImageContent d m => [(d, m)]
                     | Server.TextContent _ => []
                     end) cs.

Definition mime_name (f : Server.Format) : jsstring :=
  match f with
  | Server.Png => lit "image/png"
  | Server.Jpeg => lit "image/jpeg"
  end.

(** [extract_pdf_all]'s arguments with another [outputDir]. *)
Definition with_outputDir (a : Server.AllArgs) (d : option jsstring)
  : Server.AllArgs :=
  {| Server.aa_pdfPath := Server.aa_pdfPath a;
     Server.aa_outputDir := d;
     Server.aa_format := Server.aa_format a;
     Server.aa_dpi := Server.aa_dpi a |}.

(** A computation that, when it returns, has made calls [t] and returned
    [a] with [Q t a]. *)
Definition ensures {A} (m : M A) (Q : list Event -> A -> Prop) : Prop :=
  match m with
  | (t, Ok a) => Q t a
  | (_, Throw _) => True
  end.

(** The artifact [img] went to disk: it carries the requested format, its
    path is its file name joined to the directory [d], and a file of that
    path is among those the calls [t] wrote. *)
Definition filed (w : World) (d base format : jsstring) (t : list Event)
    (img : ImageInfo) : Prop :=
  img_format img = format
  /\ img_path img = Some (path_join w d (artifact_name base format img))
  /\ In (path_join w d (artifact_name base format img)) (written_files t).

(** The pixmap an artifact was made from: for a page render, what its page
    rasterised to at [scale]; for an embedded image, the pixmap of one of
    the image blocks of its page. *)
Definition own_pixmap (doc : Document) (scale : JsNumber) (img : ImageInfo)
    (px : Pixmap) : Prop :=
  exists i pg,
    img_page img = i + 1
    /\ loadPage doc i = Ok pg
    /\ if Nat.eqb (img_imageIndex img) 0
       then page_toPixmap pg scale = Ok px
       else exists st b,
              page_toStructuredText pg = Ok st
              /\ In b (imageBlocks st)
              /\ image_toPixmap b = Ok px.

(** The artifact [img] presents its own pixmap: it has the pixmap's size,
    and the bytes [data] that pixmap encoded to are what it delivers -- in
    inline mode as its [base64] text, with the MIME type of the format and
    no path; otherwise in the file of its path, written during the calls
    [t], with no [base64] and no MIME type. *)
Definition presented (doc : Document) (scale : JsNumber) (format : jsstring)
    (inline : bool) (t : list Event) (img : ImageInfo) : Prop :=
  exists px data,
    own_pixmap doc scale img px
    /\ img_width img = getWidth px
    /\ img_height img = getHeight px
    /\ encoded format px = Ok data
    /\ if inline
       then img_path img = None
            /\ img_mimeType img = Some (mime_of format)
            /\ img_base64 img = Some (toBase64 data)
       else img_base64 img = None
            /\ img_mimeType img = None
            /\ exists f, img_path img = Some f /\ In (FsWrite f data) t.

End More.
Import More.

Module Cases.

(** The sample world with another outcome of [openDocument]. *)
Definition world_of (d : result Document) : World :=
  {| path_resolve := fun p => p;
     path_dirname := Sample.dirname;
     path_basename := Sample.basename;
     path_extname := Sample.extname;
     path_join := Sample.join;
     existsSync := fun p => str_eqb p Sample.report_pdf;
     readFileSync := fun p =>
       if str_eqb p Sample.report_pdf then Ok Sample.pdf_bytes
       else Throw (mkJsError ClsError (lit "ENOENT"));
     mkdirSync := fun _ => None;
     writeFileSync := fun _ _ => None;
     PDFParse := fun _ => Sample.parsed_ok;
     openDocument := fun _ => d;
     env_DEBUG := false |}.

(** A document without pages. *)
Definition empty_document : Document :=
  {| countPages := 0;
     loadPage := fun _ =>
       Throw (mkJsError ClsError (lit "page out of range")) |}.

Definition not_a_pdf : JsError :=
  mkJsError ClsError (lit "cannot recognize version marker").

Definition no_text : JsError :=
  mkJsError ClsError (lit "cannot extract text").

Definition walk_broke : JsError :=
  mkJsError ClsError (lit "walk interrupted").

(** A page whose text cannot be extracted. *)
Definition mute_page : Page :=
  {| page_asText := Throw no_text;
     page_toPixmap := fun _ => Ok (Sample.pixmap 1275 1650);
     page_toStructuredText :=
       Ok {| imageBlocks := []; walkError := None |} |}.

(** Three pages, the second of which gives no text. *)
Definition mute_document : Document :=
  {| countPages := 3;
     loadPage := fun i =>
       match i with
       | 0 => Ok Sample.page1
       | 1 => Ok mute_page
       | 2 => Ok Sample.page2
       | _ => Throw (mkJsError ClsError (lit "page out of range"))
       end |}.

(** Page 1 of the sample, with a walk that throws after its blocks. *)
Definition interrupted_page : Page :=
  {| page_asText := page_asText Sample.page1;
     page_toPixmap := page_toPixmap Sample.page1;
     page_toStructuredText :=
       Ok {| imageBlocks := Sample.blocks1; walkError := Some walk_broke |} |}.

Definition interrupted_document : Document :=
  {| countPages := 2;
     loadPage := fun i =>
       match i with
       | 0 => Ok interrupted_page
       | 1 => Ok Sample.page2
       | _ => Throw (mkJsError ClsError (lit "page out of range"))
       end |}.

Definition disk_png : Options :=
  {| opt_outputDir := JString (lit "/out"); opt_format := Some (lit "png");
     opt_base64 := Some false; opt_dpi := None |}.

Definition all_args : Server.AllArgs :=
  {| Server.aa_pdfPath := Sample.report_pdf;
     Server.aa_outputDir := Some (lit "/out");
     Server.aa_format := Server.Jpeg;
     Server.aa_dpi := 150%float |}.

Definition images_args : Server.ImagesArgs :=
  {| Server.ia_pdfPath := Sample.report_pdf;
     Server.ia_outputDir := None;
     Server.ia_format := Server.Jpeg;
     Server.ia_returnBase64 := true;
     Server.ia_dpi := 150%float |}.

(** What [extractImages] returns to disk in the sample world, and in the
    world of the interrupted walk. *)
Definition disk_result : ImageResult :=
  Eval vm_compute in
    Sample.value_or {| ir_file := []; ir_totalPages := 0;
                       ir_totalImages := 0; ir_images := [] |}
      (outcome (extractImages (Sample.world Sample.parsed_ok)
                  Sample.report_pdf disk_png)).

Definition interrupted_result : ImageResult :=
  Eval vm_compute in
    Sample.value_or {| ir_file := []; ir_totalPages := 0;
                       ir_totalImages := 0; ir_images := [] |}
      (outcome (extractImages (world_of (Ok interrupted_document))
                  Sample.report_pdf disk_png)).

(** The response of [extract_pdf_images] to [images_args] in the sample
    world, and its first image block. *)
Definition images_response : Server.ToolResult :=
  Eval vm_compute in
    Sample.value_or {| Server.content := []; Server.isError := true |}
      (outcome (Server.handle (Sample.world Sample.parsed_ok)
                  (Server.Call_extract_pdf_images images_args))).

Definition first_block : jsstring * option jsstring :=
  Eval vm_compute in
    hd ([], None) (image_blocks (Server.content images_response)).

End Cases.

(* ===================================================================== *)
(** ** How computations compose *)
(* ===================================================================== *)

Section Computations.

Context {A B : Type}.

Lemma outcome_bind (m : M A) (f : A -> M B) :
  outcome (bind m f)
  = match outcome m with
    | Ok a => outcome (f a)
    | Throw e => Throw e
    end.
Proof.
  destruct m as [t [a | e]]; simpl; [destruct (f a) |]; reflexivity.
Qed.

Lemma trace_bind (m : M A) (f : A -> M B) :
  trace_of (bind m f)
  = trace_of m ++ match outcome m with
                  | Ok a => trace_of (f a)
                  | Throw _ => []
                  end.
Proof.
  destruct m as [t [a | e]]; simpl.
  - destruct (f a); reflexivity.
  - symmetry; apply app_nil_r.
Qed.

Lemma outcome_bind_ok (m : M A) (f : A -> M B) (a : A) :
  outcome m = Ok a -> outcome (bind m f) = outcome (f a).
Proof. intros H; rewrite outcome_bind, H; reflexivity. Qed.

Lemma outcome_bind_inv (m : M A) (f : A -> M B) (b : B) :
  outcome (bind m f) = Ok b ->
  exists a, outcome m = Ok a /\ outcome (f a) = Ok b.
Proof.
  rewrite outcome_bind; destruct (outcome m) as [a | e]; intros H.
  - exists a; split; [reflexivity | exact H].
  - discriminate H.
Qed.

End Computations.

Lemma outcome_try_catch {A} (m : M A) (h : JsError -> M A) :
  outcome (try_catch m h)
  = match outcome m with
    | Ok a => Ok a
    | Throw e => outcome (h e)
    end.
Proof.
  destruct m as [t [a | e]]; simpl; [| destruct (h e)]; reflexivity.
Qed.

Lemma trace_try_catch {A} (m : M A) (h : JsError -> M A) :
  trace_of (try_catch m h)
  = trace_of m ++ match outcome m with
                  | Ok _ => []
                  | Throw e => trace_of (h e)
                  end.
Proof.
  destruct m as [t [a | e]]; simpl.
  - symmetry; apply app_nil_r.
  - destruct (h e); reflexivity.
Qed.

(* ===================================================================== *)
(** ** [trim] *)
(* ===================================================================== *)

Lemma trimStart_clean (s : jsstring) : starts_clean (trimStart s).
Proof.
  induction s as [| c r IH]; simpl; [exact I |].
  destruct (isWhiteSpace c) eqn:E; [exact IH | exact E].
Qed.

Lemma trimStart_suffix (s : jsstring) :
  exists ws, s = ws ++ trimStart s.
Proof.
  induction s as [| c r [ws IH]]; simpl.
  - exists []; reflexivity.
  - destruct (isWhiteSpace c).
    + exists (c :: ws); simpl; f_equal; exact IH.
    + exists []; reflexivity.
Qed.

Lemma starts_clean_prefix (a b : jsstring) :
  starts_clean (a ++ b) -> starts_clean a.
Proof. destruct a; simpl; auto. Qed.

Lemma trimEnd_keeps_start (s : jsstring) :
  starts_clean s -> starts_clean (trimEnd s).
Proof.
  intros H; unfold trimEnd.
  destruct (trimStart_suffix (rev s)) as [ws E].
  apply (f_equal (@rev N)) in E.
  rewrite rev_involutive, rev_app_distr in E.
  rewrite E in H; apply starts_clean_prefix in H; exact H.
Qed.

Lemma trim_trimmed (s : jsstring) : trimmed (trim s).
Proof.
  unfold trimmed, trim; split.
  - apply trimEnd_keeps_start, trimStart_clean.
  - unfold trimEnd; rewrite rev_involutive; apply trimStart_clean.
Qed.

(* ===================================================================== *)
(** ** [extractText] *)
(* ===================================================================== *)

Section TextPages.

Variable doc : Document.

Lemma text_page_ok (acc : list PageText) (i : nat) (pg : Page) (t : jsstring) :
  loadPage doc i = Ok pg -> page_asText pg = Ok t ->
  outcome (text_page doc acc i)
  = Ok (acc ++ [ {| pt_page := i + 1; pt_text := trim t |} ]).
Proof.
  intros Hl Ht; unfold text_page, doc_loadPage, lift, tell; simpl.
  rewrite Hl; simpl; rewrite Ht; reflexivity.
Qed.

(** The page loop, from index [a] on, when every page it meets reads. *)
Lemma text_loop (n : nat) :
  forall (a : nat) (acc : list PageText),
    (forall i, a <= i < a + n -> page_reads doc i) ->
    exists pages,
      outcome (foldM (text_page doc) (seq a n) acc) = Ok (acc ++ pages)
      /\ map pt_page pages = seq (a + 1) n
      /\ forall k pt, nth_error pages k = Some pt ->
           exists pg t, loadPage doc (a + k) = Ok pg
                        /\ page_asText pg = Ok t
                        /\ pt_text pt = trim t.
Proof.
  induction n as [| n IH]; intros a acc H.
  - exists []; simpl; rewrite app_nil_r; repeat split.
    intros [| k] pt E; discriminate E.
  - destruct (H a ltac:(lia)) as (pg & t & Hl & Ht).
    destruct (IH (S a) (acc ++ [ {| pt_page := a + 1; pt_text := trim t |} ]))
      as (pages & Ho & Hp & Hk).
    { intros i Hi; apply H; lia. }
    exists ({| pt_page := a + 1; pt_text := trim t |} :: pages).
    repeat split.
    + simpl seq; simpl foldM.
      rewrite (outcome_bind_ok _ _ (text_page_ok acc a Hl Ht)), Ho.
      rewrite <- app_assoc; reflexivity.
    + simpl; f_equal. rewrite Hp; f_equal; lia.
    + intros [| k] pt E; simpl in E.
      * injection E as <-. exists pg, t.
        rewrite Nat.add_0_r; repeat split; assumption.
      * destruct (Hk k pt E) as (pg' & t' & Hl' & Ht' & Hx).
        exists pg', t'. replace (a + S k) with (S a + k) by lia.
        repeat split; assumption.
Qed.

End TextPages.

Lemma extractText_begin_ok (w : World) (p : jsstring) (buf : bytes) :
  readable w p buf ->
  outcome (extractText_begin w p) = Ok (path_resolve w p, buf).
Proof.
  intros [He Hr]; unfold extractText_begin, fs_existsSync, fs_readFileSync.
  simpl; rewrite He; simpl; rewrite Hr; reflexivity.
Qed.

Lemma extractText_rest_ok (w : World) (abs : jsstring) (buf : bytes)
    (meta : Info) (doc : Document) :
  openDocument w buf = Ok doc ->
  (forall i, i < countPages doc -> page_reads doc i) ->
  exists pages,
    outcome (extractText_rest w abs buf meta)
    = Ok {| tr_file := abs;
            tr_totalPages := countPages doc;
            tr_metadata :=
              {| md_title := or_null (Title meta);
                 md_author := or_null (Author meta);
                 md_subject := or_null (Subject meta);
                 md_creator := or_null (Creator meta);
                 md_producer := or_null (Producer meta);
                 md_creationDate := or_null (CreationDate meta);
                 md_modDate := or_null (ModDate meta) |};
            tr_pages := pages |}
    /\ map pt_page pages = seq 1 (countPages doc)
    /\ forall k pt, nth_error pages k = Some pt ->
         exists pg t, loadPage doc k = Ok pg
                      /\ page_asText pg = Ok t
                      /\ pt_text pt = trim t.
Proof.
  intros Ho Hp.
  destruct (@text_loop doc (countPages doc) 0 [])
    as (pages & Hf & Hm & Hk).
  { intros i Hi; apply Hp; lia. }
  exists pages; repeat split; [| exact Hm | exact Hk].
  unfold extractText_rest, mupdf_openDocument; simpl.
  rewrite Ho; simpl.
  destruct (foldM (text_page doc) (seq 0 (countPages doc)) [])
    as [t [x | e]]; simpl in *; [| discriminate Hf].
  injection Hf as ->; reflexivity.
Qed.

(** C1. For a PDF that is there, opens, and whose pages all load and give
    their text, [extractText] returns; its [pages] has one entry per page,
    numbered 1, 2, ..., [totalPages] in that order, and entry [k] holds the
    text of page [k], trimmed: no white space is left at either end. *)
Theorem extractText_one_entry_per_page
    (w : World) (p : jsstring) (buf : bytes) (doc : Document) :
  readable w p buf ->
  openDocument w buf = Ok doc ->
  (forall i, i < countPages doc -> page_reads doc i) ->
  exists r,
    outcome (extractText w p) = Ok r
    /\ tr_totalPages r = countPages doc
    /\ List.length (tr_pages r) = tr_totalPages r
    /\ map pt_page (tr_pages r) = seq 1 (tr_totalPages r)
    /\ forall k pt, nth_error (tr_pages r) k = Some pt ->
         pt_page pt = k + 1
         /\ trimmed (pt_text pt)
         /\ exists pg t, loadPage doc k = Ok pg
                         /\ page_asText pg = Ok t
                         /\ pt_text pt = trim t.
Proof.
  intros Hr Ho Hp.
  destruct (extractText_rest_ok w (path_resolve w p) buf
              (metadata_after (PDFParse w buf)) Ho Hp)
    as (pages & Hres & Hm & Hk).
  eexists; split.
  { unfold extractText.
    rewrite (outcome_bind_ok _ _ (extractText_begin_ok Hr)); exact Hres. }
  simpl. split; [reflexivity |].
  split; [rewrite <- (length_map pt_page), Hm; apply length_seq |].
  split; [exact Hm |].
  intros k pt H; split; [| split].
  - apply (f_equal (fun l => nth_error l k)) in Hm.
    rewrite nth_error_map, H in Hm; simpl in Hm.
    assert (Hlt : k < countPages doc).
    { rewrite <- (length_seq (countPages doc) 1).
      apply nth_error_Some; rewrite <- Hm; discriminate. }
    rewrite (nth_error_nth' _ 0) in Hm by (rewrite length_seq; exact Hlt).
    rewrite seq_nth in Hm by exact Hlt.
    injection Hm as ->; lia.
  - destruct (Hk k pt H) as (pg & t & _ & _ & ->); apply trim_trimmed.
  - exact (Hk k pt H).
Qed.

Lemma extractText_one_entry_per_page_witness :
  exists r,
    outcome (extractText (Sample.world Sample.parsed_ok) Sample.report_pdf)
    = Ok r
    /\ tr_totalPages r = 2
    /\ List.length (tr_pages r) = tr_totalPages r
    /\ map pt_page (tr_pages r) = seq 1 (tr_totalPages r)
    /\ forall k pt, nth_error (tr_pages r) k = Some pt ->
         pt_page pt = k + 1
         /\ trimmed (pt_text pt)
         /\ exists pg t, loadPage Sample.document k = Ok pg
                         /\ page_asText pg = Ok t
                         /\ pt_text pt = trim t.
Proof.
  apply (@extractText_one_entry_per_page
           (Sample.world Sample.parsed_ok) Sample.report_pdf
           Sample.pdf_bytes Sample.document).
  - split; reflexivity.
  - reflexivity.
  - intros [| [| i]] Hi.
    + exists Sample.page1; eexists; split; reflexivity.
    + exists Sample.page2; eexists; split; reflexivity.
    + exfalso; simpl in Hi; lia.
Defined.

(** C3. When the resolved path names no file, [extractText] and
    [extractImages] both stop with the FileNotFound condition, and the only
    thing either has done by then is the existence test: no byte of the
    file was read, the metadata parser was not called, no document was
    opened. *)
Theorem missing_file_fails_before_any_adapter_call
    (w : World) (p : jsstring) (o : Options) :
  existsSync w (path_resolve w p) = false ->
  extractText w p
  = ([FsExists (path_resolve w p)], Throw (FileNotFound (path_resolve w p)))
  /\ extractImages w p o
     = ([FsExists (path_resolve w p)], Throw (FileNotFound (path_resolve w p)))
  /\ filter is_adapter_call (trace_of (extractText w p)) = []
  /\ filter is_adapter_call (trace_of (extractImages w p o)) = [].
Proof.
  intros H.
  assert (Ht : extractText w p
               = ([FsExists (path_resolve w p)],
                  Throw (FileNotFound (path_resolve w p)))).
  { unfold extractText, extractText_begin, fs_existsSync; simpl.
    rewrite H; reflexivity. }
  assert (Hi : extractImages w p o
               = ([FsExists (path_resolve w p)],
                  Throw (FileNotFound (path_resolve w p)))).
  { unfold extractImages, fs_existsSync; simpl.
    rewrite H; reflexivity. }
  rewrite Ht, Hi; repeat split.
Qed.

Lemma missing_file_fails_before_any_adapter_call_witness :
  extractText (Sample.world Sample.parsed_ok) Sample.missing_pdf
  = ([FsExists Sample.missing_pdf], Throw (FileNotFound Sample.missing_pdf))
  /\ extractImages (Sample.world Sample.parsed_ok) Sample.missing_pdf
       no_options
     = ([FsExists Sample.missing_pdf],
        Throw (FileNotFound Sample.missing_pdf))
  /\ filter is_adapter_call
       (trace_of (extractText (Sample.world Sample.parsed_ok)
                    Sample.missing_pdf)) = []
  /\ filter is_adapter_call
       (trace_of (extractImages (Sample.world Sample.parsed_ok)
                    Sample.missing_pdf no_options)) = [].
Proof.
  apply (@missing_file_fails_before_any_adapter_call
           (Sample.world Sample.parsed_ok) Sample.missing_pdf no_options).
  reflexivity.
Defined.

(** C4. When the metadata parser fails on a PDF that is otherwise fine,
    [extractText] still returns, and every field of the metadata it returns
    is null. *)
Theorem metadata_failure_gives_null_metadata
    (w : World) (p : jsstring) (buf : bytes) (doc : Document) :
  readable w p buf ->
  openDocument w buf = Ok doc ->
  (forall i, i < countPages doc -> page_reads doc i) ->
  metadata_fails (PDFParse w buf) ->
  exists r,
    outcome (extractText w p) = Ok r
    /\ tr_metadata r = all_null
    /\ tr_totalPages r = countPages doc.
Proof.
  intros Hr Ho Hp Hm.
  destruct (extractText_rest_ok w (path_resolve w p) buf
              (metadata_after (PDFParse w buf)) Ho Hp)
    as (pages & Hres & _).
  eexists; split.
  { unfold extractText.
    rewrite (outcome_bind_ok _ _ (extractText_begin_ok Hr)); exact Hres. }
  simpl; split; [| reflexivity].
  destruct (PDFParse w buf); simpl in *; [reflexivity | reflexivity |].
  contradiction.
Qed.

Lemma metadata_failure_gives_null_metadata_witness :
  exists r,
    outcome (extractText (Sample.world Sample.parse_fails) Sample.report_pdf)
    = Ok r
    /\ tr_metadata r = all_null
    /\ tr_totalPages r = 2.
Proof.
  apply (@metadata_failure_gives_null_metadata
           (Sample.world Sample.parse_fails) Sample.report_pdf
           Sample.pdf_bytes Sample.document).
  - split; reflexivity.
  - reflexivity.
  - intros [| [| i]] Hi.
    + exists Sample.page1; eexists; split; reflexivity.
    + exists Sample.page2; eexists; split; reflexivity.
    + exfalso; simpl in Hi; lia.
  - exact I.
Defined.

(* ===================================================================== *)
(** ** [extractAll] *)
(* ===================================================================== *)

Lemma extractAll_outcome (w : World) (p : jsstring) (o : Options) :
  outcome (extractAll w p o)
  = match outcome (extractText w p), outcome (extractImages w p o) with
    | Ok tr, Ok ir => Ok (combine_pages tr ir)
    | Throw e, Ok _ => Throw e
    | Ok _, Throw e => Throw e
    | Throw e, Throw e' =>
        match outcome (extractText_begin w p) with
        | Throw _ => Throw e
        | Ok ab =>
            match PDFParse w (snd ab) with
            | MetaThrows _ => Throw e
            | _ => Throw e'
            end
        end
    end.
Proof.
  unfold extractAll, extractText.
  destruct (extractText_begin w p) as [t1 [ab | e1]]; simpl;
    destruct (extractImages w p o) as [ti [ir | ei]]; simpl;
    try reflexivity;
    destruct (extractText_rest w (fst ab) (snd ab)
                (metadata_after (PDFParse w (snd ab)))) as [t2 [tr | et]];
    destruct (PDFParse w (snd ab)); reflexivity.
Qed.

(** C6. When both extractions succeed, so does [extractAll]; its [pages]
    follows the pages of the text result one for one and in the same order,
    each entry keeping the page's number and text, and the [images] of an
    entry are the artifacts of the image result that carry that page's
    number: all of them, nothing else, in the image result's order. *)
Theorem extractAll_groups_images_by_page
    (w : World) (p : jsstring) (o : Options)
    (tr : TextResult) (ir : ImageResult) :
  outcome (extractText w p) = Ok tr ->
  outcome (extractImages w p o) = Ok ir ->
  exists r,
    outcome (extractAll w p o) = Ok r
    /\ Forall2 (fun cp pt =>
                  cp_page cp = pt_page pt
                  /\ cp_text cp = pt_text pt
                  /\ cp_images cp = images_of_page ir (pt_page pt))
               (ar_pages r) (tr_pages tr)
    /\ forall cp, In cp (ar_pages r) ->
         forall img, In img (cp_images cp)
                     <-> In img (ir_images ir) /\ img_page img = cp_page cp.
Proof.
  intros Ht Hi. exists (combine_pages tr ir).
  split; [rewrite extractAll_outcome, Ht, Hi; reflexivity |].
  unfold combine_pages; simpl; split.
  - induction (tr_pages tr) as [| pt l IH]; simpl; constructor.
    + repeat split.
    + exact IH.
  - intros cp Hin img.
    apply in_map_iff in Hin; destruct Hin as (pt & <- & _); simpl.
    rewrite filter_In, Nat.eqb_eq; reflexivity.
Qed.

Lemma extractAll_groups_images_by_page_witness :
  exists r,
    outcome (extractAll (Sample.world Sample.parsed_ok)
               Sample.report_pdf Sample.inline_jpeg) = Ok r
    /\ Forall2 (fun cp pt =>
                  cp_page cp = pt_page pt
                  /\ cp_text cp = pt_text pt
                  /\ cp_images cp
                     = images_of_page Sample.inline_result (pt_page pt))
               (ar_pages r) (tr_pages Sample.text_result)
    /\ forall cp, In cp (ar_pages r) ->
         forall img, In img (cp_images cp)
                     <-> In img (ir_images Sample.inline_result)
                         /\ img_page img = cp_page cp.
Proof.
  apply (@extractAll_groups_images_by_page
           (Sample.world Sample.parsed_ok) Sample.report_pdf
           Sample.inline_jpeg Sample.text_result Sample.inline_result);
    reflexivity.
Defined.

(* ===================================================================== *)
(** ** The tool boundary *)
(* ===================================================================== *)

(** C7. Every tool call returns a response.  When the extraction behind it
    raises a condition, the response is the single text block
    ["Error: " + message], flagged as an error; when it does not, the
    response carries no error flag. *)
Theorem tool_call_turns_errors_into_error_block
    (w : World) (c : Server.ToolCall) :
  match core_error w c with
  | Some e =>
      outcome (Server.handle w c)
      = Ok {| Server.content :=
                [Server.TextContent (lit "Error: " +++ message e)];
              Server.isError := true |}
  | None =>
      exists res,
        outcome (Server.handle w c) = Ok res
        /\ Server.isError res = false
  end.
Proof.
  destruct c as [p | a | a]; unfold core_error, Server.handle.
  - unfold Server.extract_pdf_text.
    rewrite outcome_try_catch, outcome_bind.
    destruct (outcome (extractText w p)) as [r | e]; simpl;
      [eexists; split; reflexivity | reflexivity].
  - unfold Server.extract_pdf_images.
    rewrite outcome_try_catch, outcome_bind.
    destruct (outcome (extractImages w _ _)) as [r | e]; simpl;
      [eexists; split; reflexivity | reflexivity].
  - unfold Server.extract_pdf_all.
    rewrite outcome_try_catch, outcome_bind.
    destruct (outcome (extractAll w _ _)) as [r | e]; simpl;
      [eexists; split; reflexivity | reflexivity].
Qed.

Lemma tool_call_turns_errors_into_error_block_witness :
  outcome (Server.handle (Sample.world Sample.parsed_ok)
             (Server.Call_extract_pdf_text Sample.missing_pdf))
  = Ok {| Server.content :=
            [Server.TextContent
               (lit "Error: PDF file not found: /docs/missing.pdf")];
          Server.isError := true |}.
Proof.
  exact (@tool_call_turns_errors_into_error_block
           (Sample.world Sample.parsed_ok)
           (Server.Call_extract_pdf_text Sample.missing_pdf)).
Defined.

(* ===================================================================== *)
(** ** [extractEmbeddedImages] *)
(* ===================================================================== *)

Lemma outcome_lift {A} (r : result A) : outcome (lift r) = r.
Proof. reflexivity. Qed.

Lemma outcome_doc_loadPage (doc : Document) (i : nat) :
  outcome (doc_loadPage doc i) = loadPage doc i.
Proof. unfold doc_loadPage; simpl; destruct (loadPage doc i); reflexivity. Qed.

Lemma encode_lift (format : jsstring) (px : Pixmap) :
  encode format px = lift (encoded format px).
Proof. unfold encode, encoded; destruct (is_jpeg format); reflexivity. Qed.

Section Embedded.

Variable w : World.
Variable pageIndex : nat.
Variable pdfBaseName : jsstring.
Variable options : EmbedOptions.

Let step := onImageBlock w pageIndex pdfBaseName options.
Let format := eo_format options.
Let inline := eo_returnBase64 options.

(** One call of the callback: it never throws; it adds one artifact, or
    none. *)
Lemma onImageBlock_adds_one_or_none
    (images : list ImageInfo) (k : nat) (b : ImageBlock) :
  exists oe : option ImageInfo,
    outcome (step (images, k) b)
    = Ok (match oe with
          | Some e => (images ++ [e], k + 1)
          | None => (images, k)
          end)
    /\ (forall e, oe = Some e ->
          img_page e = pageIndex + 1
          /\ img_imageIndex e = k
          /\ img_type e = Some (lit "embedded")
          /\ delivered inline format e
          /\ made_from e b
          /\ decodes format b = true)
    /\ (oe = None -> emits w (eo_outputDir options) inline ->
        decodes format b = false).
Proof.
  unfold step, onImageBlock, decodes, format, inline, delivered, emits.
  rewrite outcome_try_catch, outcome_bind, outcome_lift.
  destruct (image_toPixmap b) as [px | e0] eqn:Hpx;
    [| exists None; repeat split; intros; discriminate].
  rewrite outcome_bind, encode_lift, outcome_lift.
  destruct (encoded (eo_format options) px) as [buf | e0] eqn:Hbuf;
    [| exists None; repeat split; intros; discriminate].
  rewrite outcome_bind.
  destruct (eo_returnBase64 options) eqn:Hinl.
  - eexists (Some _); split; [reflexivity |]; split; [| discriminate].
    intros e [= <-]; simpl; repeat split.
    + exists px, buf; split; [exact Hbuf | reflexivity].
    + exists px; repeat split; exact Hpx.
  - destruct (eo_outputDir options) as [| | d] eqn:Hdir; simpl.
    + exists None; split; [reflexivity |]; split; [discriminate |].
      intros _ [Hc | (d & Hc & _)]; discriminate Hc.
    + exists None; split; [reflexivity |]; split; [discriminate |].
      intros _ [Hc | (d & Hc & _)]; discriminate Hc.
    + unfold fs_writeFileSync.
      match goal with
      | |- context [writeFileSync w ?f ?data] =>
          destruct (writeFileSync w f data) as [e0 |] eqn:Hw
      end; simpl.
      * exists None; split; [reflexivity |]; split; [discriminate |].
        intros _ [Hc | (d' & _ & Hc)]; [discriminate Hc |].
        rewrite Hc in Hw; discriminate Hw.
      * eexists (Some _); split; [reflexivity |]; split; [| discriminate].
        intros e [= <-]; simpl; repeat split.
        -- eexists; reflexivity.
        -- exists px; repeat split; exact Hpx.
Qed.

(** The walk over the blocks [bs], entered with [images] and index [k]. *)
Lemma embedded_loop (bs : list ImageBlock) :
  forall (images : list ImageInfo) (k : nat),
  exists es,
    outcome (foldM step bs (images, k))
    = Ok (images ++ es, k + List.length es)
    /\ (forall j e, nth_error es j = Some e ->
          img_page e = pageIndex + 1
          /\ img_imageIndex e = k + j
          /\ img_type e = Some (lit "embedded")
          /\ delivered inline format e)
    /\ (emits w (eo_outputDir options) inline ->
        Forall2 made_from es (filter (decodes format) bs)).
Proof.
  induction bs as [| b bs IH]; intros images k.
  - exists []; simpl; rewrite app_nil_r, Nat.add_0_r.
    split; [reflexivity | split].
    + intros [| j] e E; discriminate E.
    + intros _; constructor.
  - destruct (onImageBlock_adds_one_or_none images k b)
      as ([e |] & Hstep & Hsome & Hnone).
    + destruct (Hsome e eq_refl) as (Hp & Hi & Ht & Hd & Hm & Hdec).
      destruct (IH (images ++ [e]) (k + 1)) as (es & Ho & Hn & Hf).
      exists (e :: es); split; [| split].
      * simpl foldM; rewrite (outcome_bind_ok _ _ Hstep), Ho.
        rewrite <- app_assoc; simpl; do 2 f_equal; lia.
      * intros [| j] e' E; simpl in E.
        -- injection E as <-.
           split; [exact Hp | split; [lia | split; assumption]].
        -- destruct (Hn j e' E) as (Hp' & Hi' & Ht' & Hd').
           split; [exact Hp' | split; [lia | split; assumption]].
      * intros He; simpl; rewrite Hdec; constructor; [exact Hm | exact (Hf He)].
    + destruct (IH images k) as (es & Ho & Hn & Hf).
      exists es; split; [| split].
      * simpl foldM; rewrite (outcome_bind_ok _ _ Hstep); exact Ho.
      * exact Hn.
      * intros He; simpl; rewrite (Hnone eq_refl He); exact (Hf He).
Qed.

End Embedded.

Lemma extractEmbeddedImages_run
    (w : World) (page : Page) (i : nat) (base : jsstring)
    (eo : EmbedOptions) (es : list ImageInfo) :
  outcome (extractEmbeddedImages w page i base eo) = Ok es ->
  is_embedded_run i es
  /\ Forall (delivered (eo_returnBase64 eo) (eo_format eo)) es
  /\ forall bs,
       page_toStructuredText page
       = Ok {| imageBlocks := bs; walkError := None |} ->
       emits w (eo_outputDir eo) (eo_returnBase64 eo) ->
       Forall2 made_from es (filter (decodes (eo_format eo)) bs).
Proof.
  unfold extractEmbeddedImages.
  rewrite outcome_bind, outcome_lift.
  destruct (page_toStructuredText page) as [st | e0]; [| discriminate].
  rewrite outcome_bind.
  destruct (embedded_loop w i base eo (imageBlocks st) [] 1)
    as (es' & Ho & Hn & Hf).
  rewrite Ho; simpl fst.
  destruct (walkError st) eqn:Hw; simpl; [discriminate |].
  intros [= <-]; split; [| split].
  - intros j e E; destruct (Hn j e E) as (Hp & Hi & Ht & _).
    split; [exact Hp | split; [lia | exact Ht]].
  - apply Forall_forall; intros e Hin.
    destruct (In_nth_error _ _ Hin) as (j & E).
    apply (Hn j e E).
  - intros bs [= Hst] He; subst st; exact (Hf He).
Qed.

Lemma extractEmbeddedImages_returns
    (w : World) (page : Page) (i : nat) (base : jsstring)
    (eo : EmbedOptions) (bs : list ImageBlock) :
  page_toStructuredText page
  = Ok {| imageBlocks := bs; walkError := None |} ->
  exists es, outcome (extractEmbeddedImages w page i base eo) = Ok es.
Proof.
  intros Hs; unfold extractEmbeddedImages.
  rewrite outcome_bind, outcome_lift, Hs, outcome_bind; simpl imageBlocks.
  destruct (embedded_loop w i base eo bs [] 1) as (es & Ho & _).
  rewrite Ho; simpl; eexists; reflexivity.
Qed.

(* ===================================================================== *)
(** ** [extractImages] *)
(* ===================================================================== *)

Section ImagePages.

Variable w : World.
Variable doc : Document.
Variable outputDir : JsVal.
Variable format : jsstring.
Variable returnBase64 : bool.
Variable scale : JsNumber.
Variable pdfBaseName : jsstring.

Let body :=
  image_page w doc outputDir format returnBase64 scale pdfBaseName.

(** One turn of the page loop, when it does not throw, adds the group of
    its page. *)
Lemma image_page_adds_group
    (images images' : list ImageInfo) (i : nat) :
  outcome (body images i) = Ok images' ->
  exists g,
    images' = images ++ fst g :: snd g
    /\ group_of_page w doc outputDir format returnBase64 i g.
Proof.
  unfold body, image_page.
  rewrite outcome_bind, outcome_doc_loadPage.
  destruct (loadPage doc i) as [pg | e0] eqn:Hl; [| discriminate].
  rewrite outcome_bind, outcome_lift.
  destruct (page_toPixmap pg scale) as [px | e0] eqn:Hpx; [| discriminate].
  rewrite outcome_bind, encode_lift, outcome_lift.
  destruct (encoded format px) as [buf | e0] eqn:Hbuf; [| discriminate].
  rewrite outcome_bind.
  match goal with
  | |- match outcome ?m with _ => _ end = _ -> _ =>
      destruct (outcome m) as [info | e0] eqn:Hinfo; [| discriminate]
  end.
  assert (Hr : is_render i info /\ delivered returnBase64 format info).
  { unfold is_render, delivered. destruct returnBase64.
    - injection Hinfo as <-; simpl; repeat split.
      exists px, buf; split; [exact Hbuf | reflexivity].
    - destruct outputDir as [| | d]; simpl in Hinfo; try discriminate Hinfo.
      unfold fs_writeFileSync in Hinfo.
      match type of Hinfo with
      | context [writeFileSync w ?f ?data] =>
          destruct (writeFileSync w f data)
      end; simpl in Hinfo; [discriminate Hinfo |].
      injection Hinfo as <-; simpl; repeat split.
      eexists; reflexivity. }
  destruct Hr as [Hr Hd].
  rewrite outcome_try_catch, outcome_bind.
  match goal with
  | |- context [outcome (extractEmbeddedImages w pg i pdfBaseName ?eo)] =>
      destruct (outcome (extractEmbeddedImages w pg i pdfBaseName eo))
        as [es | e0] eqn:He
  end; simpl; intros [= <-].
  - destruct (extractEmbeddedImages_run _ _ _ _ _ He) as (Hrun & Hdel & Hm).
    simpl in Hdel, Hm.
    exists (info, es); simpl; split; [rewrite <- app_assoc; reflexivity |].
    unfold group_of_page; simpl.
    split; [exact Hr | split; [exact Hrun | split; [exact Hd |]]].
    split; [exact Hdel |].
    intros bs (pg' & Hl' & Hs) Hemit.
    rewrite Hl in Hl'; injection Hl' as <-.
    exact (Hm bs Hs Hemit).
  - exists (info, []); simpl; split; [reflexivity |].
    unfold group_of_page; simpl.
    split; [exact Hr | split; [| split; [exact Hd | split]]].
    + intros [| j] e E; discriminate E.
    + constructor.
    + intros bs (pg' & Hl' & Hs) _.
      rewrite Hl in Hl'; injection Hl' as <-.
      destruct (extractEmbeddedImages_returns w pg i pdfBaseName
                  {| eo_outputDir := outputDir; eo_format := format;
                     eo_returnBase64 := returnBase64 |} Hs) as (es & Hes).
      rewrite Hes in He; discriminate He.
Qed.

(** One turn of the page loop goes through when the page renders and the
    artifact can be handed over. *)
Lemma image_page_returns (images : list ImageInfo) (i : nat) :
  (exists pg px buf,
     loadPage doc i = Ok pg /\ page_toPixmap pg scale = Ok px
     /\ encoded format px = Ok buf) ->
  emits w outputDir returnBase64 ->
  exists images', outcome (body images i) = Ok images'.
Proof.
  intros (pg & px & buf & Hl & Hpx & Hbuf) Hemit.
  unfold body, image_page.
  rewrite outcome_bind, outcome_doc_loadPage, Hl.
  rewrite outcome_bind, outcome_lift, Hpx.
  rewrite outcome_bind, encode_lift, outcome_lift, Hbuf.
  rewrite outcome_bind.
  match goal with
  | |- exists _, match outcome ?m with _ => _ end = _ =>
      assert (Hinfo : exists info, outcome m = Ok info)
  end.
  { destruct Hemit as [-> | (d & -> & Hw)]; [eexists; reflexivity |].
    destruct returnBase64; [eexists; reflexivity |].
    unfold join_path, fs_writeFileSync; simpl.
    rewrite Hw; simpl; eexists; reflexivity. }
  destruct Hinfo as (info & ->).
  rewrite outcome_try_catch, outcome_bind.
  match goal with
  | |- context [outcome (extractEmbeddedImages w pg i pdfBaseName ?eo)] =>
      destruct (outcome (extractEmbeddedImages w pg i pdfBaseName eo))
  end; simpl; eexists; reflexivity.
Qed.

(** The page loop from index [a] on, when it does not throw. *)
Lemma image_loop_groups (n : nat) :
  forall (a : nat) (images images' : list ImageInfo),
    outcome (foldM body (seq a n) images) = Ok images' ->
    exists groups,
      images' = images ++ flatten groups
      /\ List.length groups = n
      /\ forall k g, nth_error groups k = Some g ->
           group_of_page w doc outputDir format returnBase64 (a + k) g.
Proof.
  induction n as [| n IH]; intros a images images' H.
  - injection H as <-. exists []; simpl; rewrite app_nil_r.
    split; [reflexivity | split; [reflexivity |]].
    intros [| k] g E; discriminate E.
  - simpl seq in H; simpl foldM in H.
    apply outcome_bind_inv in H; destruct H as (mid & H1 & H2).
    apply image_page_adds_group in H1; destruct H1 as (g & -> & Hg).
    apply IH in H2; destruct H2 as (groups & -> & Hlen & Hk).
    exists (g :: groups); split; [| split].
    + unfold flatten; simpl; rewrite <- app_assoc; reflexivity.
    + simpl; f_equal; exact Hlen.
    + intros [| k] g' E; simpl in E.
      * injection E as <-; rewrite Nat.add_0_r; exact Hg.
      * replace (a + S k) with (S a + k) by lia; exact (Hk k g' E).
Qed.

Lemma image_loop_returns (n : nat) :
  forall (a : nat) (images : list ImageInfo),
    (forall i, a <= i < a + n ->
       exists pg px buf,
         loadPage doc i = Ok pg /\ page_toPixmap pg scale = Ok px
         /\ encoded format px = Ok buf) ->
    emits w outputDir returnBase64 ->
    exists images', outcome (foldM body (seq a n) images) = Ok images'.
Proof.
  induction n as [| n IH]; intros a images Hp Hemit.
  - eexists; reflexivity.
  - destruct (@image_page_returns images a (Hp a ltac:(lia)) Hemit)
      as (mid & Hmid).
    destruct (IH (S a) mid) as (images' & H'); [| exact Hemit |].
    { intros i Hi; apply Hp; lia. }
    exists images'; simpl seq; simpl foldM.
    rewrite (outcome_bind_ok _ _ Hmid); exact H'.
Qed.

End ImagePages.

Lemma outcome_fs_existsSync (w : World) (p : jsstring) :
  outcome (fs_existsSync w p) = Ok (existsSync w p).
Proof. reflexivity. Qed.

Lemma outcome_fs_readFileSync (w : World) (p : jsstring) :
  outcome (fs_readFileSync w p) = readFileSync w p.
Proof.
  unfold fs_readFileSync; simpl; destruct (readFileSync w p); reflexivity.
Qed.

Lemma outcome_mupdf_openDocument (w : World) (data : bytes) :
  outcome (mupdf_openDocument w data) = openDocument w data.
Proof.
  unfold mupdf_openDocument; simpl; destruct (openDocument w data);
    reflexivity.
Qed.

(** Whatever [extractImages] returns is made of one group per page. *)
Lemma extractImages_groups
    (w : World) (p : jsstring) (o : Options) (r : ImageResult) :
  outcome (extractImages w p o) = Ok r ->
  exists buf doc groups,
    readable w p buf
    /\ openDocument w buf = Ok doc
    /\ ir_totalPages r = countPages doc
    /\ ir_totalImages r = List.length (ir_images r)
    /\ ir_images r = flatten groups
    /\ List.length groups = countPages doc
    /\ forall k g, nth_error groups k = Some g ->
         group_of_page w doc (dir_of w p o) (format_of o) (inline_mode o) k g.
Proof.
  unfold extractImages; intros H.
  rewrite outcome_bind, outcome_fs_existsSync in H.
  destruct (existsSync w (path_resolve w p)) eqn:Hex;
    cbn [negb] in H; [| discriminate H].
  cbv zeta in H.
  rewrite outcome_bind, outcome_fs_readFileSync in H.
  destruct (readFileSync w (path_resolve w p)) as [buf | e0] eqn:Hrd;
    [| discriminate H].
  rewrite outcome_bind, outcome_mupdf_openDocument in H.
  destruct (openDocument w buf) as [doc | e0] eqn:Hop; [| discriminate H].
  apply outcome_bind_inv in H; destruct H as (u & _ & H).
  apply outcome_bind_inv in H; destruct H as (images & Hloop & H).
  injection H as <-.
  apply image_loop_groups in Hloop.
  destruct Hloop as (groups & Himg & Hlen & Hk).
  exists buf, doc, groups; simpl.
  split; [split; assumption |].
  split; [exact Hop |].
  split; [reflexivity |].
  split; [reflexivity |].
  split; [exact Himg |].
  split; [exact Hlen |].
  exact Hk.
Qed.

Lemma disk_ready_emits (w : World) (p : jsstring) (o : Options) :
  disk_ready w p o -> emits w (dir_of w p o) (inline_mode o).
Proof.
  intros [H | (d & Hd & _ & Hw)]; [left; exact H |].
  right; exists d; split; assumption.
Qed.

(** [extractImages] returns when the file is there, the document opens,
    every page renders, and the artifacts can be handed over. *)
Lemma extractImages_returns
    (w : World) (p : jsstring) (o : Options) (buf : bytes) (doc : Document) :
  readable w p buf ->
  openDocument w buf = Ok doc ->
  (forall i, i < countPages doc -> page_renders doc o i) ->
  disk_ready w p o ->
  exists r, outcome (extractImages w p o) = Ok r.
Proof.
  intros [Hex Hrd] Hop Hpages Hdisk.
  unfold extractImages.
  rewrite outcome_bind, outcome_fs_existsSync, Hex; cbn [negb]; cbv zeta.
  rewrite outcome_bind, outcome_fs_readFileSync, Hrd.
  rewrite outcome_bind, outcome_mupdf_openDocument, Hop.
  rewrite outcome_bind.
  match goal with
  | |- exists _, match outcome ?m with _ => _ end = _ =>
      assert (Hmk : outcome m = Ok tt)
  end.
  { destruct Hdisk as [Hin | (d & Hd & Hm & _)].
    - unfold inline_mode in Hin; rewrite Hin; reflexivity.
    - destruct (default_to false (opt_base64 o)); [reflexivity |].
      unfold dir_of in Hd; cbn [negb]; rewrite Hd.
      unfold fs_mkdirSync; simpl; rewrite Hm; reflexivity. }
  rewrite Hmk, outcome_bind.
  destruct (@image_loop_returns w doc (dir_of w p o) (format_of o)
              (inline_mode o) (scale_of o)
              (path_basename w (path_resolve w p)
                 (path_extname w (path_resolve w p)))
              (countPages doc) 0 [])
    as (images & Hloop).
  { intros i Hi; apply Hpages; lia. }
  { apply disk_ready_emits; exact Hdisk. }
  unfold dir_of, format_of, inline_mode, scale_of in Hloop.
  rewrite Hloop; eexists; reflexivity.
Qed.

(* ===================================================================== *)
(** ** The order of the artifacts *)
(* ===================================================================== *)

Lemma StronglySorted_append {A} (R : A -> A -> Prop) (l1 l2 : list A) :
  StronglySorted R l1 -> StronglySorted R l2 ->
  (forall a b, In a l1 -> In b l2 -> R a b) ->
  StronglySorted R (l1 ++ l2).
Proof.
  induction l1 as [| x l1 IH]; intros H1 H2 Hc; simpl; [exact H2 |].
  inversion H1 as [| ? ? Hs Hf]; subst.
  constructor.
  - apply IH; [exact Hs | exact H2 |].
    intros a b Ha Hb; apply Hc; [right; exact Ha | exact Hb].
  - apply Forall_app; split; [exact Hf |].
    apply Forall_forall; intros b Hb; apply Hc; [left; reflexivity | exact Hb].
Qed.

(** A run of artifacts of one page with consecutive indices is in order. *)
Lemma run_sorted (pg : nat) (es : list ImageInfo) :
  forall k,
    (forall j e, nth_error es j = Some e ->
       img_page e = pg /\ img_imageIndex e = k + j) ->
    StronglySorted before es.
Proof.
  induction es as [| x es IH]; intros k H; constructor.
  - apply (IH (k + 1)); intros j e E.
    destruct (H (S j) e E) as [Hp Hi]; split; [exact Hp | lia].
  - apply Forall_forall; intros e Hin.
    destruct (In_nth_error _ _ Hin) as (j & E).
    destruct (H 0 x eq_refl) as [Hp0 Hi0].
    destruct (H (S j) e E) as [Hp Hi].
    right; split; [congruence | lia].
Qed.

Lemma in_flatten (groups : list Group) (img : ImageInfo) :
  In img (flatten groups) ->
  exists k g, nth_error groups k = Some g
              /\ (img = fst g \/ In img (snd g)).
Proof.
  induction groups as [| g groups IH]; simpl; [intros [] |].
  intros [<- | Hin].
  - exists 0, g; split; [reflexivity | left; reflexivity].
  - apply in_app_or in Hin; destruct Hin as [Hin | Hin].
    + exists 0, g; split; [reflexivity | right; exact Hin].
    + destruct (IH Hin) as (k & g' & E & Hor).
      exists (S k), g'; split; assumption.
Qed.

(** Groups laid out page after page are in order, and all their pages lie
    past [from]. *)
Lemma flatten_sorted (groups : list Group) :
  forall from,
    page_groups from groups ->
    StronglySorted before (flatten groups)
    /\ Forall (fun img => from < img_page img) (flatten groups).
Proof.
  induction groups as [| g groups IH]; intros from H.
  - split; constructor.
  - destruct (H 0 g eq_refl) as [(Hp & Hi & _) Hrun].
    rewrite Nat.add_0_r in Hp, Hrun.
    destruct (IH (S from)) as [Hs Hf].
    { intros k g' E; replace (S from + k) with (from + S k) by lia.
      exact (H (S k) g' E). }
    assert (Hrun' : forall e, In e (snd g) ->
                      img_page e = from + 1 /\ 0 < img_imageIndex e).
    { intros e Hin; destruct (In_nth_error _ _ Hin) as (j & E).
      destruct (Hrun j e E) as (Hpe & Hie & _); split; [exact Hpe | lia]. }
    rewrite Forall_forall in Hf.
    split.
    + unfold flatten; simpl; constructor.
      * apply StronglySorted_append; [| exact Hs |].
        -- apply (@run_sorted (from + 1) (snd g) 1).
           intros j e E; destruct (Hrun j e E) as (Hpe & Hie & _).
           split; [exact Hpe | lia].
        -- intros a b Ha Hb; left.
           destruct (Hrun' a Ha) as [-> _].
           specialize (Hf b Hb); simpl in Hf; lia.
      * apply Forall_app; split; apply Forall_forall; intros e Hin.
        -- destruct (Hrun' e Hin) as [Hpe Hie].
           right; split; [congruence | lia].
        -- left; specialize (Hf e Hin); simpl in Hf; lia.
    + unfold flatten; simpl; constructor; [lia |].
      apply Forall_app; split; apply Forall_forall; intros e Hin.
      * destruct (Hrun' e Hin) as [-> _]; lia.
      * specialize (Hf e Hin); simpl in Hf; lia.
Qed.

Lemma groups_page_groups
    (w : World) (doc : Document) (dir : JsVal) (format : jsstring)
    (inline : bool) (groups : list Group) :
  (forall k g, nth_error groups k = Some g ->
     group_of_page w doc dir format inline k g) ->
  page_groups 0 groups.
Proof.
  intros H k g E; destruct (H k g E) as (Hr & Hrun & _).
  split; assumption.
Qed.

(** C2. For a PDF that is there, opens and whose pages all render, with a
    disk that takes the files (or in inline mode), [extractImages] returns,
    and its [images] is, page after page in page order, one page render
    with [imageIndex] 0 followed by that page's embedded artifacts with
    [imageIndex] 1, 2, ...; the whole sequence is ordered by page number
    first and by [imageIndex] second. *)
Theorem extractImages_render_then_embedded_per_page
    (w : World) (p : jsstring) (o : Options) (buf : bytes) (doc : Document) :
  readable w p buf ->
  openDocument w buf = Ok doc ->
  (forall i, i < countPages doc -> page_renders doc o i) ->
  disk_ready w p o ->
  exists r groups,
    outcome (extractImages w p o) = Ok r
    /\ ir_totalPages r = countPages doc
    /\ List.length groups = ir_totalPages r
    /\ ir_images r = flatten groups
    /\ page_groups 0 groups
    /\ StronglySorted before (ir_images r).
Proof.
  intros Hr Hop Hpages Hdisk.
  destruct (extractImages_returns Hr Hop Hpages Hdisk) as (r & Hout).
  destruct (extractImages_groups _ _ _ Hout)
    as (buf' & doc' & groups & [_ Hrd'] & Hop' & Htot & _ & Himg & Hlen & Hk).
  destruct Hr as [_ Hrd]; rewrite Hrd in Hrd'; injection Hrd' as <-.
  rewrite Hop in Hop'; injection Hop' as <-.
  exists r, groups.
  pose proof (@groups_page_groups _ _ _ _ _ _ Hk) as Hpg.
  split; [exact Hout |].
  split; [exact Htot |].
  split; [congruence |].
  split; [exact Himg |].
  split; [exact Hpg |].
  rewrite Himg; apply (@flatten_sorted groups 0 Hpg).
Qed.

Lemma extractImages_render_then_embedded_per_page_witness :
  exists r groups,
    outcome (extractImages (Sample.world Sample.parsed_ok)
               Sample.report_pdf no_options) = Ok r
    /\ ir_totalPages r = 2
    /\ List.length groups = ir_totalPages r
    /\ ir_images r = flatten groups
    /\ page_groups 0 groups
    /\ StronglySorted before (ir_images r).
Proof.
  apply (@extractImages_render_then_embedded_per_page
           (Sample.world Sample.parsed_ok) Sample.report_pdf no_options
           Sample.pdf_bytes Sample.document).
  - split; reflexivity.
  - reflexivity.
  - intros [| [| i]] Hi.
    + exists Sample.page1, (Sample.pixmap 1275 1650), Sample.png_bytes.
      repeat split.
    + exists Sample.page2, (Sample.pixmap 1275 1650), Sample.png_bytes.
      repeat split.
    + exfalso; simpl in Hi; lia.
  - right; exists (lit "/docs"); repeat split.
Defined.

(** C8. Under the same conditions, an embedded image that fails to decode
    costs nothing but itself: [extractImages] still returns, every page
    still has its render, and on every page whose walk goes through the
    embedded artifacts are, in order, exactly those made from the blocks
    that do decode. *)
Theorem undecodable_embedded_image_is_skipped_alone
    (w : World) (p : jsstring) (o : Options) (buf : bytes) (doc : Document) :
  readable w p buf ->
  openDocument w buf = Ok doc ->
  (forall i, i < countPages doc -> page_renders doc o i) ->
  disk_ready w p o ->
  exists r groups,
    outcome (extractImages w p o) = Ok r
    /\ ir_images r = flatten groups
    /\ List.length groups = countPages doc
    /\ forall k g, nth_error groups k = Some g ->
         is_render k (fst g)
         /\ forall bs, page_walks doc k bs ->
              Forall2 made_from (snd g) (filter (decodes (format_of o)) bs).
Proof.
  intros Hr Hop Hpages Hdisk.
  destruct (extractImages_returns Hr Hop Hpages Hdisk) as (r & Hout).
  destruct (extractImages_groups _ _ _ Hout)
    as (buf' & doc' & groups & [_ Hrd'] & Hop' & _ & _ & Himg & Hlen & Hk).
  destruct Hr as [_ Hrd]; rewrite Hrd in Hrd'; injection Hrd' as <-.
  rewrite Hop in Hop'; injection Hop' as <-.
  exists r, groups.
  split; [exact Hout |].
  split; [exact Himg |].
  split; [exact Hlen |].
  intros k g E; destruct (Hk k g E) as (Hrender & _ & _ & _ & Hmade).
  split; [exact Hrender |].
  intros bs Hwalk; apply (Hmade bs Hwalk).
  apply disk_ready_emits; exact Hdisk.
Qed.

Lemma undecodable_embedded_image_is_skipped_alone_witness :
  exists r groups,
    outcome (extractImages (Sample.world Sample.parsed_ok)
               Sample.report_pdf no_options) = Ok r
    /\ ir_images r = flatten groups
    /\ List.length groups = 2
    /\ forall k g, nth_error groups k = Some g ->
         is_render k (fst g)
         /\ forall bs, page_walks Sample.document k bs ->
              Forall2 made_from (snd g)
                (filter (decodes (format_of no_options)) bs).
Proof.
  apply (@undecodable_embedded_image_is_skipped_alone
           (Sample.world Sample.parsed_ok) Sample.report_pdf no_options
           Sample.pdf_bytes Sample.document).
  - split; reflexivity.
  - reflexivity.
  - intros [| [| i]] Hi.
    + exists Sample.page1, (Sample.pixmap 1275 1650), Sample.png_bytes.
      repeat split.
    + exists Sample.page2, (Sample.pixmap 1275 1650), Sample.png_bytes.
      repeat split.
    + exfalso; simpl in Hi; lia.
  - right; exists (lit "/docs"); repeat split.
Defined.

Lemma toBase64_populated (buf : bytes) : buf <> [] -> toBase64 buf <> [].
Proof.
  destruct buf as [| x [| y [| z r]]]; simpl; intros H;
    [contradiction H; reflexivity | | |]; discriminate.
Qed.


(* ===================================================================== *)
(** ** What reaches the disk *)
(* ===================================================================== *)

Section Silence.

(** A computation that leaves the disk as it found it. *)
Let silent {A} (m : M A) : Prop := fs_writes (trace_of m) = [].

Lemma silent_ret {A} (a : A) : silent (ret a).
Proof. reflexivity. Qed.

Lemma silent_throw {A} (e : JsError) : silent (@throw A e).
Proof. reflexivity. Qed.

Lemma silent_lift {A} (r : result A) : silent (lift r).
Proof. reflexivity. Qed.

Lemma silent_tell (e : Event) : is_fs_write e = false -> silent (tell e).
Proof. unfold silent, fs_writes; simpl; intros ->; reflexivity. Qed.

Lemma silent_bind {A B} (m : M A) (f : A -> M B) :
  silent m -> (forall a, silent (f a)) -> silent (bind m f).
Proof.
  unfold silent, fs_writes; intros Hm Hf.
  rewrite trace_bind, filter_app, Hm; simpl.
  destruct (outcome m); [apply Hf | reflexivity].
Qed.

Lemma silent_try_catch {A} (m : M A) (h : JsError -> M A) :
  silent m -> (forall e, silent (h e)) -> silent (try_catch m h).
Proof.
  unfold silent, fs_writes; intros Hm Hh.
  rewrite trace_try_catch, filter_app, Hm; simpl.
  destruct (outcome m); [reflexivity | apply Hh].
Qed.

Lemma silent_foldM {A S} (body : S -> A -> M S) (l : list A) :
  (forall s a, silent (body s a)) -> forall s, silent (foldM body l s).
Proof.
  intros Hb; induction l as [| a l IH]; intros s; simpl.
  - apply silent_ret.
  - apply silent_bind; [apply Hb | exact IH].
Qed.

Lemma silent_encode (format : jsstring) (px : Pixmap) :
  silent (encode format px).
Proof. rewrite encode_lift; apply silent_lift. Qed.

Variable w : World.

Lemma silent_loadPage (doc : Document) (i : nat) :
  silent (doc_loadPage doc i).
Proof.
  apply silent_bind; [apply silent_tell; reflexivity |].
  intros _; apply silent_lift.
Qed.

(** In inline mode the callback writes nothing. *)
Lemma silent_onImageBlock (i : nat) (base : jsstring) (dir : JsVal)
    (format : jsstring) (st : list ImageInfo * nat) (b : ImageBlock) :
  silent (onImageBlock w i base
            {| eo_outputDir := dir; eo_format := format;
               eo_returnBase64 := true |} st b).
Proof.
  destruct st as [images k]; unfold onImageBlock; simpl eo_returnBase64.
  apply silent_try_catch; [| intros _; apply silent_ret].
  apply silent_bind; [apply silent_lift | intros px].
  apply silent_bind; [apply silent_encode | intros data].
  apply silent_bind; [apply silent_ret | intros info; apply silent_ret].
Qed.

Lemma silent_extractEmbeddedImages (page : Page) (i : nat) (base : jsstring)
    (dir : JsVal) (format : jsstring) :
  silent (extractEmbeddedImages w page i base
            {| eo_outputDir := dir; eo_format := format;
               eo_returnBase64 := true |}).
Proof.
  unfold extractEmbeddedImages.
  apply silent_bind; [apply silent_lift | intros stext].
  apply silent_bind.
  - apply silent_foldM; intros s b; apply silent_onImageBlock.
  - intros st; destruct (walkError stext);
      [apply silent_throw | apply silent_ret].
Qed.

Lemma silent_image_page (doc : Document) (dir : JsVal) (format : jsstring)
    (scale : JsNumber) (base : jsstring) (images : list ImageInfo) (i : nat) :
  silent (image_page w doc dir format true scale base images i).
Proof.
  unfold image_page.
  apply silent_bind; [apply silent_loadPage | intros page].
  apply silent_bind; [apply silent_lift | intros px].
  apply silent_bind; [apply silent_encode | intros data].
  apply silent_bind; [apply silent_ret | intros info].
  apply silent_try_catch; [| intros _; apply silent_ret].
  apply silent_bind; [apply silent_extractEmbeddedImages |].
  intros es; apply silent_ret.
Qed.

Lemma silent_extractImages_inline (p : jsstring) (o : Options) :
  inline_mode o = true -> silent (extractImages w p o).
Proof.
  unfold inline_mode; intros Hin; unfold extractImages; rewrite Hin.
  apply silent_bind.
  { apply silent_bind; [apply silent_tell; reflexivity |].
    intros _; apply silent_ret. }
  intros found; destruct (negb found); [apply silent_throw |].
  cbv zeta.
  apply silent_bind.
  { apply silent_bind; [apply silent_tell; reflexivity |].
    intros _; apply silent_lift. }
  intros data; apply silent_bind.
  { apply silent_bind; [apply silent_tell; reflexivity |].
    intros _; apply silent_lift. }
  intros doc; apply silent_bind; [apply silent_ret | intros _].
  apply silent_bind; [| intros images; apply silent_ret].
  apply silent_foldM; intros s i; apply silent_image_page.
Qed.

(** With [outputDir: null] and inline mode off, [extractImages] throws
    before it writes anything. *)
Lemma extractImages_null_dir (p : jsstring) (o : Options) :
  opt_outputDir o = JNull ->
  inline_mode o = false ->
  silent (extractImages w p o)
  /\ exists e, outcome (extractImages w p o) = Throw e.
Proof.
  unfold inline_mode, silent; intros Hd Hin.
  unfold extractImages, fs_existsSync, fs_readFileSync, mupdf_openDocument.
  rewrite Hd, Hin; simpl.
  destruct (existsSync w (path_resolve w p)); simpl;
    [| split; [reflexivity | eexists; reflexivity]].
  destruct (readFileSync w (path_resolve w p)) as [data | e0]; simpl;
    [| split; [reflexivity | eexists; reflexivity]].
  destruct (openDocument w data) as [doc | e0]; simpl;
    split; first [reflexivity | eexists; reflexivity].
Qed.

End Silence.

(** C10. In inline mode [extractImages] leaves the disk alone, whatever the
    PDF and the other options: its trace holds no directory creation and no
    file write. *)
Theorem inline_mode_writes_nothing
    (w : World) (p : jsstring) (o : Options) :
  inline_mode o = true ->
  fs_writes (trace_of (extractImages w p o)) = []
  /\ forall e, In e (trace_of (extractImages w p o)) ->
       (forall d, e <> FsMkdir d) /\ (forall f data, e <> FsWrite f data).
Proof.
  intros Hin.
  pose proof (silent_extractImages_inline w p o Hin) as Hs.
  split; [exact Hs |].
  intros e He.
  assert (Hn : is_fs_write e = false).
  { destruct (is_fs_write e) eqn:E; [| reflexivity].
    assert (Hf : In e (fs_writes (trace_of (extractImages w p o)))).
    { apply filter_In; split; assumption. }
    rewrite Hs in Hf; contradiction Hf. }
  split; intros; intros ->; discriminate Hn.
Qed.

Lemma inline_mode_writes_nothing_witness :
  fs_writes (trace_of (extractImages (Sample.world Sample.parsed_ok)
                         Sample.report_pdf Sample.inline_jpeg)) = []
  /\ forall e,
       In e (trace_of (extractImages (Sample.world Sample.parsed_ok)
                         Sample.report_pdf Sample.inline_jpeg)) ->
       (forall d, e <> FsMkdir d) /\ (forall f data, e <> FsWrite f data).
Proof.
  apply (@inline_mode_writes_nothing
           (Sample.world Sample.parsed_ok) Sample.report_pdf
           Sample.inline_jpeg).
  reflexivity.
Defined.

(* ===================================================================== *)
(** ** The default output directory *)
(* ===================================================================== *)

(** When the [outputDir] option is left undefined, what [extractImages]
    creates and writes lies in the directory of the PDF. *)
Lemma default_directory_is_beside_the_pdf
    (w : World) (p : jsstring) (o : Options) :
  opt_outputDir o = JUndefined ->
  dir_of w p o = JString (path_dirname w (path_resolve w p)).
Proof. unfold dir_of; intros ->; reflexivity. Qed.

(** The tool [extract_pdf_images], called without [outputDir] in the sample
    world, writes its four files beside [/docs/report.pdf]. *)
Lemma tool_images_default_directory :
  fs_writes
    (trace_of
       (Server.extract_pdf_images (Sample.world Sample.parsed_ok)
          {| Server.ia_pdfPath := Sample.report_pdf;
             Server.ia_outputDir := None;
             Server.ia_format := Server.Png;
             Server.ia_returnBase64 := false;
             Server.ia_dpi := 150%float |}))
  = [ FsMkdir (lit "/docs");
      FsWrite (lit "/docs/report_page_1.png") Sample.png_bytes;
      FsWrite (lit "/docs/report_page_1_img_1.png") Sample.png_bytes;
      FsWrite (lit "/docs/report_page_1_img_2.png") Sample.png_bytes;
      FsWrite (lit "/docs/report_page_2.png") Sample.png_bytes ].
Proof. vm_compute; reflexivity. Qed.

(** The command line never leaves [outputDir] undefined unless [-o] is its
    last word: without [-o] the option is [null]. *)
Lemma parseArgs_images_without_output_dir :
  Cli.outputDir (Cli.parseArgs [lit "images"; Sample.report_pdf]) = JNull
  /\ Cli.base64 (Cli.parseArgs [lit "images"; Sample.report_pdf]) = false.
Proof. split; reflexivity. Qed.

(** Whatever the world, the [images] command with a [null] output
    directory and without [--base64] ends with exit code 1 and has written
    nothing. *)
Lemma cli_images_null_dir_fails
    (w : World) (args : list jsstring) (p : jsstring) :
  args <> [] ->
  existsb (fun a => str_eqb a (lit "--help")) args = false ->
  existsb (fun a => str_eqb a (lit "-h")) args = false ->
  Cli.command (Cli.parseArgs args) = Some (lit "images") ->
  Cli.pdfPath (Cli.parseArgs args) = Some p ->
  truthy_str p = true ->
  Cli.outputDir (Cli.parseArgs args) = JNull ->
  Cli.base64 (Cli.parseArgs args) = false ->
  snd (Cli.main w args) = Cli.Exit 1
  /\ fs_writes (fst (Cli.main w args)) = [].
Proof.
  intros Hne Hh1 Hh2 Hc Hp Ht Hd Hb.
  unfold Cli.main.
  destruct args as [| a args]; [contradiction Hne; reflexivity |].
  rewrite Hh1, Hh2; cbn [orb].
  rewrite Hc, Hp, Ht; cbn [Cli.name_of_command].
  change (str_eqb (lit "images") (lit "text")) with false.
  change (str_eqb (lit "images") (lit "images")) with true.
  cbv iota.
  destruct (@extractImages_null_dir w p
              (Cli.options_of (Cli.parseArgs (a :: args))))
    as [Hs (e & He)]; [exact Hd | unfold inline_mode; simpl; rewrite Hb;
                                  reflexivity |].
  unfold Cli.report.
  destruct (extractImages w p (Cli.options_of (Cli.parseArgs (a :: args))))
    as [t [r | e']]; simpl in *; [discriminate He |].
  split; [reflexivity |].
  unfold fs_writes in *; rewrite filter_app, Hs; simpl.
  destruct (env_DEBUG w); reflexivity.
Qed.

(** C5, at [images /docs/report.pdf] in the sample world: the option object
    carries [outputDir: null], the destructuring default does not replace
    it, [mkdirSync(null)] throws, and the command ends with exit code 1
    having written nothing -- where the help text of the command line
    promises the PDF's directory, which is where the tool writes. *)
Theorem cli_images_without_output_dir_writes_nothing :
  opt_outputDir
    (Cli.options_of (Cli.parseArgs [lit "images"; Sample.report_pdf]))
  = JNull
  /\ dir_of (Sample.world Sample.parsed_ok) Sample.report_pdf
       (Cli.options_of (Cli.parseArgs [lit "images"; Sample.report_pdf]))
     = JNull
  /\ outcome
       (extractImages (Sample.world Sample.parsed_ok) Sample.report_pdf
          (Cli.options_of (Cli.parseArgs [lit "images"; Sample.report_pdf])))
     = Throw (invalid_path_arg
                (lit "string or an instance of Buffer or URL") JNull)
  /\ snd (Cli.main (Sample.world Sample.parsed_ok)
            [lit "images"; Sample.report_pdf]) = Cli.Exit 1
  /\ fs_writes (fst (Cli.main (Sample.world Sample.parsed_ok)
                       [lit "images"; Sample.report_pdf])) = [].
Proof. repeat split. Qed.

(* ===================================================================== *)
(** ** Runs in the sample world *)
(* ===================================================================== *)

Example trim_page1 :
  trim (lit "  Hello, world " +++ nl) = lit "Hello, world".
Proof. reflexivity. Qed.

Example trim_no_break_space :
  trim ([160; 65279; 8232]%N +++ lit "a b" +++ [12288; 9]%N) = lit "a b".
Proof. reflexivity. Qed.

Example toBase64_png_signature :
  toBase64 Sample.png_bytes = lit "iVBORw==".
Proof. reflexivity. Qed.

Example parseInt10_units : parseInt10 (lit " 300dpi") = 300%float.
Proof. reflexivity. Qed.

Example parseInt10_nothing : parseInt10 (lit "dpi") = NaN.
Proof. reflexivity. Qed.

(** [parseInt] returns the double nearest to the digits it read. *)
Example parseInt10_nearest_double :
  parseInt10 (lit "9007199254740993") = number_of_Z 9007199254740992.
Proof. reflexivity. Qed.

(** The width in [bbox] is a difference of doubles: taking 2^-30 from 2^24
    leaves 2^24. *)
Example bbox_width_is_rounded :
  map img_bbox
    (fst
       (Sample.value_or ([], 0)
          (outcome
             (onImageBlock (Sample.world Sample.parsed_ok) 0 (lit "report")
             {| eo_outputDir := JUndefined; eo_format := lit "png";
                eo_returnBase64 := true |}
             ([], 1)
             {| bbox0 := SF2Prim (binary_normalize prec emax 1 (-30) false);
                bbox1 := 0%float;
                bbox2 := number_of_Z 16777216;
                bbox3 := 1%float;
                image_toPixmap := Ok (Sample.pixmap 4 4) |}))))
  = [Some {| bb_x := SF2Prim (binary_normalize prec emax 1 (-30) false);
           bb_y := 0%float;
           bb_w := number_of_Z 16777216;
           bb_h := 1%float |}].
Proof. reflexivity. Qed.

(** [-o] as the last word leaves [outputDir] undefined. *)
Example parseArgs_dangling_output_dir :
  Cli.outputDir
    (Cli.parseArgs [lit "images"; Sample.report_pdf; lit "-d"; lit "300";
                    lit "-o"])
  = JUndefined.
Proof. reflexivity. Qed.

(** Page 1 of the sample has three image blocks and the second does not
    decode: its two neighbours come out numbered 1 and 2. *)
Example sample_skips_the_broken_block :
  map (fun img => (img_page img, img_imageIndex img, img_width img))
      (ir_images Sample.inline_result)
  = [(1, 0, 1275%N); (1, 1, 100%N); (1, 2, 30%N); (2, 0, 1275%N)].
Proof. reflexivity. Qed.

Example sample_text_metadata :
  md_title (tr_metadata Sample.text_result) = Some (lit "My Document")
  /\ md_author (tr_metadata Sample.text_result) = Some (lit "John Doe")
  /\ md_producer (tr_metadata Sample.text_result) = None
  /\ map pt_text (tr_pages Sample.text_result)
     = [lit "Hello, world"; lit "Second page"].
Proof. repeat split. Qed.

(** [extract_pdf_all] forces inline mode: the response to the sample PDF is
    a summary, then per page a text block and that page's image blocks. *)
Example tool_all_blocks :
  match outcome (Server.extract_pdf_all (Sample.world Sample.parsed_ok)
                   {| Server.aa_pdfPath := Sample.report_pdf;
                      Server.aa_outputDir := None;
                      Server.aa_format := Server.Jpeg;
                      Server.aa_dpi := 150%float |}) with
  | Ok res =>
      map (fun c => match c with
                    | Server.TextContent _ => 0
                    | Server.ImageContent _ _ => 1
                    end) (Server.content res)
      = [0; 0; 1; 1; 1; 0; 1]
  | Throw _ => False
  end.
Proof. vm_compute; reflexivity. Qed.

(* ===================================================================== *)
(** ** [extractText]: calls, failures, and what is kept of the text *)
(* ===================================================================== *)

Lemma trace_text_page (doc : Document) (acc : list PageText) (i : nat) :
  trace_of (text_page doc acc i) = [PdfLoadPage i].
Proof.
  unfold text_page, doc_loadPage, lift, tell, bind, ret; simpl.
  destruct (loadPage doc i) as [pg | e]; simpl;
    [destruct (page_asText pg) |]; reflexivity.
Qed.

Lemma text_page_inv (doc : Document) (acc acc' : list PageText) (i : nat) :
  outcome (text_page doc acc i) = Ok acc' -> page_reads doc i.
Proof.
  unfold text_page.
  rewrite outcome_bind, outcome_doc_loadPage.
  destruct (loadPage doc i) as [pg | e] eqn:Hl; [| discriminate].
  rewrite outcome_bind, outcome_lift.
  destruct (page_asText pg) as [t | e] eqn:Ht; [| discriminate].
  intros _; exists pg, t; split; assumption.
Qed.

Lemma text_page_fails (doc : Document) (acc : list PageText) (i : nat)
    (e : JsError) :
  page_fails doc i e -> outcome (text_page doc acc i) = Throw e.
Proof.
  unfold text_page; rewrite outcome_bind, outcome_doc_loadPage.
  intros [Hl | (pg & Hl & Ht)]; rewrite Hl; [reflexivity |].
  rewrite outcome_bind, outcome_lift, Ht; reflexivity.
Qed.

(** A page loop that ends well has read every page it went over. *)
Lemma text_loop_inv (doc : Document) (n : nat) :
  forall (a : nat) (acc acc' : list PageText),
    outcome (foldM (text_page doc) (seq a n) acc) = Ok acc' ->
    forall i, a <= i < a + n -> page_reads doc i.
Proof.
  induction n as [| n IH]; intros a acc acc' H i Hi; [lia |].
  simpl seq in H; simpl foldM in H.
  apply outcome_bind_inv in H; destruct H as (mid & H1 & H2).
  destruct (Nat.eq_dec i a) as [-> | Hne].
  - apply text_page_inv in H1; exact H1.
  - apply (IH (S a) mid acc' H2); lia.
Qed.

(** The calls of the page loop: one [loadPage] per page, in order, up to
    and including the first page that fails. *)
Lemma text_loop_trace (doc : Document) (n : nat) :
  forall (a : nat) (acc : list PageText),
    (forall i, a <= i < a + n -> page_reads doc i) ->
    trace_of (foldM (text_page doc) (seq a n) acc)
    = map PdfLoadPage (seq a n).
Proof.
  induction n as [| n IH]; intros a acc H; [reflexivity |].
  simpl seq; simpl foldM; rewrite trace_bind, trace_text_page.
  destruct (H a ltac:(lia)) as (pg & t & Hl & Ht).
  rewrite (@text_page_ok doc acc a pg t Hl Ht); simpl; f_equal.
  apply IH; intros i Hi; apply H; lia.
Qed.

Lemma text_loop_fails (doc : Document) (e : JsError) (n : nat) :
  forall (a i : nat) (acc : list PageText),
    a <= i < a + n ->
    (forall j, a <= j < i -> page_reads doc j) ->
    page_fails doc i e ->
    outcome (foldM (text_page doc) (seq a n) acc) = Throw e
    /\ trace_of (foldM (text_page doc) (seq a n) acc)
       = map PdfLoadPage (seq a (S (i - a))).
Proof.
  induction n as [| n IH]; intros a i acc Hi Hbefore Hfail; [lia |].
  destruct (Nat.eq_dec i a) as [-> | Hne].
  - replace (S (a - a)) with 1 by lia.
    simpl seq; simpl foldM.
    rewrite outcome_bind, trace_bind, trace_text_page.
    rewrite (@text_page_fails doc acc a e Hfail); split; reflexivity.
  - replace (S (i - a)) with (S (S (i - S a))) by lia.
    destruct (Hbefore a ltac:(lia)) as (pg & t & Hl & Ht).
    destruct (IH (S a) i
                (acc ++ [ {| pt_page := a + 1; pt_text := trim t |} ]))
      as [Ho Htr]; [lia | intros j Hj; apply Hbefore; lia | exact Hfail |].
    simpl seq; simpl foldM.
    rewrite outcome_bind, trace_bind, trace_text_page.
    rewrite (@text_page_ok doc acc a pg t Hl Ht).
    split; [exact Ho |].
    rewrite Htr; reflexivity.
Qed.

Lemma extractText_split (w : World) (p : jsstring) (buf : bytes) :
  readable w p buf ->
  outcome (extractText w p)
  = outcome (extractText_rest w (path_resolve w p) buf
               (metadata_after (PDFParse w buf)))
  /\ trace_of (extractText w p)
     = [FsExists (path_resolve w p); FsRead (path_resolve w p);
        MetadataParse buf]
       ++ trace_of (extractText_rest w (path_resolve w p) buf
                      (metadata_after (PDFParse w buf))).
Proof.
  intros [Hex Hrd].
  unfold extractText, extractText_begin, fs_existsSync, fs_readFileSync.
  unfold bind at 1 2 3 4 5; unfold tell, lift, ret; simpl.
  rewrite Hex; simpl; rewrite Hrd; simpl.
  destruct (extractText_rest w (path_resolve w p) buf
              (metadata_after (PDFParse w buf))) as [t r].
  split; reflexivity.
Qed.

Lemma extractText_rest_split (w : World) (abs : jsstring) (buf : bytes)
    (meta : Info) (doc : Document) :
  openDocument w buf = Ok doc ->
  trace_of (extractText_rest w abs buf meta)
  = PdfOpen buf
    :: trace_of (foldM (text_page doc) (seq 0 (countPages doc)) [])
  /\ (forall e,
        outcome (foldM (text_page doc) (seq 0 (countPages doc)) [])
        = Throw e ->
        outcome (extractText_rest w abs buf meta) = Throw e).
Proof.
  intros Hop; unfold extractText_rest, mupdf_openDocument.
  unfold bind at 1 2 3; unfold tell, lift, ret; simpl; rewrite Hop; simpl.
  destruct (foldM (text_page doc) (seq 0 (countPages doc)) [])
    as [t [pages | e0]]; simpl; split; try reflexivity.
  - rewrite app_nil_r; reflexivity.
  - intros e H; discriminate H.
  - intros e [= <-]; reflexivity.
Qed.

(** X1. On a PDF that opens and whose pages all read, the recorded calls of
    [extractText] -- those on the file system, [PDFParse], [openDocument]
    and [loadPage] -- are exactly these, in this order: the existence test,
    one read of the file, the metadata parser, [openDocument], then
    [loadPage] for each page index once, in index order.  The calls on the
    opened document and on a loaded page ([countPages], [toStructuredText],
    [asText]) are not recorded in a trace, and the statement does not speak
    of them. *)
Theorem extractText_loads_each_page_once_in_order
    (w : World) (p : jsstring) (buf : bytes) (doc : Document) :
  readable w p buf ->
  openDocument w buf = Ok doc ->
  (forall i, i < countPages doc -> page_reads doc i) ->
  trace_of (extractText w p)
  = [FsExists (path_resolve w p); FsRead (path_resolve w p);
     MetadataParse buf; PdfOpen buf]
    ++ map PdfLoadPage (seq 0 (countPages doc)).
Proof.
  intros Hr Hop Hp.
  destruct (extractText_split Hr) as [_ ->].
  destruct (extractText_rest_split w (path_resolve w p) buf
              (metadata_after (PDFParse w buf)) Hop) as [-> _].
  rewrite text_loop_trace; [reflexivity |].
  intros i Hi; apply Hp; lia.
Qed.

Lemma extractText_loads_each_page_once_in_order_witness :
  trace_of (extractText (Sample.world Sample.parsed_ok) Sample.report_pdf)
  = [FsExists Sample.report_pdf; FsRead Sample.report_pdf;
     MetadataParse Sample.pdf_bytes; PdfOpen Sample.pdf_bytes]
    ++ map PdfLoadPage (seq 0 2).
Proof.
  apply (@extractText_loads_each_page_once_in_order
           (Sample.world Sample.parsed_ok) Sample.report_pdf
           Sample.pdf_bytes Sample.document).
  - split; reflexivity.
  - reflexivity.
  - intros [| [| i]] Hi.
    + exists Sample.page1; eexists; split; reflexivity.
    + exists Sample.page2; eexists; split; reflexivity.
    + exfalso; simpl in Hi; lia.
Defined.

(** X2. [extractText] gives no partial result: when page [i] is the first
    that does not load or whose text cannot be extracted, the call fails
    with that page's error, and no page after [i] is loaded. *)
Theorem extractText_fails_at_first_bad_page
    (w : World) (p : jsstring) (buf : bytes) (doc : Document)
    (i : nat) (e : JsError) :
  readable w p buf ->
  openDocument w buf = Ok doc ->
  i < countPages doc ->
  (forall j, j < i -> page_reads doc j) ->
  page_fails doc i e ->
  outcome (extractText w p) = Throw e
  /\ trace_of (extractText w p)
     = [FsExists (path_resolve w p); FsRead (path_resolve w p);
        MetadataParse buf; PdfOpen buf]
       ++ map PdfLoadPage (seq 0 (S i)).
Proof.
  intros Hr Hop Hi Hbefore Hfail.
  destruct (extractText_split Hr) as [-> ->].
  destruct (extractText_rest_split w (path_resolve w p) buf
              (metadata_after (PDFParse w buf)) Hop) as [-> Hthrow].
  destruct (@text_loop_fails doc e (countPages doc) 0 i [])
    as [Ho Htr]; [lia | intros j Hj; apply Hbefore; lia | exact Hfail |].
  split; [exact (Hthrow e Ho) |].
  rewrite Htr, Nat.sub_0_r; reflexivity.
Qed.

Lemma extractText_fails_at_first_bad_page_witness :
  outcome (extractText (Cases.world_of (Ok Cases.mute_document))
             Sample.report_pdf) = Throw Cases.no_text
  /\ trace_of (extractText (Cases.world_of (Ok Cases.mute_document))
                 Sample.report_pdf)
     = [FsExists Sample.report_pdf; FsRead Sample.report_pdf;
        MetadataParse Sample.pdf_bytes; PdfOpen Sample.pdf_bytes]
       ++ map PdfLoadPage (seq 0 2).
Proof.
  apply (@extractText_fails_at_first_bad_page
           (Cases.world_of (Ok Cases.mute_document)) Sample.report_pdf
           Sample.pdf_bytes Cases.mute_document 1 Cases.no_text).
  - split; reflexivity.
  - reflexivity.
  - simpl; lia.
  - intros [| j] Hj; [| exfalso; lia].
    exists Sample.page1; eexists; split; reflexivity.
  - right; exists Cases.mute_page; split; reflexivity.
Defined.

Lemma trimStart_split (s : jsstring) :
  exists ws, s = ws ++ trimStart s /\ blank ws.
Proof.
  induction s as [| c r (ws & IH & Hb)]; simpl.
  - exists []; split; [reflexivity | constructor].
  - destruct (isWhiteSpace c) eqn:E.
    + exists (c :: ws); split; [simpl; f_equal; exact IH |].
      constructor; assumption.
    + exists []; split; [reflexivity | constructor].
Qed.

Lemma trimStart_fixed (s : jsstring) : starts_clean s -> trimStart s = s.
Proof. destruct s as [| c r]; simpl; [reflexivity | intros ->; reflexivity]. Qed.

Lemma trim_split (s : jsstring) :
  exists ws1 ws2, s = ws1 ++ trim s ++ ws2 /\ blank ws1 /\ blank ws2.
Proof.
  destruct (trimStart_split s) as (ws1 & H1 & B1).
  destruct (trimStart_split (rev (trimStart s))) as (ws2 & H2 & B2).
  exists ws1, (rev ws2); split; [| split; [exact B1 |]].
  - unfold trim, trimEnd.
    rewrite <- rev_app_distr, <- H2, rev_involutive; exact H1.
  - apply Forall_rev; exact B2.
Qed.

Lemma trim_fixed (s : jsstring) : trimmed s -> trim s = s.
Proof.
  intros [H1 H2]; unfold trim, trimEnd.
  rewrite (@trimStart_fixed s H1), (@trimStart_fixed (rev s) H2).
  apply rev_involutive.
Qed.

(** Whatever [extractText] returns comes from a file that was there, a
    document that opened, and pages that all read. *)
Lemma extractText_inv (w : World) (p : jsstring) (r : TextResult) :
  outcome (extractText w p) = Ok r ->
  exists buf doc,
    readable w p buf
    /\ openDocument w buf = Ok doc
    /\ forall i, i < countPages doc -> page_reads doc i.
Proof.
  unfold extractText; intros H.
  apply outcome_bind_inv in H; destruct H as ([abs buf] & Hb & Hrest).
  unfold extractText_begin in Hb.
  rewrite outcome_bind, outcome_fs_existsSync in Hb.
  destruct (existsSync w (path_resolve w p)) eqn:Hex;
    cbn [negb] in Hb; [| discriminate Hb].
  rewrite outcome_bind, outcome_fs_readFileSync in Hb.
  destruct (readFileSync w (path_resolve w p)) as [buf' | e0] eqn:Hrd;
    [| discriminate Hb].
  simpl in Hb; injection Hb as <- <-.
  simpl fst in Hrest; simpl snd in Hrest.
  unfold extractText_rest in Hrest.
  rewrite outcome_bind, outcome_mupdf_openDocument in Hrest.
  destruct (openDocument w buf') as [doc | e0] eqn:Hop; [| discriminate Hrest].
  apply outcome_bind_inv in Hrest; destruct Hrest as (pages & Hloop & _).
  exists buf', doc; split; [split; assumption | split; [exact Hop |]].
  intros i Hi; apply (@text_loop_inv doc (countPages doc) 0 [] pages Hloop).
  lia.
Qed.

(** X3. The text [extractText] returns for a page is the page's text with
    white space taken off its two ends and nothing else: the raw text is
    some white space, then the returned text, then some white space.
    Trimming a returned text again changes nothing. *)
Theorem extractText_drops_only_surrounding_white_space
    (w : World) (p : jsstring) (r : TextResult) :
  outcome (extractText w p) = Ok r ->
  exists buf doc,
    readable w p buf
    /\ openDocument w buf = Ok doc
    /\ forall k pt, nth_error (tr_pages r) k = Some pt ->
         trim (pt_text pt) = pt_text pt
         /\ exists pg raw ws1 ws2,
              loadPage doc k = Ok pg
              /\ page_asText pg = Ok raw
              /\ raw = ws1 ++ pt_text pt ++ ws2
              /\ blank ws1 /\ blank ws2.
Proof.
  intros Hout.
  destruct (extractText_inv _ _ Hout) as (buf & doc & Hr & Hop & Hp).
  exists buf, doc; split; [exact Hr | split; [exact Hop |]].
  destruct (extractText_rest_ok w (path_resolve w p) buf
              (metadata_after (PDFParse w buf)) Hop Hp)
    as (pages & Hres & _ & Hk).
  destruct (extractText_split Hr) as [Ho _].
  rewrite Ho, Hres in Hout; injection Hout as <-; simpl.
  intros k pt E; destruct (Hk k pt E) as (pg & raw & Hl & Ht & Hx).
  split; [rewrite Hx; apply trim_fixed, trim_trimmed |].
  destruct (trim_split raw) as (ws1 & ws2 & Hs & B1 & B2).
  exists pg, raw, ws1, ws2; rewrite Hx; repeat split; assumption.
Qed.

Lemma extractText_drops_only_surrounding_white_space_witness :
  exists buf doc,
    readable (Sample.world Sample.parsed_ok) Sample.report_pdf buf
    /\ openDocument (Sample.world Sample.parsed_ok) buf = Ok doc
    /\ forall k pt, nth_error (tr_pages Sample.text_result) k = Some pt ->
         trim (pt_text pt) = pt_text pt
         /\ exists pg raw ws1 ws2,
              loadPage doc k = Ok pg
              /\ page_asText pg = Ok raw
              /\ raw = ws1 ++ pt_text pt ++ ws2
              /\ blank ws1 /\ blank ws2.
Proof.
  apply (@extractText_drops_only_surrounding_white_space
           (Sample.world Sample.parsed_ok) Sample.report_pdf
           Sample.text_result).
  reflexivity.
Defined.

(** The seven fields of a metadata object, in the order of the source. *)
Lemma extractText_metadata_of (w : World) (p : jsstring) (r : TextResult)
    (buf : bytes) :
  outcome (extractText w p) = Ok r ->
  readable w p buf ->
  tr_metadata r
  = let metadata := metadata_after (PDFParse w buf) in
    {| md_title := or_null (Title metadata);
       md_author := or_null (Author metadata);
       md_subject := or_null (Subject metadata);
       md_creator := or_null (Creator metadata);
       md_producer := or_null (Producer metadata);
       md_creationDate := or_null (CreationDate metadata);
       md_modDate := or_null (ModDate metadata) |}.
Proof.
  intros Hout Hr.
  destruct (extractText_inv _ _ Hout) as (buf' & doc & Hr' & Hop & Hp).
  assert (buf' = buf) as ->.
  { destruct Hr as [_ H1], Hr' as [_ H2]; congruence. }
  destruct (extractText_rest_ok w (path_resolve w p) buf
              (metadata_after (PDFParse w buf)) Hop Hp)
    as (pages & Hres & _).
  destruct (extractText_split Hr) as [Ho _].
  rewrite Ho, Hres in Hout; injection Hout as <-; reflexivity.
Qed.

Lemma or_null_not_empty (x : option jsstring) : or_null x <> Some [].
Proof. destruct x as [[| c s] |]; simpl; discriminate. Qed.

Lemma or_null_keeps (c : N) (s : jsstring) :
  or_null (Some (c :: s)) = Some (c :: s).
Proof. reflexivity. Qed.

(** X4. A metadata field [extractText] returns is never the empty string:
    a key that is absent or empty in the parser's info dictionary comes out
    as null, and a key with a non-empty value comes out with that value.
    This holds for the title as for the other six fields. *)
Theorem extractText_metadata_null_or_non_empty
    (w : World) (p : jsstring) (r : TextResult) (buf : bytes) (info : Info) :
  outcome (extractText w p) = Ok r ->
  readable w p buf ->
  PDFParse w buf = MetaResolves (Some (Some info)) ->
  Forall2 (fun field key =>
             field <> Some []
             /\ (key = None \/ key = Some [] -> field = None)
             /\ (forall c s, key = Some (c :: s) -> field = Some (c :: s)))
    [md_title (tr_metadata r); md_author (tr_metadata r);
     md_subject (tr_metadata r); md_creator (tr_metadata r);
     md_producer (tr_metadata r); md_creationDate (tr_metadata r);
     md_modDate (tr_metadata r)]
    [Title info; Author info; Subject info; Creator info; Producer info;
     CreationDate info; ModDate info].
Proof.
  intros Hout Hr Hmeta.
  rewrite (@extractText_metadata_of w p r buf Hout Hr), Hmeta; simpl.
  repeat (constructor;
          [split; [apply or_null_not_empty |
                   split; [intros [-> | ->]; reflexivity |
                           intros c s ->; reflexivity]] |]).
  constructor.
Qed.

Lemma extractText_metadata_null_or_non_empty_witness :
  Forall2 (fun field key =>
             field <> Some []
             /\ (key = None \/ key = Some [] -> field = None)
             /\ (forall c s, key = Some (c :: s) -> field = Some (c :: s)))
    [md_title (tr_metadata Sample.text_result);
     md_author (tr_metadata Sample.text_result);
     md_subject (tr_metadata Sample.text_result);
     md_creator (tr_metadata Sample.text_result);
     md_producer (tr_metadata Sample.text_result);
     md_creationDate (tr_metadata Sample.text_result);
     md_modDate (tr_metadata Sample.text_result)]
    [Title Sample.info; Author Sample.info; Subject Sample.info;
     Creator Sample.info; Producer Sample.info;
     CreationDate Sample.info; ModDate Sample.info].
Proof.
  apply (@extractText_metadata_null_or_non_empty
           (Sample.world Sample.parsed_ok) Sample.report_pdf
           Sample.text_result Sample.pdf_bytes Sample.info).
  - reflexivity.
  - split; reflexivity.
  - reflexivity.
Defined.

(* ===================================================================== *)
(** ** [extractImages]: edges *)
(* ===================================================================== *)

(** X5. A file that is there but does not open as a PDF makes both
    extractions fail with the toolkit's own error, and [extractImages] has
    touched nothing by then: the output directory is created only after the
    document has opened, so none is created and no file is written. *)
Theorem unopenable_pdf_fails_and_leaves_disk_alone
    (w : World) (p : jsstring) (o : Options) (buf : bytes) (e : JsError) :
  readable w p buf ->
  openDocument w buf = Throw e ->
  outcome (extractText w p) = Throw e
  /\ extractImages w p o
     = ([FsExists (path_resolve w p); FsRead (path_resolve w p);
         PdfOpen buf], Throw e).
Proof.
  intros Hr Hop; split.
  - destruct (extractText_split Hr) as [-> _].
    unfold extractText_rest.
    rewrite outcome_bind, outcome_mupdf_openDocument, Hop; reflexivity.
  - destruct Hr as [Hex Hrd].
    unfold extractImages, fs_existsSync, fs_readFileSync, mupdf_openDocument.
    unfold bind, tell, lift, ret; simpl.
    rewrite Hex; simpl; rewrite Hrd; simpl; rewrite Hop; reflexivity.
Qed.

Lemma unopenable_pdf_fails_and_leaves_disk_alone_witness :
  outcome (extractText (Cases.world_of (Throw Cases.not_a_pdf))
             Sample.report_pdf) = Throw Cases.not_a_pdf
  /\ extractImages (Cases.world_of (Throw Cases.not_a_pdf))
       Sample.report_pdf Cases.disk_png
     = ([FsExists Sample.report_pdf; FsRead Sample.report_pdf;
         PdfOpen Sample.pdf_bytes], Throw Cases.not_a_pdf).
Proof.
  apply (@unopenable_pdf_fails_and_leaves_disk_alone
           (Cases.world_of (Throw Cases.not_a_pdf)) Sample.report_pdf
           Cases.disk_png Sample.pdf_bytes Cases.not_a_pdf).
  - split; reflexivity.
  - reflexivity.
Defined.

(** X6. A PDF without pages is no error.  [extractText] returns no pages,
    [extractImages] no images and a count of 0; in disk mode the output
    directory is created all the same, and that is all that is written. *)
Theorem zero_page_pdf_gives_empty_results
    (w : World) (p : jsstring) (o : Options) (buf : bytes) (doc : Document) :
  readable w p buf ->
  openDocument w buf = Ok doc ->
  countPages doc = 0 ->
  (exists r, outcome (extractText w p) = Ok r
             /\ tr_totalPages r = 0 /\ tr_pages r = [])
  /\ (disk_ready w p o ->
      outcome (extractImages w p o)
      = Ok {| ir_file := path_resolve w p; ir_totalPages := 0;
              ir_totalImages := 0; ir_images := [] |}
      /\ fs_writes (trace_of (extractImages w p o))
         = if inline_mode o then []
           else match dir_of w p o with
                | JString d => [FsMkdir d]
                | _ => []
                end).
Proof.
  intros Hr Hop Hz; split.
  - destruct (extractText_split Hr) as [-> _].
    unfold extractText_rest.
    rewrite outcome_bind, outcome_mupdf_openDocument, Hop, Hz; simpl.
    eexists; repeat split.
  - destruct Hr as [Hex Hrd]; intros Hdisk.
    unfold disk_ready, inline_mode, dir_of in *.
    unfold extractImages, fs_existsSync, fs_readFileSync, mupdf_openDocument.
    unfold bind, tell, lift, ret; simpl.
    rewrite Hex; simpl; rewrite Hrd; simpl; rewrite Hop, Hz; simpl.
    destruct Hdisk as [Hin | (d & Hd & Hmk & _)].
    + rewrite Hin; simpl.
      split; reflexivity.
    + destruct (default_to false (opt_base64 o)); simpl;
        [split; reflexivity |].
      rewrite Hd; unfold fs_mkdirSync, bind, tell, ret; simpl.
      rewrite Hmk; simpl; split; reflexivity.
Qed.

Lemma zero_page_pdf_gives_empty_results_witness :
  (exists r,
     outcome (extractText (Cases.world_of (Ok Cases.empty_document))
                Sample.report_pdf) = Ok r
     /\ tr_totalPages r = 0 /\ tr_pages r = [])
  /\ outcome (extractImages (Cases.world_of (Ok Cases.empty_document))
                Sample.report_pdf Cases.disk_png)
     = Ok {| ir_file := Sample.report_pdf; ir_totalPages := 0;
             ir_totalImages := 0; ir_images := [] |}
  /\ fs_writes
       (trace_of (extractImages (Cases.world_of (Ok Cases.empty_document))
                    Sample.report_pdf Cases.disk_png))
     = [FsMkdir (lit "/out")].
Proof.
  destruct (@zero_page_pdf_gives_empty_results
              (Cases.world_of (Ok Cases.empty_document)) Sample.report_pdf
              Cases.disk_png Sample.pdf_bytes Cases.empty_document)
    as [Htext Himages].
  - split; reflexivity.
  - reflexivity.
  - reflexivity.
  - split; [exact Htext |].
    apply Himages; right; exists (lit "/out").
    split; [reflexivity | split; [reflexivity | intros; reflexivity]].
Defined.

(* ===================================================================== *)
(** ** What a computation ensures when it returns *)
(* ===================================================================== *)

Lemma ensures_ret {A} (a : A) (Q : list Event -> A -> Prop) :
  Q [] a -> ensures (ret a) Q.
Proof. intros H; exact H. Qed.

Lemma ensures_bind {A B} (m : M A) (f : A -> M B)
    (Q : list Event -> B -> Prop) :
  ensures m (fun t a => ensures (f a) (fun t' b => Q (t ++ t') b)) ->
  ensures (bind m f) Q.
Proof.
  destruct m as [t [a | e]]; simpl; [| trivial].
  destruct (f a) as [t' [b | e]]; simpl; trivial.
Qed.

Lemma ensures_weaken {A} (m : M A) (Q Q' : list Event -> A -> Prop) :
  (forall t a, Q t a -> Q' t a) -> ensures m Q -> ensures m Q'.
Proof. destruct m as [t [a | e]]; simpl; auto. Qed.

(** A [try] whose [catch] falls back on a value that was fine before the
    [try] began, for a property that further calls cannot spoil. *)
Lemma ensures_try_fallback {A} (m : M A) (a0 : A)
    (Q : list Event -> A -> Prop) :
  ensures m Q -> (forall t, Q t a0) ->
  ensures (try_catch m (fun _ => ret a0)) Q.
Proof.
  destruct m as [t [a | e]]; simpl; intros H H0; [exact H | apply H0].
Qed.

Lemma ensures_foldM {A S} (body : S -> A -> M S)
    (I : list Event -> S -> Prop) :
  (forall t0 s a, I t0 s ->
     ensures (body s a) (fun t s' => I (t0 ++ t) s')) ->
  forall l t0 s, I t0 s ->
    ensures (foldM body l s) (fun t s' => I (t0 ++ t) s').
Proof.
  intros Hb; induction l as [| a l IH]; intros t0 s H; simpl.
  - rewrite app_nil_r; exact H.
  - apply ensures_bind.
    apply ensures_weaken with (Q := fun t s' => I (t0 ++ t) s');
      [| apply Hb; exact H].
    intros t s' Hs.
    apply ensures_weaken with (Q := fun t' s'' => I ((t0 ++ t) ++ t') s'');
      [| apply IH; exact Hs].
    intros t' s'' Hs'; rewrite app_assoc; exact Hs'.
Qed.

Lemma ensures_outcome {A} (m : M A) (Q : list Event -> A -> Prop) (a : A) :
  ensures m Q -> outcome m = Ok a -> Q (trace_of m) a.
Proof.
  destruct m as [t [a' | e]]; simpl; intros H E;
    [injection E as <-; exact H | discriminate E].
Qed.

(* ===================================================================== *)
(** ** The files behind the paths *)
(* ===================================================================== *)

Lemma written_files_app (t t' : list Event) :
  written_files (t ++ t') = written_files t ++ written_files t'.
Proof. unfold written_files; apply flat_map_app. Qed.

Lemma ensures_ok {A} (t : list Event) (a : A)
    (Q : list Event -> A -> Prop) :
  Q t a -> ensures (t, Ok a) Q.
Proof. intros H; exact H. Qed.

Lemma ensures_throw {A} (t : list Event) (e : JsError)
    (Q : list Event -> A -> Prop) :
  ensures (t, @Throw A e) Q.
Proof. exact I. Qed.

Lemma doc_loadPage_eq (doc : Document) (i : nat) :
  doc_loadPage doc i = ([PdfLoadPage i], loadPage doc i).
Proof. unfold doc_loadPage; simpl; destruct (loadPage doc i); reflexivity. Qed.

Lemma fs_writeFileSync_eq (w : World) (f : jsstring) (data : bytes) :
  fs_writeFileSync w f data
  = ([FsWrite f data],
     match writeFileSync w f data with
     | None => Ok tt
     | Some e => Throw e
     end).
Proof.
  unfold fs_writeFileSync; simpl; destruct (writeFileSync w f data);
    reflexivity.
Qed.

Section Filing.

Variable w : World.
Variable d : jsstring.
Variable base : jsstring.
Variable format : jsstring.

Let on_disk := filed w d base format.

Lemma filed_later (t t' : list Event) (img : ImageInfo) :
  on_disk t img -> on_disk (t ++ t') img.
Proof.
  intros (Hf & Hp & Hw); split; [exact Hf | split; [exact Hp |]].
  rewrite written_files_app; apply in_or_app; left; exact Hw.
Qed.

Lemma all_filed_later (t t' : list Event) (images : list ImageInfo) :
  Forall (on_disk t) images -> Forall (on_disk (t ++ t')) images.
Proof.
  intros H; apply Forall_forall; intros img Hin.
  rewrite Forall_forall in H; apply filed_later, H, Hin.
Qed.

Let to_disk : EmbedOptions :=
  {| eo_outputDir := JString d; eo_format := format;
     eo_returnBase64 := false |}.

(** The callback, writing to disk, keeps every artifact it holds filed. *)
Lemma onImageBlock_files (i : nat) (t0 : list Event)
    (st : list ImageInfo * nat) (b : ImageBlock) :
  Forall (on_disk t0) (fst st) /\ 1 <= snd st ->
  ensures (onImageBlock w i base to_disk st b)
    (fun t st' => Forall (on_disk (t0 ++ t)) (fst st') /\ 1 <= snd st').
Proof.
  destruct st as [images k]; simpl fst; simpl snd; intros [Hall Hk].
  unfold onImageBlock.
  apply ensures_try_fallback;
    [| intros t; simpl; split; [apply all_filed_later; exact Hall | exact Hk]].
  apply ensures_bind; unfold lift.
  destruct (image_toPixmap b) as [px | e0]; simpl; [| trivial].
  apply ensures_bind; rewrite encode_lift; unfold lift.
  simpl eo_format.
  destruct (encoded format px) as [data | e0]; simpl; [| trivial].
  apply ensures_bind.
  unfold join_path, fs_writeFileSync, bind, tell, ret; simpl.
  match goal with
  | |- context [writeFileSync w ?f ?x] => destruct (writeFileSync w f x)
  end; simpl; [trivial |].
  split; [| lia].
  apply Forall_app; split; [apply all_filed_later; exact Hall |].
  constructor; [| constructor].
  unfold on_disk, filed, artifact_name; simpl.
  destruct k as [| k]; [lia |]; simpl Nat.eqb; cbv iota.
  split; [reflexivity |].
  split; [reflexivity |].
  rewrite written_files_app; apply in_or_app; right; left; reflexivity.
Qed.

Lemma extractEmbeddedImages_files (page : Page) (i : nat) (t0 : list Event) :
  ensures (extractEmbeddedImages w page i base to_disk)
    (fun t es => Forall (on_disk (t0 ++ t)) es).
Proof.
  unfold extractEmbeddedImages.
  apply ensures_bind; unfold lift.
  destruct (page_toStructuredText page) as [stext | e0]; simpl; [| trivial].
  apply ensures_bind.
  apply ensures_weaken with
           (Q := fun t st => Forall (on_disk (t0 ++ t)) (fst st)
                             /\ 1 <= snd st).
  - intros t st [Hall _].
    destruct (walkError stext); simpl; [trivial |].
    rewrite app_nil_r; exact Hall.
  - apply ensures_foldM
      with (I := fun t st => Forall (on_disk t) (fst st) /\ 1 <= snd st).
    + intros t1 st b H; apply onImageBlock_files; exact H.
    + simpl; split; [constructor | lia].
Qed.

Lemma filed_elsewhere (t t' : list Event) (img : ImageInfo) :
  (forall f, In f (written_files t) -> In f (written_files t')) ->
  on_disk t img -> on_disk t' img.
Proof.
  intros Hsub (Hf & Hp & Hw); split; [exact Hf | split; [exact Hp |]].
  apply Hsub; exact Hw.
Qed.

Lemma all_filed_elsewhere (t t' : list Event) (images : list ImageInfo) :
  (forall f, In f (written_files t) -> In f (written_files t')) ->
  Forall (on_disk t) images -> Forall (on_disk t') images.
Proof.
  intros Hsub H; apply Forall_forall; intros img Hin.
  rewrite Forall_forall in H; apply (@filed_elsewhere t t' img Hsub), H, Hin.
Qed.

(** One turn of the page loop, writing to disk, keeps every artifact
    filed. *)
Lemma image_page_files (doc : Document) (scale : JsNumber)
    (t0 : list Event) (images : list ImageInfo) (i : nat) :
  Forall (on_disk t0) images ->
  ensures (image_page w doc (JString d) format false scale base images i)
    (fun t images' => Forall (on_disk (t0 ++ t)) images').
Proof.
  intros Hall; unfold image_page.
  apply ensures_bind; rewrite doc_loadPage_eq.
  destruct (loadPage doc i) as [page | e0];
    [apply ensures_ok | apply ensures_throw].
  apply ensures_bind; unfold lift.
  destruct (page_toPixmap page scale) as [px | e0];
    [apply ensures_ok | apply ensures_throw].
  apply ensures_bind; rewrite encode_lift; unfold lift.
  destruct (encoded format px) as [data | e0];
    [apply ensures_ok | apply ensures_throw].
  apply ensures_bind; cbv iota.
  apply ensures_bind; unfold join_path; apply ensures_ok.
  apply ensures_bind; rewrite fs_writeFileSync_eq.
  match goal with
  | |- context [writeFileSync w ?f ?x] => destruct (writeFileSync w f x)
  end; [apply ensures_throw | apply ensures_ok].
  apply ensures_ok.
  match goal with
  | |- ensures (try_catch _ (fun _ => ret (images ++ [?info]))) _ =>
      assert (Hr : on_disk
                     [FsWrite
                        (path_join w d
                           (base +++ lit "_page_" +++ String_of_nat (i + 1)
                            +++ lit "." +++ ext_of format)) data]
                     info)
  end.
  { unfold on_disk, filed, artifact_name; simpl.
    split; [reflexivity | split; [reflexivity | left; reflexivity]]. }
  apply ensures_try_fallback.
  - apply ensures_bind.
    apply ensures_weaken with
      (Q := fun t es => Forall (on_disk ([] ++ t)) es);
      [| apply extractEmbeddedImages_files].
    intros t es Hes; apply ensures_ok.
    repeat (apply Forall_app; split).
    + revert Hall; apply all_filed_elsewhere; intros f Hf.
      rewrite !written_files_app, !in_app_iff; tauto.
    + constructor; [| constructor].
      revert Hr; apply filed_elsewhere; intros f Hf.
      rewrite !written_files_app, !in_app_iff; tauto.
    + revert Hes; apply all_filed_elsewhere; intros f Hf.
      rewrite !written_files_app, !in_app_iff; tauto.
  - intros t; apply Forall_app; split.
    + revert Hall; apply all_filed_elsewhere; intros f Hf.
      rewrite !written_files_app, !in_app_iff; tauto.
    + constructor; [| constructor].
      revert Hr; apply filed_elsewhere; intros f Hf.
      rewrite !written_files_app, !in_app_iff; tauto.
Qed.

End Filing.

Lemma fs_readFileSync_eq (w : World) (p : jsstring) :
  fs_readFileSync w p = ([FsRead p], readFileSync w p).
Proof.
  unfold fs_readFileSync; simpl; destruct (readFileSync w p); reflexivity.
Qed.

Lemma mupdf_openDocument_eq (w : World) (data : bytes) :
  mupdf_openDocument w data = ([PdfOpen data], openDocument w data).
Proof.
  unfold mupdf_openDocument; simpl; destruct (openDocument w data);
    reflexivity.
Qed.

Lemma fs_mkdirSync_eq (w : World) (d : jsstring) :
  fs_mkdirSync w (JString d)
  = ([FsMkdir d],
     match mkdirSync w d with
     | None => Ok tt
     | Some e => Throw e
     end).
Proof.
  unfold fs_mkdirSync; simpl; destruct (mkdirSync w d); reflexivity.
Qed.

Lemma extractImages_files
    (w : World) (p : jsstring) (o : Options) (d : jsstring) :
  inline_mode o = false ->
  dir_of w p o = JString d ->
  ensures (extractImages w p o)
    (fun t r =>
       Forall (filed w d (base_of w p) (format_of o) t) (ir_images r)).
Proof.
  unfold inline_mode, dir_of, format_of, base_of; intros Hin Hd.
  unfold extractImages; rewrite Hin, Hd.
  apply ensures_bind; apply ensures_ok.
  destruct (existsSync w (path_resolve w p)); cbn [negb];
    [| apply ensures_throw].
  cbv zeta.
  apply ensures_bind; rewrite fs_readFileSync_eq.
  destruct (readFileSync w (path_resolve w p)) as [data | e0];
    [apply ensures_ok | apply ensures_throw].
  apply ensures_bind; rewrite mupdf_openDocument_eq.
  destruct (openDocument w data) as [doc | e0];
    [apply ensures_ok | apply ensures_throw].
  apply ensures_bind; cbn [negb]; rewrite fs_mkdirSync_eq.
  destruct (mkdirSync w d); [apply ensures_throw | apply ensures_ok].
  apply ensures_bind.
  match goal with
  | |- ensures (foldM ?body ?l ?s) _ =>
      apply ensures_weaken with
        (Q := fun t images =>
                Forall (filed w d
                          (path_basename w (path_resolve w p)
                             (path_extname w (path_resolve w p)))
                          (default_to (lit "png") (opt_format o))
                          ([] ++ t)) images)
  end.
  - intros t images H; apply ensures_ok; simpl ir_images.
    revert H; apply all_filed_elsewhere; intros f Hf.
    rewrite !written_files_app, !in_app_iff; tauto.
  - apply ensures_foldM with
      (I := fun t images =>
              Forall (filed w d
                        (path_basename w (path_resolve w p)
                           (path_extname w (path_resolve w p)))
                        (default_to (lit "png") (opt_format o)) t) images).
    + intros t0 s i H; apply image_page_files; exact H.
    + constructor.
Qed.

(** X7. In disk mode every artifact [extractImages] returns names a file
    that was written during the call: its path is the output directory
    joined with [<base>_page_<n>.<ext>] for a page render and
    [<base>_page_<n>_img_<k>.<ext>] for an embedded image, where the
    extension is jpg for jpeg and png otherwise; and its [format] is the
    format that was asked for. *)
Theorem disk_artifacts_are_named_and_written
    (w : World) (p : jsstring) (o : Options) (d : jsstring)
    (r : ImageResult) :
  outcome (extractImages w p o) = Ok r ->
  inline_mode o = false ->
  dir_of w p o = JString d ->
  (forall img, In img (ir_images r) ->
     img_format img = format_of o
     /\ img_path img
        = Some (path_join w d
                  (artifact_name (base_of w p) (format_of o) img))
     /\ In (path_join w d (artifact_name (base_of w p) (format_of o) img))
           (written_files (trace_of (extractImages w p o))))
  /\ ext_of (lit "jpeg") = lit "jpg"
  /\ ext_of (lit "png") = lit "png".
Proof.
  intros Hout Hin Hd; split; [| split; reflexivity].
  pose proof (@ensures_outcome _ _ _ r (extractImages_files w p o Hin Hd) Hout)
    as H.
  rewrite Forall_forall in H; exact H.
Qed.

Lemma disk_artifacts_are_named_and_written_witness :
  (forall img, In img (ir_images Cases.disk_result) ->
     img_format img = lit "png"
     /\ img_path img
        = Some (Sample.join (lit "/out")
                  (artifact_name (lit "report") (lit "png") img))
     /\ In (Sample.join (lit "/out")
              (artifact_name (lit "report") (lit "png") img))
           (written_files
              (trace_of (extractImages (Sample.world Sample.parsed_ok)
                           Sample.report_pdf Cases.disk_png))))
  /\ ext_of (lit "jpeg") = lit "jpg"
  /\ ext_of (lit "png") = lit "png".
Proof.
  apply (@disk_artifacts_are_named_and_written
           (Sample.world Sample.parsed_ok) Sample.report_pdf Cases.disk_png
           (lit "/out") Cases.disk_result); reflexivity.
Defined.

(* ===================================================================== *)
(** ** The pixmap behind each artifact *)
(* ===================================================================== *)

Lemma ensures_always {A} (m : M A) (Q : list Event -> A -> Prop) :
  (forall t a, Q t a) -> ensures m Q.
Proof. destruct m as [t [a | e]]; simpl; auto. Qed.

(** [ensures_foldM] for a body that is only known on the elements of the
    list. *)
Lemma ensures_foldM_in {A S} (body : S -> A -> M S)
    (I : list Event -> S -> Prop) (l : list A) :
  (forall t0 s a, In a l -> I t0 s ->
     ensures (body s a) (fun t s' => I (t0 ++ t) s')) ->
  forall t0 s, I t0 s ->
    ensures (foldM body l s) (fun t s' => I (t0 ++ t) s').
Proof.
  induction l as [| a l IH]; intros Hb t0 s H; simpl.
  - rewrite app_nil_r; exact H.
  - apply ensures_bind.
    apply ensures_weaken with (Q := fun t s' => I (t0 ++ t) s');
      [| apply Hb; [left; reflexivity | exact H]].
    intros t s' Hs.
    apply ensures_weaken with (Q := fun t' s'' => I ((t0 ++ t) ++ t') s'');
      [| apply IH; [| exact Hs]].
    + intros t' s'' Hs'; rewrite app_assoc; exact Hs'.
    + intros t1 s1 a1 Hin; apply Hb; right; exact Hin.
Qed.

Lemma toBase64_empty (buf : bytes) : toBase64 buf = [] <-> buf = [].
Proof.
  split; [| intros ->; reflexivity].
  destruct buf as [| b buf]; [reflexivity |].
  intros H; exfalso; revert H; apply toBase64_populated; discriminate.
Qed.

Section Presenting.

Variable w : World.
Variable doc : Document.
Variable scale : JsNumber.
Variable format : jsstring.
Variable base : jsstring.

Let shown := presented doc scale format.

Lemma presented_elsewhere (inline : bool) (t t' : list Event)
    (img : ImageInfo) :
  (forall e, In e t -> In e t') -> shown inline t img -> shown inline t' img.
Proof.
  intros Hsub (px & data & Hown & Hw & Hh & He & Hd).
  exists px, data; split; [exact Hown |].
  split; [exact Hw | split; [exact Hh | split; [exact He |]]].
  destruct inline; [exact Hd |].
  destruct Hd as (Hb & Hm & f & Hp & Hin).
  split; [exact Hb | split; [exact Hm |]].
  exists f; split; [exact Hp | apply Hsub; exact Hin].
Qed.

Lemma all_presented_elsewhere (inline : bool) (t t' : list Event)
    (images : list ImageInfo) :
  (forall e, In e t -> In e t') ->
  Forall (shown inline t) images -> Forall (shown inline t') images.
Proof.
  intros Hsub H; apply Forall_forall; intros img Hin.
  rewrite Forall_forall in H.
  apply (@presented_elsewhere inline t t' img Hsub), H, Hin.
Qed.

Let eo (dir : JsVal) (inline : bool) : EmbedOptions :=
  {| eo_outputDir := dir; eo_format := format; eo_returnBase64 := inline |}.

(** The callback: what it adds presents the pixmap of the block it was
    called on. *)
Lemma onImageBlock_presents (dir : JsVal) (inline : bool) (i : nat) (pg : Page) (stext : StructuredText)
    (t0 : list Event) (st : list ImageInfo * nat) (b : ImageBlock) :
  loadPage doc i = Ok pg ->
  page_toStructuredText pg = Ok stext ->
  In b (imageBlocks stext) ->
  Forall (shown inline t0) (fst st) /\ 1 <= snd st ->
  ensures (onImageBlock w i base (eo dir inline) st b)
    (fun t st' => Forall (shown inline (t0 ++ t)) (fst st') /\ 1 <= snd st').
Proof.
  destruct st as [images k]; simpl fst; simpl snd.
  intros Hpg Hst Hb [Hall Hk].
  assert (Hkeep : forall t, Forall (shown inline (t0 ++ t)) images).
  { intros t; revert Hall; apply all_presented_elsewhere; intros e He.
    apply in_or_app; left; exact He. }
  unfold onImageBlock.
  apply ensures_try_fallback;
    [| intros t; simpl; split; [apply Hkeep | exact Hk]].
  apply ensures_bind; unfold lift.
  destruct (image_toPixmap b) as [px | e0] eqn:Hpx;
    [apply ensures_ok | apply ensures_throw].
  apply ensures_bind; rewrite encode_lift; unfold lift.
  simpl eo_format.
  destruct (encoded format px) as [data | e0] eqn:Hdata;
    [apply ensures_ok | apply ensures_throw].
  assert (Hown : forall img,
             img_page img = i + 1 -> img_imageIndex img = k ->
             own_pixmap doc scale img px).
  { intros img Hp Hi; exists i, pg.
    split; [exact Hp | split; [exact Hpg |]].
    rewrite Hi; destruct k as [| k']; [lia |]; simpl Nat.eqb; cbv iota.
    exists stext, b; split; [exact Hst | split; [exact Hb | exact Hpx]]. }
  apply ensures_bind; simpl eo_returnBase64; simpl eo_outputDir.
  destruct inline.
  - apply ensures_ok; apply ensures_ok; simpl fst; simpl snd.
    split; [| lia].
    apply Forall_app; split; [apply Hkeep |].
    constructor; [| constructor].
    exists px, data; split; [apply Hown; reflexivity |].
    split; [reflexivity | split; [reflexivity | split; [exact Hdata |]]].
    split; [reflexivity | split; reflexivity].
  - cbv zeta; apply ensures_bind; unfold join_path.
    destruct dir as [| | d];
      [apply ensures_throw | apply ensures_throw | apply ensures_ok].
    apply ensures_bind; rewrite fs_writeFileSync_eq.
    match goal with
    | |- context [writeFileSync w ?f ?x] => destruct (writeFileSync w f x)
    end; [apply ensures_throw | apply ensures_ok].
    apply ensures_ok; apply ensures_ok; simpl fst; simpl snd.
    split; [| lia].
    apply Forall_app; split; [apply Hkeep |].
    constructor; [| constructor].
    exists px, data; split; [apply Hown; reflexivity |].
    split; [reflexivity | split; [reflexivity | split; [exact Hdata |]]].
    split; [reflexivity | split; [reflexivity |]].
    eexists; split; [reflexivity |].
    rewrite !in_app_iff; simpl; tauto.
Qed.

Lemma extractEmbeddedImages_presents (dir : JsVal) (inline : bool)
    (i : nat) (pg : Page)
    (t0 : list Event) :
  loadPage doc i = Ok pg ->
  ensures (extractEmbeddedImages w pg i base (eo dir inline))
    (fun t es => Forall (shown inline (t0 ++ t)) es).
Proof.
  intros Hpg; unfold extractEmbeddedImages.
  apply ensures_bind; unfold lift.
  destruct (page_toStructuredText pg) as [stext | e0] eqn:Hst;
    [apply ensures_ok | apply ensures_throw].
  apply ensures_bind.
  apply ensures_weaken with
           (Q := fun t st => Forall (shown inline ((t0 ++ []) ++ t)) (fst st)
                             /\ 1 <= snd st).
  - intros t st [Hall _].
    destruct (walkError stext); [apply ensures_throw | apply ensures_ok].
    revert Hall; apply all_presented_elsewhere; intros e He.
    rewrite !in_app_iff in *; simpl in *; tauto.
  - apply ensures_foldM_in
      with (I := fun t st => Forall (shown inline t) (fst st) /\ 1 <= snd st).
    + intros t1 st b Hb H.
      apply (@onImageBlock_presents dir inline i pg stext t1 st b Hpg Hst Hb H).
    + simpl; split; [constructor | lia].
Qed.

(** One turn of the page loop: the render presents what the page
    rasterised to, and the embedded artifacts their blocks' pixmaps. *)
Lemma image_page_presents (dir : JsVal) (inline : bool)
    (t0 : list Event) (images : list ImageInfo)
    (i : nat) :
  Forall (shown inline t0) images ->
  ensures (image_page w doc dir format inline scale base images i)
    (fun t images' => Forall (shown inline (t0 ++ t)) images').
Proof.
  intros Hall; unfold image_page.
  apply ensures_bind; rewrite doc_loadPage_eq.
  destruct (loadPage doc i) as [pg | e0] eqn:Hpg;
    [apply ensures_ok | apply ensures_throw].
  apply ensures_bind; unfold lift.
  destruct (page_toPixmap pg scale) as [px | e0] eqn:Hpx;
    [apply ensures_ok | apply ensures_throw].
  apply ensures_bind; rewrite encode_lift; unfold lift.
  destruct (encoded format px) as [data | e0] eqn:Hdata;
    [apply ensures_ok | apply ensures_throw].
  assert (Hown : forall img,
             img_page img = i + 1 -> img_imageIndex img = 0 ->
             own_pixmap doc scale img px).
  { intros img Hp Hi; exists i, pg.
    split; [exact Hp | split; [exact Hpg |]].
    rewrite Hi; exact Hpx. }
  assert (Hrest : forall (t1 : list Event) (info : ImageInfo),
             shown inline t1 info ->
             ensures
               (try_catch
                  (embeddedImages <- extractEmbeddedImages w pg i base (eo dir inline) ;;
                   ret ((images ++ [info]) ++ embeddedImages))
                  (fun _ => ret (images ++ [info])))
               (fun t images' =>
                  Forall (shown inline ((t0 ++ t1) ++ t)) images')).
  { intros t1 info Hinfo.
    assert (Hfirst : forall t, Forall (shown inline ((t0 ++ t1) ++ t))
                                 (images ++ [info])).
    { intros t; apply Forall_app; split.
      - revert Hall; apply all_presented_elsewhere; intros e He.
        rewrite !in_app_iff; tauto.
      - constructor; [| constructor].
        revert Hinfo; apply presented_elsewhere; intros e He.
        rewrite !in_app_iff; tauto. }
    apply ensures_try_fallback; [| intros t; apply Hfirst].
    apply ensures_bind.
    apply ensures_weaken with
      (Q := fun t es => Forall (shown inline ((t0 ++ t1) ++ t)) es);
      [| apply extractEmbeddedImages_presents; exact Hpg].
    intros t es Hes; apply ensures_ok.
    apply Forall_app; split; [apply Hfirst |].
    revert Hes; apply all_presented_elsewhere; intros e He.
    rewrite !in_app_iff in *; simpl; tauto. }
  apply ensures_bind.
  destruct inline.
  - apply ensures_ok; cbv zeta.
    eapply ensures_weaken; [| apply (Hrest [])].
    + intros t images' H; revert H; apply all_presented_elsewhere.
      intros e He; rewrite !in_app_iff in *; simpl in *; tauto.
    + exists px, data; split; [apply Hown; reflexivity |].
      split; [reflexivity | split; [reflexivity | split; [exact Hdata |]]].
      split; [reflexivity | split; reflexivity].
  - cbv zeta; apply ensures_bind; unfold join_path.
    destruct dir as [| | d];
      [apply ensures_throw | apply ensures_throw | apply ensures_ok].
    apply ensures_bind; rewrite fs_writeFileSync_eq.
    match goal with
    | |- context [writeFileSync w ?f ?x] => destruct (writeFileSync w f x)
    end; [apply ensures_throw | apply ensures_ok].
    apply ensures_ok.
    match goal with
    | |- context [FsWrite ?f ?x] =>
        eapply ensures_weaken; [| apply (Hrest [FsWrite f x])]
    end.
    + intros t images' H; revert H; apply all_presented_elsewhere.
      intros e He; rewrite !in_app_iff in *; simpl in *; tauto.
    + exists px, data; split; [apply Hown; reflexivity |].
      split; [reflexivity | split; [reflexivity | split; [exact Hdata |]]].
      split; [reflexivity | split; [reflexivity |]].
      eexists; split; [reflexivity | left; reflexivity].
Qed.

End Presenting.

Lemma extractImages_presents (w : World) (p : jsstring) (o : Options) :
  ensures (extractImages w p o)
    (fun t r =>
       exists buf doc,
         readable w p buf
         /\ openDocument w buf = Ok doc
         /\ Forall (presented doc (scale_of o) (format_of o) (inline_mode o) t)
                   (ir_images r)).
Proof.
  unfold inline_mode, format_of, scale_of, readable.
  unfold extractImages.
  apply ensures_bind; apply ensures_ok.
  destruct (existsSync w (path_resolve w p)) eqn:Hex; cbn [negb];
    [| apply ensures_throw].
  cbv zeta.
  apply ensures_bind; rewrite fs_readFileSync_eq.
  destruct (readFileSync w (path_resolve w p)) as [data | e0] eqn:Hrd;
    [apply ensures_ok | apply ensures_throw].
  apply ensures_bind; rewrite mupdf_openDocument_eq.
  destruct (openDocument w data) as [doc | e0] eqn:Hop;
    [apply ensures_ok | apply ensures_throw].
  apply ensures_bind; apply ensures_always; intros t1 _.
  apply ensures_bind.
  match goal with
  | |- ensures (foldM ?body ?l ?s) _ =>
      apply ensures_weaken with
        (Q := fun t images =>
                Forall (presented doc
                          (default_to 150%float (opt_dpi o) / 72)%float
                          (default_to (lit "png") (opt_format o))
                          (default_to false (opt_base64 o))
                          ([] ++ t)) images)
  end.
  - intros t images H; apply ensures_ok; simpl ir_images.
    exists data, doc; split; [split; [reflexivity | reflexivity] |].
    split; [exact Hop |].
    revert H; apply all_presented_elsewhere; intros e He.
    rewrite !in_app_iff in *; simpl in *; tauto.
  - apply ensures_foldM with
      (I := fun t images =>
              Forall (presented doc
                        (default_to 150%float (opt_dpi o) / 72)%float
                        (default_to (lit "png") (opt_format o))
                        (default_to false (opt_base64 o)) t) images).
    + intros t0 s i H; apply image_page_presents; exact H.
    + constructor.
Qed.

(** C9. Every artifact [extractImages] returns is delivered in exactly one
    way, and what it delivers is the encoding of its own pixmap: the pixmap
    its page rasterised to, for a page render, or the pixmap of an image
    block of its page, for an embedded image.  With [data] the bytes that
    pixmap encoded to in the requested format: in inline mode the artifact
    has no [path], its [base64] is the base64 text of [data] (empty only if
    [data] is), and its [mimeType] is the one of the format -- image/jpeg
    for jpeg, image/png for png; otherwise it has neither [base64] nor
    [mimeType], and its [path] names a file to which [data] was written
    during the call. *)
Theorem artifact_is_inline_or_on_disk
    (w : World) (p : jsstring) (o : Options) (r : ImageResult)
    (img : ImageInfo) :
  outcome (extractImages w p o) = Ok r ->
  In img (ir_images r) ->
  (exists buf doc px data,
     readable w p buf
     /\ openDocument w buf = Ok doc
     /\ own_pixmap doc (scale_of o) img px
     /\ encoded (format_of o) px = Ok data
     /\ (toBase64 data = [] <-> data = [])
     /\ if inline_mode o
        then img_path img = None
             /\ img_mimeType img = Some (mime_of (format_of o))
             /\ img_base64 img = Some (toBase64 data)
        else img_base64 img = None
             /\ img_mimeType img = None
             /\ exists f,
                  img_path img = Some f
                  /\ In (FsWrite f data) (trace_of (extractImages w p o)))
  /\ mime_of (lit "jpeg") = lit "image/jpeg"
  /\ mime_of (lit "png") = lit "image/png".
Proof.
  intros Hout Hin; split; [| split; reflexivity].
  pose proof (@ensures_outcome _ _ _ r (extractImages_presents w p o) Hout)
    as (buf & doc & Hr & Hop & Hall).
  rewrite Forall_forall in Hall.
  destruct (Hall img Hin) as (px & data & Hown & _ & _ & He & Hd).
  exists buf, doc, px, data.
  split; [exact Hr | split; [exact Hop | split; [exact Hown |]]].
  split; [exact He | split; [apply toBase64_empty |]].
  destruct (inline_mode o).
  - destruct Hd as (Hp & Hm & Hb).
    split; [exact Hp | split; [exact Hm | exact Hb]].
  - exact Hd.
Qed.

Lemma artifact_is_inline_or_on_disk_witness :
  (exists buf doc px data,
     readable (Sample.world Sample.parsed_ok) Sample.report_pdf buf
     /\ openDocument (Sample.world Sample.parsed_ok) buf = Ok doc
     /\ own_pixmap doc (scale_of Sample.inline_jpeg) Sample.first_inline px
     /\ encoded (lit "jpeg") px = Ok data
     /\ (toBase64 data = [] <-> data = [])
     /\ img_path Sample.first_inline = None
     /\ img_mimeType Sample.first_inline = Some (lit "image/jpeg")
     /\ img_base64 Sample.first_inline = Some (toBase64 data))
  /\ mime_of (lit "jpeg") = lit "image/jpeg"
  /\ mime_of (lit "png") = lit "image/png".
Proof.
  apply (@artifact_is_inline_or_on_disk
           (Sample.world Sample.parsed_ok) Sample.report_pdf
           Sample.inline_jpeg Sample.inline_result Sample.first_inline).
  - reflexivity.
  - left; reflexivity.
Defined.


(* ===================================================================== *)
(** ** A walk that throws *)
(* ===================================================================== *)

Lemma extractEmbeddedImages_throws
    (w : World) (page : Page) (i : nat) (base : jsstring)
    (eo : EmbedOptions) :
  match page_toStructuredText page with
  | Throw _ => True
  | Ok st => walkError st <> None
  end ->
  exists e, outcome (extractEmbeddedImages w page i base eo) = Throw e.
Proof.
  unfold extractEmbeddedImages; rewrite outcome_bind, outcome_lift.
  destruct (page_toStructuredText page) as [st | e0];
    [| intros _; exists e0; reflexivity].
  intros Hw; rewrite outcome_bind.
  destruct (embedded_loop w i base eo (imageBlocks st) [] 1) as (es & Ho & _).
  rewrite Ho; destruct (walkError st) as [e |];
    [exists e; reflexivity | contradiction Hw; reflexivity].
Qed.

Section WalkFails.

Variable w : World.
Variable doc : Document.
Variable outputDir : JsVal.
Variable format : jsstring.
Variable returnBase64 : bool.
Variable scale : JsNumber.
Variable pdfBaseName : jsstring.

Let body :=
  image_page w doc outputDir format returnBase64 scale pdfBaseName.

(** When the walk over page [i] throws, the turn of the loop adds the
    page render and nothing else. *)
Lemma image_page_walk_fails (images images' : list ImageInfo) (i : nat) :
  walk_fails doc i ->
  outcome (body images i) = Ok images' ->
  exists info, images' = images ++ [info].
Proof.
  intros (pg & Hl & Hw); unfold body, image_page.
  rewrite outcome_bind, outcome_doc_loadPage, Hl.
  rewrite outcome_bind, outcome_lift.
  destruct (page_toPixmap pg scale) as [px | e0]; [| discriminate].
  rewrite outcome_bind, encode_lift, outcome_lift.
  destruct (encoded format px) as [data | e0]; [| discriminate].
  rewrite outcome_bind.
  match goal with
  | |- match outcome ?m with _ => _ end = _ -> _ =>
      destruct (outcome m) as [info | e0]; [| discriminate]
  end.
  rewrite outcome_try_catch, outcome_bind.
  destruct (extractEmbeddedImages_throws w pg i pdfBaseName
              {| eo_outputDir := outputDir; eo_format := format;
                 eo_returnBase64 := returnBase64 |} Hw) as (e & He).
  rewrite He; simpl; intros [= <-]; exists info; reflexivity.
Qed.

Lemma image_loop_groups_walk (n : nat) :
  forall (a : nat) (images images' : list ImageInfo),
    outcome (foldM body (seq a n) images) = Ok images' ->
    exists groups,
      images' = images ++ flatten groups
      /\ List.length groups = n
      /\ forall k g, nth_error groups k = Some g ->
           group_of_page w doc outputDir format returnBase64 (a + k) g
           /\ (walk_fails doc (a + k) -> snd g = []).
Proof.
  induction n as [| n IH]; intros a images images' H.
  - injection H as <-. exists []; simpl; rewrite app_nil_r.
    split; [reflexivity | split; [reflexivity |]].
    intros [| k] g E; discriminate E.
  - simpl seq in H; simpl foldM in H.
    apply outcome_bind_inv in H; destruct H as (mid & H1 & H2).
    pose proof H1 as H1'.
    apply image_page_adds_group in H1; destruct H1 as (g & Hmid & Hg).
    apply IH in H2; destruct H2 as (groups & -> & Hlen & Hk).
    exists (g :: groups); split; [| split].
    + rewrite Hmid; unfold flatten; simpl; rewrite <- app_assoc; reflexivity.
    + simpl; f_equal; exact Hlen.
    + intros [| k] g' E; simpl in E.
      * injection E as <-; rewrite Nat.add_0_r; split; [exact Hg |].
        intros Hw.
        destruct (@image_page_walk_fails images mid a Hw H1') as (info & Hi).
        rewrite Hmid in Hi; apply app_inv_head in Hi.
        injection Hi as _ Hs; exact Hs.
      * replace (a + S k) with (S a + k) by lia; exact (Hk k g' E).
Qed.

End WalkFails.

Lemma extractImages_groups_walk
    (w : World) (p : jsstring) (o : Options) (r : ImageResult)
    (buf : bytes) (doc : Document) :
  outcome (extractImages w p o) = Ok r ->
  readable w p buf ->
  openDocument w buf = Ok doc ->
  exists groups,
    ir_images r = flatten groups
    /\ List.length groups = countPages doc
    /\ page_groups 0 groups
    /\ forall k g, nth_error groups k = Some g ->
         walk_fails doc k -> snd g = [].
Proof.
  unfold extractImages; intros H [Hex Hrd] Hop.
  rewrite outcome_bind, outcome_fs_existsSync, Hex in H.
  cbn [negb] in H; cbv zeta in H.
  rewrite outcome_bind, outcome_fs_readFileSync, Hrd in H.
  rewrite outcome_bind, outcome_mupdf_openDocument, Hop in H.
  apply outcome_bind_inv in H; destruct H as (u & _ & H).
  apply outcome_bind_inv in H; destruct H as (images & Hloop & H).
  injection H as <-.
  apply image_loop_groups_walk in Hloop.
  destruct Hloop as (groups & Himg & Hlen & Hk).
  exists groups; simpl.
  split; [exact Himg | split; [exact Hlen | split]].
  - intros k g E; destruct (Hk k g E) as [(Hr & Hrun & _) _].
    split; assumption.
  - intros k g E; apply (Hk k g E).
Qed.

Lemma filter_all {A} (f : A -> bool) (l : list A) :
  Forall (fun x => f x = true) l -> filter f l = l.
Proof.
  induction 1 as [| x l Hx _ IH]; simpl; [reflexivity |].
  rewrite Hx, IH; reflexivity.
Qed.

Lemma filter_none {A} (f : A -> bool) (l : list A) :
  Forall (fun x => f x = false) l -> filter f l = [].
Proof.
  induction 1 as [| x l Hx _ IH]; simpl; [reflexivity |].
  rewrite Hx; exact IH.
Qed.

Lemma group_pages (from : nat) (groups : list Group) (k : nat) (g : Group) :
  page_groups from groups ->
  nth_error groups k = Some g ->
  Forall (fun img => img_page img = from + k + 1) (fst g :: snd g).
Proof.
  intros H E; destruct (H k g E) as [(Hp & _) Hrun].
  constructor; [exact Hp |].
  apply Forall_forall; intros e Hin.
  destruct (In_nth_error _ _ Hin) as (j & Ej).
  apply (Hrun j e Ej).
Qed.

(** Picking the artifacts of one page number out of the whole sequence
    gives back that page's group. *)
Lemma filter_flatten (groups : list Group) :
  forall from,
    page_groups from groups ->
    forall k g, nth_error groups k = Some g ->
      filter (fun img => Nat.eqb (img_page img) (from + k + 1))
             (flatten groups)
      = fst g :: snd g.
Proof.
  induction groups as [| g0 groups IH]; intros from H k g E;
    [destruct k; discriminate E |].
  assert (Htail : page_groups (S from) groups).
  { intros j g' Ej; replace (S from + j) with (from + S j) by lia.
    exact (H (S j) g' Ej). }
  pose proof (@group_pages from (g0 :: groups) 0 g0 H eq_refl) as Hhead.
  destruct (@flatten_sorted groups (S from) Htail) as [_ Hpast].
  change (flatten (g0 :: groups))
    with ((fst g0 :: snd g0) ++ flatten groups).
  rewrite filter_app.
  destruct k as [| k]; simpl in E.
  - injection E as <-.
    rewrite filter_all, filter_none; [apply app_nil_r | |].
    + revert Hpast; apply Forall_impl; intros img Hlt.
      apply Nat.eqb_neq; lia.
    + revert Hhead; apply Forall_impl; intros img ->.
      apply Nat.eqb_refl.
  - rewrite filter_none.
    + replace (from + S k + 1) with (S from + k + 1) by lia.
      apply (IH (S from) Htail k g E).
    + revert Hhead; apply Forall_impl; intros img ->.
      apply Nat.eqb_neq; lia.
Qed.

Lemma flat_map_groups (f : nat -> list ImageInfo) (groups : list Group) :
  forall from,
    (forall k g, nth_error groups k = Some g ->
       f (from + k + 1) = fst g :: snd g) ->
    flat_map f (seq (from + 1) (List.length groups)) = flatten groups.
Proof.
  induction groups as [| g groups IH]; intros from H; [reflexivity |].
  simpl List.length; simpl seq; simpl flat_map.
  change (flatten (g :: groups)) with ((fst g :: snd g) ++ flatten groups).
  rewrite <- (H 0 g eq_refl), Nat.add_0_r; f_equal.
  replace (S (from + 1)) with (S from + 1) by lia.
  apply IH; intros k g' E.
  replace (S from + k + 1) with (from + S k + 1) by lia.
  exact (H (S k) g' E).
Qed.

(** X8. When the walk over a page's content throws, that page still has
    its render and has nothing else: whatever embedded images the walk had
    already turned into artifacts are dropped with it, and the pages around
    it are not affected -- the call still returns. *)
Theorem page_with_failed_walk_keeps_only_its_render
    (w : World) (p : jsstring) (o : Options) (r : ImageResult)
    (buf : bytes) (doc : Document) (k : nat) :
  outcome (extractImages w p o) = Ok r ->
  readable w p buf ->
  openDocument w buf = Ok doc ->
  k < countPages doc ->
  walk_fails doc k ->
  exists render,
    images_of_page r (k + 1) = [render]
    /\ is_render k render.
Proof.
  intros Hout Hr Hop Hk Hw.
  destruct (@extractImages_groups_walk w p o r buf doc Hout Hr Hop)
    as (groups & Himg & Hlen & Hpg & Hwalk).
  destruct (nth_error groups k) as [g |] eqn:E.
  - exists (fst g); unfold images_of_page; rewrite Himg.
    pose proof (@filter_flatten groups 0 Hpg k g E) as Hf.
    simpl in Hf; rewrite Hf.
    rewrite (Hwalk k g E Hw); split; [reflexivity |].
    apply (Hpg k g E).
  - apply nth_error_None in E; lia.
Qed.

Lemma page_with_failed_walk_keeps_only_its_render_witness :
  exists render,
    images_of_page Cases.interrupted_result (0 + 1) = [render]
    /\ is_render 0 render.
Proof.
  apply (@page_with_failed_walk_keeps_only_its_render
           (Cases.world_of (Ok Cases.interrupted_document))
           Sample.report_pdf Cases.disk_png Cases.interrupted_result
           Sample.pdf_bytes Cases.interrupted_document 0).
  - reflexivity.
  - split; reflexivity.
  - reflexivity.
  - simpl; lia.
  - exists Cases.interrupted_page; split; [reflexivity |].
    simpl; discriminate.
Defined.

(** The files of an interrupted walk stay behind: in the interrupted
    world three files are written for page 1, one artifact is returned. *)
Example interrupted_walk_leaves_files :
  written_files
    (trace_of (extractImages (Cases.world_of (Ok Cases.interrupted_document))
                 Sample.report_pdf Cases.disk_png))
  = [lit "/out/report_page_1.png"; lit "/out/report_page_1_img_1.png";
     lit "/out/report_page_1_img_2.png"; lit "/out/report_page_2.png"]
  /\ map img_path (ir_images Cases.interrupted_result)
     = [Some (lit "/out/report_page_1.png");
        Some (lit "/out/report_page_2.png")].
Proof. split; reflexivity. Qed.

(* ===================================================================== *)
(** ** [extractAll]: nothing lost, nothing partial *)
(* ===================================================================== *)

Lemma extractText_pages_numbered
    (w : World) (p : jsstring) (r : TextResult) (buf : bytes)
    (doc : Document) :
  outcome (extractText w p) = Ok r ->
  readable w p buf ->
  openDocument w buf = Ok doc ->
  tr_totalPages r = countPages doc
  /\ map pt_page (tr_pages r) = seq 1 (countPages doc).
Proof.
  intros Hout Hr Hop.
  destruct (@extractText_inv w p r Hout) as (buf' & doc' & Hr' & Hop' & Hp).
  assert (buf' = buf) as ->.
  { destruct Hr as [_ H1], Hr' as [_ H2]; congruence. }
  assert (doc' = doc) as -> by congruence.
  destruct (extractText_rest_ok w (path_resolve w p) buf
              (metadata_after (PDFParse w buf)) Hop Hp)
    as (pages & Hres & Hm & _).
  destruct (@extractText_split w p buf Hr) as [Ho _].
  rewrite Ho, Hres in Hout; injection Hout as <-; simpl.
  split; [reflexivity | exact Hm].
Qed.

Lemma combined_images_by_number (images : list ImageInfo)
    (pages : list PageText) :
  flat_map cp_images
    (map (fun p =>
            {| cp_page := pt_page p; cp_text := pt_text p;
               cp_images :=
                 filter (fun img => Nat.eqb (img_page img) (pt_page p))
                        images |}) pages)
  = flat_map (fun n => filter (fun img => Nat.eqb (img_page img) n) images)
      (map pt_page pages).
Proof.
  induction pages as [| pt pages IH]; simpl; [reflexivity |].
  rewrite IH; reflexivity.
Qed.

(** X9. Grouping by page loses and repeats nothing: when both extractions
    succeed, the [images] of the pages of the combined result, read page
    after page, are the images of the image result in their order; so
    [totalImages] is the number of artifacts the pages hold, and
    [totalPages] the number of pages. *)
Theorem extractAll_keeps_every_artifact
    (w : World) (p : jsstring) (o : Options)
    (tr : TextResult) (ir : ImageResult) :
  outcome (extractText w p) = Ok tr ->
  outcome (extractImages w p o) = Ok ir ->
  exists r,
    outcome (extractAll w p o) = Ok r
    /\ flat_map cp_images (ar_pages r) = ir_images ir
    /\ ar_totalImages r = List.length (flat_map cp_images (ar_pages r))
    /\ ar_totalPages r = List.length (ar_pages r).
Proof.
  intros Ht Hi; exists (combine_pages tr ir).
  split; [rewrite extractAll_outcome, Ht, Hi; reflexivity |].
  destruct (@extractText_inv w p tr Ht) as (buf & doc & Hr & Hop & _).
  destruct (@extractText_pages_numbered w p tr buf doc Ht Hr Hop)
    as [Htot Hnum].
  destruct (@extractImages_groups_walk w p o ir buf doc Hi Hr Hop)
    as (groups & Himg & Hlen & Hpg & _).
  destruct (@extractImages_groups w p o ir Hi)
    as (_ & _ & _ & _ & _ & _ & Hcount & _).
  assert (Hflat : flat_map cp_images (ar_pages (combine_pages tr ir))
                  = ir_images ir).
  { unfold combine_pages; simpl ar_pages.
    rewrite combined_images_by_number, Hnum, <- Hlen, Himg.
    apply (@flat_map_groups
             (fun n => filter (fun img => Nat.eqb (img_page img) n)
                              (flatten groups)) groups 0).
    intros k g E; apply (@filter_flatten groups 0 Hpg k g E). }
  split; [exact Hflat | split].
  - rewrite Hflat; exact Hcount.
  - unfold combine_pages; simpl.
    rewrite length_map, <- (length_map pt_page), Hnum, length_seq.
    exact Htot.
Qed.

Lemma extractAll_keeps_every_artifact_witness :
  exists r,
    outcome (extractAll (Sample.world Sample.parsed_ok) Sample.report_pdf
               Sample.inline_jpeg) = Ok r
    /\ flat_map cp_images (ar_pages r) = ir_images Sample.inline_result
    /\ ar_totalImages r = List.length (flat_map cp_images (ar_pages r))
    /\ ar_totalPages r = List.length (ar_pages r).
Proof.
  apply (@extractAll_keeps_every_artifact
           (Sample.world Sample.parsed_ok) Sample.report_pdf
           Sample.inline_jpeg Sample.text_result Sample.inline_result);
    reflexivity.
Defined.

(** X10. [extractAll] returns exactly when both extractions return; when
    it fails, it fails with the error of one of the two, and there is no
    combined result to look at. *)
Theorem extractAll_returns_iff_both_return
    (w : World) (p : jsstring) (o : Options) :
  ((exists r, outcome (extractAll w p o) = Ok r)
   <-> (exists tr, outcome (extractText w p) = Ok tr)
       /\ (exists ir, outcome (extractImages w p o) = Ok ir))
  /\ forall e, outcome (extractAll w p o) = Throw e ->
       outcome (extractText w p) = Throw e
       \/ outcome (extractImages w p o) = Throw e.
Proof.
  rewrite extractAll_outcome.
  destruct (outcome (extractText w p)) as [tr | et];
    destruct (outcome (extractImages w p o)) as [ir | ei].
  - split; [split; [intros _; split; eexists; reflexivity
                   | intros _; eexists; reflexivity] |].
    intros e H; discriminate H.
  - split; [split; [intros (r & H); discriminate H
                   | intros [_ (ir & H)]; discriminate H] |].
    intros e H; injection H as ->; right; reflexivity.
  - split; [split; [intros (r & H); discriminate H
                   | intros [(tr & H) _]; discriminate H] |].
    intros e H; injection H as ->; left; reflexivity.
  - split.
    + split; [| intros [(tr & H) _]; discriminate H].
      destruct (outcome (extractText_begin w p)) as [ab | e0];
        [destruct (PDFParse w (snd ab)) |];
        intros (r & H); discriminate H.
    + intros e.
      destruct (outcome (extractText_begin w p)) as [ab | e0];
        [destruct (PDFParse w (snd ab)) |];
        intros H; injection H as ->;
        first [left; reflexivity | right; reflexivity].
Qed.

(* ===================================================================== *)
(** ** The command line *)
(* ===================================================================== *)

Lemma without_head (l s a : jsstring) (rest : list jsstring) :
  without [l; s] (a :: rest) ->
  Cli.one_of a l s = false /\ without [l; s] rest.
Proof.
  intros H; split.
  - specialize (H a (or_introl eq_refl)); simpl in H.
    rewrite orb_false_r in H; exact H.
  - intros x Hx; apply H; right; exact Hx.
Qed.

Lemma without_tail (names : list jsstring) (a : jsstring)
    (rest : list jsstring) :
  without names (a :: rest) -> without names rest.
Proof. intros H x Hx; apply H; right; exact Hx. Qed.

(** Once the command and the path are set, no later word changes them. *)
Lemma parseArgs_from_keeps_words (n : nat) :
  forall (args : list jsstring) (p : Cli.Parsed),
    List.length args <= n ->
    truthy_opt (Cli.command p) = true ->
    truthy_opt (Cli.pdfPath p) = true ->
    Cli.command (Cli.parseArgs_from args p) = Cli.command p
    /\ Cli.pdfPath (Cli.parseArgs_from args p) = Cli.pdfPath p.
Proof.
  induction n as [| n IH]; intros [| arg rest] p Hlen Hc Hp;
    try (split; reflexivity); [simpl in Hlen; lia |].
  simpl in Hlen; simpl Cli.parseArgs_from; rewrite Hc, Hp; cbn [negb andb].
  repeat match goal with
         | |- context [if Cli.one_of arg ?l ?s then _ else _] =>
             destruct (Cli.one_of arg l s)
         end;
    try (destruct rest as [| v rest']; [split; reflexivity |];
         simpl in Hlen);
    match goal with
    | |- context [Cli.parseArgs_from ?r ?q] =>
        destruct (IH r q) as [H1 H2];
        [simpl; lia | exact Hc | exact Hp
        | split; [rewrite H1 | rewrite H2]; reflexivity]
    end.
Qed.

Lemma parseArgs_words (c f : jsstring) (rest : list jsstring) :
  plain c -> plain f ->
  Cli.command (Cli.parseArgs (c :: f :: rest)) = Some c
  /\ Cli.pdfPath (Cli.parseArgs (c :: f :: rest)) = Some f.
Proof.
  intros [Hc1 Hc2] [Hf1 Hf2].
  unfold Cli.parseArgs; simpl Cli.parseArgs_from.
  rewrite Hc2, Hf2, Hc1; cbn [negb andb].
  apply (@parseArgs_from_keeps_words (List.length rest) rest
           (Cli.set_pdfPath (Cli.set_command Cli.initial c) f));
    [lia | exact Hc1 | exact Hf1].
Qed.

(** X11. The first two words of the command line, when neither is empty
    nor begins with a dash, are the command and the PDF path, whatever
    follows them. *)
Theorem parseArgs_reads_command_then_path
    (c f : jsstring) (rest : list jsstring) :
  plain c -> plain f ->
  Cli.command (Cli.parseArgs (c :: f :: rest)) = Some c
  /\ Cli.pdfPath (Cli.parseArgs (c :: f :: rest)) = Some f.
Proof. apply parseArgs_words. Qed.

Lemma parseArgs_reads_command_then_path_witness :
  Cli.command
    (Cli.parseArgs [lit "images"; Sample.report_pdf; lit "-f"; lit "text";
                    lit "extra"; lit "-j"]) = Some (lit "images")
  /\ Cli.pdfPath
       (Cli.parseArgs [lit "images"; Sample.report_pdf; lit "-f"; lit "text";
                       lit "extra"; lit "-j"]) = Some Sample.report_pdf.
Proof.
  apply (@parseArgs_reads_command_then_path
           (lit "images") Sample.report_pdf
           [lit "-f"; lit "text"; lit "extra"; lit "-j"]);
    split; reflexivity.
Defined.

(** Each option keeps its value over words that are not its flag. *)
Lemma parseArgs_from_keeps_options (n : nat) :
  forall (args : list jsstring) (p : Cli.Parsed),
    List.length args <= n ->
    (without [lit "--output-dir"; lit "-o"] args ->
     Cli.outputDir (Cli.parseArgs_from args p) = Cli.outputDir p)
    /\ (without [lit "--format"; lit "-f"] args ->
        Cli.format (Cli.parseArgs_from args p) = Cli.format p)
    /\ (without [lit "--dpi"; lit "-d"] args ->
        Cli.dpi (Cli.parseArgs_from args p) = Cli.dpi p)
    /\ (without [lit "--base64"; lit "-b"] args ->
        Cli.base64 (Cli.parseArgs_from args p) = Cli.base64 p)
    /\ (without [lit "--json"; lit "-j"] args ->
        Cli.json (Cli.parseArgs_from args p) = Cli.json p).
Proof.
  induction n as [| n IH]; intros [| arg rest] p Hlen;
    try (repeat split; reflexivity); [simpl in Hlen; lia |].
  simpl in Hlen.
  assert (Hstep :
    forall q,
      (without [lit "--output-dir"; lit "-o"] rest ->
       Cli.outputDir q = Cli.outputDir p ->
       Cli.outputDir (Cli.parseArgs_from rest q) = Cli.outputDir p)
      /\ (without [lit "--format"; lit "-f"] rest ->
          Cli.format q = Cli.format p ->
          Cli.format (Cli.parseArgs_from rest q) = Cli.format p)
      /\ (without [lit "--dpi"; lit "-d"] rest ->
          Cli.dpi q = Cli.dpi p ->
          Cli.dpi (Cli.parseArgs_from rest q) = Cli.dpi p)
      /\ (without [lit "--base64"; lit "-b"] rest ->
          Cli.base64 q = Cli.base64 p ->
          Cli.base64 (Cli.parseArgs_from rest q) = Cli.base64 p)
      /\ (without [lit "--json"; lit "-j"] rest ->
          Cli.json q = Cli.json p ->
          Cli.json (Cli.parseArgs_from rest q) = Cli.json p)).
  { intros q; destruct (IH rest q ltac:(lia)) as (H1 & H2 & H3 & H4 & H5).
    repeat split; intros Hw <-; auto. }
  assert (Hstep2 :
    forall v rest' q, rest = v :: rest' ->
      (without [lit "--output-dir"; lit "-o"] rest ->
       Cli.outputDir q = Cli.outputDir p ->
       Cli.outputDir (Cli.parseArgs_from rest' q) = Cli.outputDir p)
      /\ (without [lit "--format"; lit "-f"] rest ->
          Cli.format q = Cli.format p ->
          Cli.format (Cli.parseArgs_from rest' q) = Cli.format p)
      /\ (without [lit "--dpi"; lit "-d"] rest ->
          Cli.dpi q = Cli.dpi p ->
          Cli.dpi (Cli.parseArgs_from rest' q) = Cli.dpi p)
      /\ (without [lit "--base64"; lit "-b"] rest ->
          Cli.base64 q = Cli.base64 p ->
          Cli.base64 (Cli.parseArgs_from rest' q) = Cli.base64 p)
      /\ (without [lit "--json"; lit "-j"] rest ->
          Cli.json q = Cli.json p ->
          Cli.json (Cli.parseArgs_from rest' q) = Cli.json p)).
  { intros v rest' q ->.
    destruct (IH rest' q ltac:(simpl in Hlen; lia))
      as (H1 & H2 & H3 & H4 & H5).
    repeat split; intros Hw <-;
      apply without_tail in Hw; auto. }
  simpl Cli.parseArgs_from.
  repeat split; intros Hw; apply without_head in Hw; destruct Hw as [Hno Hw];
    repeat match goal with
           | |- context [if ?c then _ else _] =>
               lazymatch c with
               | Cli.one_of arg ?l ?s =>
                   first [rewrite Hno | destruct (Cli.one_of arg l s)]
               | _ => destruct c
               end
           end;
    try (destruct rest as [| v rest']; [reflexivity |]);
    first [ apply (Hstep _); [exact Hw | reflexivity]
          | eapply Hstep2; [reflexivity | exact Hw | reflexivity] ].
Qed.

(** X12. An option of the command line that is never named keeps its
    initial value: the output directory is [null] (not undefined), the
    format png, the resolution 150, and the two switches are off. *)
Theorem parseArgs_options_default (args : list jsstring) :
  (without [lit "--output-dir"; lit "-o"] args ->
   Cli.outputDir (Cli.parseArgs args) = JNull)
  /\ (without [lit "--format"; lit "-f"] args ->
      Cli.format (Cli.parseArgs args) = Some (lit "png"))
  /\ (without [lit "--dpi"; lit "-d"] args ->
      Cli.dpi (Cli.parseArgs args) = 150%float)
  /\ (without [lit "--base64"; lit "-b"] args ->
      Cli.base64 (Cli.parseArgs args) = false)
  /\ (without [lit "--json"; lit "-j"] args ->
      Cli.json (Cli.parseArgs args) = false).
Proof.
  exact (@parseArgs_from_keeps_options (List.length args) args Cli.initial
           (le_n _)).
Qed.

Lemma parseArgs_options_default_witness :
  Cli.outputDir (Cli.parseArgs [lit "all"; Sample.report_pdf; lit "-j"])
  = JNull
  /\ Cli.base64 (Cli.parseArgs [lit "all"; Sample.report_pdf; lit "-j"])
     = false.
Proof.
  destruct (parseArgs_options_default
              [lit "all"; Sample.report_pdf; lit "-j"])
    as (Ho & _ & _ & Hb & _).
  split; [apply Ho | apply Hb];
    intros a [<- | [<- | [<- | []]]]; reflexivity.
Defined.

Lemma without_existsb (names args : list jsstring) (name : jsstring) :
  without names args -> In name names ->
  existsb (fun a => str_eqb a name) args = false.
Proof.
  intros H Hin; induction args as [| a args IH]; [reflexivity |].
  simpl; rewrite IH by (intros x Hx; apply H; right; exact Hx).
  rewrite orb_false_r.
  specialize (H a (or_introl eq_refl)).
  destruct (str_eqb a name) eqn:E; [| reflexivity].
  rewrite <- H; symmetry; apply existsb_exists.
  exists name; split; assumption.
Qed.

(** [extractText] leaves the disk alone. *)
Lemma extractText_begin_writes (w : World) (p : jsstring) :
  fs_writes (trace_of (extractText_begin w p)) = [].
Proof.
  unfold extractText_begin.
  apply silent_bind.
  { apply silent_bind; [apply silent_tell; reflexivity |].
    intros _; apply silent_ret. }
  intros found; destruct (negb found); [apply silent_throw |].
  apply silent_bind.
  { rewrite fs_readFileSync_eq; reflexivity. }
  intros data; apply silent_bind; [apply silent_tell; reflexivity |].
  intros _; apply silent_ret.
Qed.

Lemma text_page_writes (doc : Document) (acc : list PageText) (i : nat) :
  fs_writes (trace_of (text_page doc acc i)) = [].
Proof. rewrite trace_text_page; reflexivity. Qed.

Lemma extractText_rest_writes (w : World) (abs : jsstring) (buf : bytes)
    (meta : Info) :
  fs_writes (trace_of (extractText_rest w abs buf meta)) = [].
Proof.
  unfold extractText_rest.
  apply silent_bind; [rewrite mupdf_openDocument_eq; reflexivity |].
  intros doc; apply silent_bind; [| intros pages; apply silent_ret].
  apply silent_foldM; intros s i; apply text_page_writes.
Qed.

(** X17. [extractText] never creates a directory and never writes a file,
    whatever the path, the file and the document. *)
Theorem extractText_writes_nothing (w : World) (p : jsstring) :
  fs_writes (trace_of (extractText w p)) = []
  /\ written_files (trace_of (extractText w p)) = [].
Proof.
  assert (H : fs_writes (trace_of (extractText w p)) = []).
  { unfold extractText; apply silent_bind;
      [apply extractText_begin_writes |].
    intros ab; apply extractText_rest_writes. }
  split; [exact H |].
  revert H; generalize (trace_of (extractText w p)).
  induction l as [| e l IH]; [reflexivity |].
  unfold fs_writes; simpl.
  destruct e; simpl; try discriminate; exact IH.
Qed.

(** What [extractAll] writes is what its [extractImages] writes. *)
Lemma extractAll_writes (w : World) (p : jsstring) (o : Options) :
  fs_writes (trace_of (extractAll w p o))
  = fs_writes (trace_of (extractImages w p o)).
Proof.
  pose proof (extractText_begin_writes w p) as Hb.
  unfold extractAll.
  destruct (extractText_begin w p) as [t1 [ab | e1]]; simpl in Hb;
    destruct (extractImages w p o) as [ti ri]; simpl.
  - pose proof (extractText_rest_writes w (fst ab) (snd ab)
                  (metadata_after (PDFParse w (snd ab)))) as Hr.
    destruct (extractText_rest w (fst ab) (snd ab)
                (metadata_after (PDFParse w (snd ab)))) as [t2 rt];
      simpl in Hr.
    unfold fs_writes in *.
    destruct (PDFParse w (snd ab)); simpl;
      rewrite !filter_app, Hb, Hr, ?app_nil_r; reflexivity.
  - unfold fs_writes in *; rewrite filter_app, Hb; reflexivity.
Qed.

Lemma report_throw {A} (w : World) (m : M A) (print : A -> list Event)
    (e : JsError) :
  outcome m = Throw e ->
  fs_writes (trace_of m) = [] ->
  snd (Cli.report w m print) = Cli.Exit 1
  /\ fs_writes (fst (Cli.report w m print)) = [].
Proof.
  destruct m as [t [a | e']]; simpl; intros H Hs; [discriminate H |].
  split; [reflexivity |].
  unfold fs_writes in *; rewrite filter_app, Hs; simpl.
  destruct (env_DEBUG w); reflexivity.
Qed.

(** X13. On the command line, [images] and [all] with a PDF path but
    without [-o]/[--output-dir] and without [-b]/[--base64] end with exit
    code 1 and have written nothing, in every world: the option object
    carries [outputDir: null], which the destructuring default of
    [extractImages] leaves in place and [mkdirSync] rejects. *)
Theorem cli_images_and_all_need_output_dir
    (w : World) (c f : jsstring) (rest : list jsstring) :
  c = lit "images" \/ c = lit "all" ->
  plain f ->
  without [lit "--help"; lit "-h"] (c :: f :: rest) ->
  without [lit "--output-dir"; lit "-o"] (c :: f :: rest) ->
  without [lit "--base64"; lit "-b"] (c :: f :: rest) ->
  snd (Cli.main w (c :: f :: rest)) = Cli.Exit 1
  /\ fs_writes (fst (Cli.main w (c :: f :: rest))) = [].
Proof.
  intros Hc Hf Hh Ho Hb.
  assert (Hpc : plain c) by (destruct Hc as [-> | ->]; split; reflexivity).
  destruct (@parseArgs_words c f rest Hpc Hf) as [Hcmd Hpath].
  destruct (@parseArgs_from_keeps_options
              (List.length (c :: f :: rest)) (c :: f :: rest) Cli.initial
              (le_n _))
    as (Hod & _ & _ & Hb64 & _).
  specialize (Hod Ho); specialize (Hb64 Hb).
  change (Cli.parseArgs_from (c :: f :: rest) Cli.initial)
    with (Cli.parseArgs (c :: f :: rest)) in Hod, Hb64.
  unfold Cli.main.
  rewrite (@without_existsb _ _ (lit "--help") Hh (or_introl eq_refl)).
  rewrite (@without_existsb _ _ (lit "-h") Hh (or_intror (or_introl eq_refl))).
  cbn [orb]; rewrite Hcmd, Hpath; cbn [Cli.name_of_command].
  destruct Hf as [Hf _]; rewrite Hf.
  destruct (@extractImages_null_dir w f
              (Cli.options_of (Cli.parseArgs (c :: f :: rest))))
    as [Hs (e & He)];
    [exact Hod
    | unfold inline_mode, Cli.options_of, default_to; cbn [opt_base64];
      exact Hb64 |].
  destruct Hc as [-> | ->].
  - change (str_eqb (lit "images") (lit "text")) with false.
    change (str_eqb (lit "images") (lit "images")) with true.
    cbv iota; apply (@report_throw _ w _ _ e He Hs).
  - change (str_eqb (lit "all") (lit "text")) with false.
    change (str_eqb (lit "all") (lit "images")) with false.
    change (str_eqb (lit "all") (lit "all")) with true.
    cbv iota.
    pose proof (extractAll_outcome w f
                  (Cli.options_of (Cli.parseArgs (lit "all" :: f :: rest))))
      as Hall.
    rewrite He in Hall.
    assert (Ea : exists e',
              outcome (extractAll w f
                         (Cli.options_of
                            (Cli.parseArgs (lit "all" :: f :: rest))))
              = Throw e').
    { rewrite Hall.
      destruct (outcome (extractText w f)); [eexists; reflexivity |].
      destruct (outcome (extractText_begin w f)) as [ab | eb];
        [destruct (PDFParse w (snd ab)) |]; eexists; reflexivity. }
    destruct Ea as (e' & Ea).
    apply (@report_throw _ w _ _ e' Ea).
      rewrite extractAll_writes; exact Hs.
Qed.

Lemma cli_images_and_all_need_output_dir_witness :
  snd (Cli.main (Sample.world Sample.parsed_ok)
         [lit "all"; Sample.report_pdf; lit "--json"]) = Cli.Exit 1
  /\ fs_writes (fst (Cli.main (Sample.world Sample.parsed_ok)
                       [lit "all"; Sample.report_pdf; lit "--json"])) = [].
Proof.
  apply (@cli_images_and_all_need_output_dir
           (Sample.world Sample.parsed_ok) (lit "all") Sample.report_pdf
           [lit "--json"]).
  - right; reflexivity.
  - split; reflexivity.
  - intros a [<- | [<- | [<- | []]]]; reflexivity.
  - intros a [<- | [<- | [<- | []]]]; reflexivity.
  - intros a [<- | [<- | [<- | []]]]; reflexivity.
Defined.

(** X14. The [text] command with a PDF path ends with exit code 0 exactly
    when [extractText] returns, having printed the result once, as JSON
    under [--json] and as the text report otherwise; when [extractText]
    throws it ends with exit code 1, having printed the error's message on
    the error stream (and its stack only under DEBUG).  Nothing else is
    done besides the calls of [extractText] itself. *)
Theorem cli_text_reports_outcome
    (w : World) (f : jsstring) (rest : list jsstring) :
  plain f ->
  without [lit "--help"; lit "-h"] (lit "text" :: f :: rest) ->
  Cli.main w (lit "text" :: f :: rest)
  = match outcome (extractText w f) with
    | Ok r =>
        (trace_of (extractText w f)
         ++ [if Cli.json (Cli.parseArgs (lit "text" :: f :: rest))
             then ConsoleLogJSON (PrintedText r)
             else ConsoleLog (Cli.formatTextOutput r)],
         Cli.Exit 0)
    | Throw e =>
        (trace_of (extractText w f)
         ++ [ConsoleError (nl +++ cross_mark +++ lit " Error: "
                           +++ message e)]
         ++ (if env_DEBUG w then [ConsoleErrorStack e] else []),
         Cli.Exit 1)
    end.
Proof.
  intros Hf Hh.
  assert (Hpc : plain (lit "text")) by (split; reflexivity).
  destruct (@parseArgs_words (lit "text") f rest Hpc Hf) as [Hcmd Hpath].
  unfold Cli.main.
  rewrite (@without_existsb _ _ (lit "--help") Hh (or_introl eq_refl)).
  rewrite (@without_existsb _ _ (lit "-h") Hh (or_intror (or_introl eq_refl))).
  cbn [orb]; rewrite Hcmd, Hpath; cbn [Cli.name_of_command].
  destruct Hf as [Hf _]; rewrite Hf.
  change (str_eqb (lit "text") (lit "text")) with true; cbv iota.
  unfold Cli.report.
  destruct (extractText w f) as [t [r | e]]; simpl;
    [destruct (Cli.json _) |]; reflexivity.
Qed.

Lemma cli_text_reports_outcome_witness :
  Cli.main (Sample.world Sample.parsed_ok)
    [lit "text"; Sample.missing_pdf; lit "-j"]
  = ([FsExists Sample.missing_pdf;
      ConsoleError (nl +++ cross_mark
                    +++ lit " Error: PDF file not found: /docs/missing.pdf")],
     Cli.Exit 1).
Proof.
  apply (@cli_text_reports_outcome
           (Sample.world Sample.parsed_ok) Sample.missing_pdf [lit "-j"]).
  - split; reflexivity.
  - intros a [<- | [<- | [<- | []]]]; reflexivity.
Defined.

(* ===================================================================== *)
(** ** The responses of the tools *)
(* ===================================================================== *)

Lemma extractImages_delivered
    (w : World) (p : jsstring) (o : Options) (r : ImageResult)
    (img : ImageInfo) :
  outcome (extractImages w p o) = Ok r ->
  In img (ir_images r) ->
  delivered (inline_mode o) (format_of o) img.
Proof.
  intros Hout Hin.
  destruct (@extractImages_groups w p o r Hout)
    as (buf & doc & groups & _ & _ & _ & _ & Himg & _ & Hk).
  rewrite Himg in Hin.
  destruct (@in_flatten groups img Hin) as (k & g & E & Hor).
  destruct (Hk k g E) as (_ & _ & Hd & Hds & _).
  destruct Hor as [-> | Hi]; [exact Hd |].
  rewrite Forall_forall in Hds; exact (Hds img Hi).
Qed.

Lemma image_blocks_app (a b : list Server.Content) :
  image_blocks (a ++ b) = image_blocks a ++ image_blocks b.
Proof. unfold image_blocks; apply flat_map_app. Qed.

(** An image block comes from an artifact with that non-empty base64
    text, and carries the artifact's MIME type. *)
Lemma image_blocks_inline (images : list ImageInfo) (d : jsstring)
    (m : option jsstring) :
  In (d, m) (image_blocks (Server.inline_blocks images)) ->
  exists img,
    In img images /\ img_base64 img = Some d
    /\ d <> [] /\ m = img_mimeType img.
Proof.
  induction images as [| img images IH]; simpl; [intros [] |].
  rewrite image_blocks_app; intros Hin; apply in_app_or in Hin.
  destruct Hin as [Hin | Hin].
  - destruct (img_base64 img) as [[| c data] |] eqn:E; simpl in Hin;
      try contradiction.
    destruct Hin as [[= <- <-] | []].
    exists img; split; [left; reflexivity |].
    split; [exact E | split; [discriminate | reflexivity]].
  - destruct (IH Hin) as (img' & Hi & Hrest).
    exists img'; split; [right; exact Hi | exact Hrest].
Qed.

Lemma mime_of_format (f : Server.Format) :
  mime_of (Server.format_name f) = mime_name f.
Proof. destruct f; reflexivity. Qed.

Lemma extractAll_inv (w : World) (p : jsstring) (o : Options)
    (r : AllResult) :
  outcome (extractAll w p o) = Ok r ->
  exists tr ir,
    outcome (extractText w p) = Ok tr
    /\ outcome (extractImages w p o) = Ok ir
    /\ r = combine_pages tr ir.
Proof.
  rewrite extractAll_outcome.
  destruct (outcome (extractText w p)) as [tr | et];
    destruct (outcome (extractImages w p o)) as [ir | ei];
    try discriminate.
  - intros [= <-]; exists tr, ir; repeat split.
  - destruct (outcome (extractText_begin w p)) as [ab | eb];
      [destruct (PDFParse w (snd ab)) |]; discriminate.
Qed.

(** X15. Every image block in a response of [extract_pdf_images] or of
    [extract_pdf_all] carries non-empty base64 data and the MIME type of
    the format that was asked for, image/png or image/jpeg; and
    [extract_pdf_images] without [returnBase64] returns no image block at
    all. *)
Theorem tool_image_blocks_match_the_format
    (w : World) (c : Server.ToolCall) (res : Server.ToolResult) :
  outcome (Server.handle w c) = Ok res ->
  match c with
  | Server.Call_extract_pdf_text _ =>
      image_blocks (Server.content res) = []
  | Server.Call_extract_pdf_images a =>
      (Server.ia_returnBase64 a = false ->
       image_blocks (Server.content res) = [])
      /\ forall d m, In (d, m) (image_blocks (Server.content res)) ->
           d <> [] /\ m = Some (mime_name (Server.ia_format a))
  | Server.Call_extract_pdf_all a =>
      forall d m, In (d, m) (image_blocks (Server.content res)) ->
        d <> [] /\ m = Some (mime_name (Server.aa_format a))
  end.
Proof.
  destruct c as [p | a | a]; unfold Server.handle.
  - unfold Server.extract_pdf_text.
    rewrite outcome_try_catch, outcome_bind.
    destruct (outcome (extractText w p)); simpl; intros [= <-]; reflexivity.
  - unfold Server.extract_pdf_images.
    rewrite outcome_try_catch, outcome_bind.
    match goal with
    | |- context [outcome (extractImages w ?p ?o)] =>
        destruct (outcome (extractImages w p o)) as [r | e] eqn:Hout
    end; simpl; intros [= <-]; simpl;
      [| split; [reflexivity | intros d m []]].
    split; [intros ->; reflexivity |].
    destruct (Server.ia_returnBase64 a) eqn:Hrb; [| intros d m []].
    intros d m Hin.
    destruct (@image_blocks_inline (ir_images r) d m Hin)
      as (img & Hi & Hb & Hne & ->).
    split; [exact Hne |].
    pose proof (@extractImages_delivered w _ _ r img Hout Hi) as Hd.
    unfold delivered, inline_mode, format_of in Hd; simpl in Hd.
    destruct Hd as (_ & -> & _).
    rewrite mime_of_format; reflexivity.
  - unfold Server.extract_pdf_all.
    rewrite outcome_try_catch, outcome_bind.
    match goal with
    | |- context [outcome (extractAll w ?p ?o)] =>
        destruct (outcome (extractAll w p o)) as [r | e] eqn:Hout
    end; simpl; intros [= <-]; simpl; [| intros d m []].
    destruct (@extractAll_inv w _ _ r Hout) as (tr & ir & _ & Hi & ->).
    intros d m Hin.
    assert (Hsome : exists img,
              In img (ir_images ir) /\ img_base64 img = Some d
              /\ d <> [] /\ m = img_mimeType img).
    { unfold combine_pages in Hin; simpl ar_pages in Hin.
      induction (tr_pages tr) as [| pt pages IH]; simpl in Hin;
        [contradiction |].
      rewrite image_blocks_app in Hin; apply in_app_or in Hin.
      destruct Hin as [Hin | Hin]; [| exact (IH Hin)].
      destruct (@image_blocks_inline _ d m Hin)
        as (img & Hf & Hrest).
      apply filter_In in Hf; destruct Hf as [Hf _].
      exists img; split; assumption. }
    destruct Hsome as (img & Hin' & Hb & Hne & ->).
    split; [exact Hne |].
    pose proof (@extractImages_delivered w _ _ ir img Hi Hin') as Hd.
    unfold delivered, inline_mode, format_of in Hd; simpl in Hd.
    destruct Hd as (_ & -> & _).
    rewrite mime_of_format; reflexivity.
Qed.

Lemma tool_image_blocks_match_the_format_witness :
  fst Cases.first_block <> []
  /\ snd Cases.first_block = Some (lit "image/jpeg").
Proof.
  destruct (@tool_image_blocks_match_the_format
              (Sample.world Sample.parsed_ok)
              (Server.Call_extract_pdf_images Cases.images_args)
              Cases.images_response eq_refl) as [_ H].
  apply (H (fst Cases.first_block) (snd Cases.first_block)).
  left; reflexivity.
Defined.

(* ===================================================================== *)
(** ** Inline mode has no use for the output directory *)
(* ===================================================================== *)

Lemma bind_ext {A B} (m : M A) (f g : A -> M B) :
  (forall a, f a = g a) -> bind m f = bind m g.
Proof.
  intros H; destruct m as [t [a | e]]; simpl; [rewrite H |]; reflexivity.
Qed.

Lemma foldM_ext {A S} (f g : S -> A -> M S) (l : list A) :
  (forall s a, f s a = g s a) -> forall s, foldM f l s = foldM g l s.
Proof.
  intros H; induction l as [| a l IH]; intros s; simpl; [reflexivity |].
  rewrite H; apply bind_ext; exact IH.
Qed.

Section InlineDirectory.

Variable w : World.
Variables dir1 dir2 : JsVal.
Variable format : jsstring.

Lemma onImageBlock_inline_dir (i : nat) (base : jsstring)
    (st : list ImageInfo * nat) (b : ImageBlock) :
  onImageBlock w i base
    {| eo_outputDir := dir1; eo_format := format; eo_returnBase64 := true |}
    st b
  = onImageBlock w i base
      {| eo_outputDir := dir2; eo_format := format; eo_returnBase64 := true |}
      st b.
Proof. destruct st; reflexivity. Qed.

Lemma extractEmbeddedImages_inline_dir (page : Page) (i : nat)
    (base : jsstring) :
  extractEmbeddedImages w page i base
    {| eo_outputDir := dir1; eo_format := format; eo_returnBase64 := true |}
  = extractEmbeddedImages w page i base
      {| eo_outputDir := dir2; eo_format := format;
         eo_returnBase64 := true |}.
Proof.
  unfold extractEmbeddedImages; apply bind_ext; intros stext.
  rewrite (foldM_ext _ _ (imageBlocks stext)
             (onImageBlock_inline_dir i base)).
  reflexivity.
Qed.

Lemma image_page_inline_dir (doc : Document) (scale : JsNumber)
    (base : jsstring) (images : list ImageInfo) (i : nat) :
  image_page w doc dir1 format true scale base images i
  = image_page w doc dir2 format true scale base images i.
Proof.
  unfold image_page.
  apply bind_ext; intros page.
  apply bind_ext; intros px.
  apply bind_ext; intros data.
  apply bind_ext; intros info.
  rewrite extractEmbeddedImages_inline_dir; reflexivity.
Qed.

End InlineDirectory.

Lemma extractImages_inline_dir (w : World) (p : jsstring) (o1 o2 : Options) :
  opt_format o1 = opt_format o2 ->
  opt_dpi o1 = opt_dpi o2 ->
  opt_base64 o1 = Some true ->
  opt_base64 o2 = Some true ->
  extractImages w p o1 = extractImages w p o2.
Proof.
  intros Hf Hd H1 H2; unfold extractImages.
  rewrite Hf, Hd, H1, H2; cbn [default_to negb].
  apply bind_ext; intros found; destruct (negb found); [reflexivity |].
  cbv zeta.
  apply bind_ext; intros data.
  apply bind_ext; intros doc.
  apply bind_ext; intros _.
  rewrite (foldM_ext _ _ (seq 0 (countPages doc))
             (fun s i =>
                image_page_inline_dir w
                  (default_dir (path_dirname w (path_resolve w p))
                     (opt_outputDir o1))
                  (default_dir (path_dirname w (path_resolve w p))
                     (opt_outputDir o2))
                  (default_to (lit "png") (opt_format o2)) doc _ _ s i)).
  reflexivity.
Qed.

(** X16. [extract_pdf_all] accepts an [outputDir] and has no use for it:
    it forces inline mode, so the response and the calls made are the same
    whatever directory is given, or none; and it never creates a directory
    nor writes a file. *)
Theorem extract_pdf_all_ignores_output_dir
    (w : World) (a : Server.AllArgs) (d : option jsstring) :
  Server.extract_pdf_all w (with_outputDir a d) = Server.extract_pdf_all w a
  /\ fs_writes (trace_of (Server.extract_pdf_all w a)) = [].
Proof.
  split.
  - unfold Server.extract_pdf_all, with_outputDir; simpl.
    assert (E : forall o1 o2,
              extractImages w (Server.aa_pdfPath a) o1
              = extractImages w (Server.aa_pdfPath a) o2 ->
              extractAll w (Server.aa_pdfPath a) o1
              = extractAll w (Server.aa_pdfPath a) o2).
    { intros o1 o2 H; unfold extractAll; rewrite H; reflexivity. }
    rewrite (E _ {| opt_outputDir := Server.optional (Server.aa_outputDir a);
                    opt_format :=
                      Some (Server.format_name (Server.aa_format a));
                    opt_base64 := Some true;
                    opt_dpi := Some (Server.aa_dpi a) |});
      [reflexivity |].
    apply extractImages_inline_dir; reflexivity.
  - unfold Server.extract_pdf_all.
    rewrite trace_try_catch, trace_bind.
    unfold fs_writes; rewrite !filter_app.
    fold (fs_writes (trace_of
            (extractAll w (Server.aa_pdfPath a)
               {| opt_outputDir := Server.optional (Server.aa_outputDir a);
                  opt_format :=
                    Some (Server.format_name (Server.aa_format a));
                  opt_base64 := Some true;
                  opt_dpi := Some (Server.aa_dpi a) |}))).
    rewrite extractAll_writes, silent_extractImages_inline by reflexivity.
    rewrite outcome_bind.
    destruct (outcome (extractAll w _ _)); reflexivity.
Qed.

Example extract_pdf_all_with_and_without_directory :
  Server.extract_pdf_all (Sample.world Sample.parsed_ok) Cases.all_args
  = Server.extract_pdf_all (Sample.world Sample.parsed_ok)
      (with_outputDir Cases.all_args None).
Proof. vm_compute; reflexivity. Qed.

(* ===================================================================== *)
(** ** The command line: help, missing path, unknown command *)
(* ===================================================================== *)

Lemma str_eqb_refl (s : jsstring) : str_eqb s s = true.
Proof.
  induction s as [| c s IH]; simpl; [reflexivity |].
  rewrite N.eqb_refl; exact IH.
Qed.

(** X18. [--help] or [-h] anywhere on the command line, or no word at
    all, prints the help and ends with exit code 0; no command is run and
    no file is looked at, even when a command and a path are given too. *)
Theorem cli_help_wins (w : World) (args : list jsstring) :
  args = [] \/ In (lit "--help") args \/ In (lit "-h") args ->
  Cli.main w args = ([PrintHelp], Cli.Exit 0).
Proof.
  intros H; unfold Cli.main.
  assert (E : (match args with [] => true | _ => false end
               || existsb (fun a => str_eqb a (lit "--help")) args
               || existsb (fun a => str_eqb a (lit "-h")) args) = true).
  { destruct H as [-> | [H | H]]; [reflexivity | |].
    - apply orb_true_iff; left; apply orb_true_iff; right.
      apply existsb_exists; exists (lit "--help").
      split; [exact H | apply str_eqb_refl].
    - apply orb_true_iff; right.
      apply existsb_exists; exists (lit "-h").
      split; [exact H | apply str_eqb_refl]. }
  rewrite E; reflexivity.
Qed.

Lemma cli_help_wins_witness :
  Cli.main (Sample.world Sample.parsed_ok)
    [lit "images"; Sample.report_pdf; lit "-o"; lit "-h"]
  = ([PrintHelp], Cli.Exit 0).
Proof.
  apply (@cli_help_wins (Sample.world Sample.parsed_ok)
           [lit "images"; Sample.report_pdf; lit "-o"; lit "-h"]).
  right; right; right; right; right; left; reflexivity.
Defined.

(** Words that all begin with a dash set neither the command nor the
    path. *)
Lemma parseArgs_from_flags_only (n : nat) :
  forall (args : list jsstring) (p : Cli.Parsed),
    List.length args <= n ->
    Forall (fun a => Cli.is_flag a = true) args ->
    Cli.command (Cli.parseArgs_from args p) = Cli.command p
    /\ Cli.pdfPath (Cli.parseArgs_from args p) = Cli.pdfPath p.
Proof.
  induction n as [| n IH]; intros [| arg rest] p Hlen Hall;
    try (split; reflexivity); [simpl in Hlen; lia |].
  simpl in Hlen; inversion Hall as [| ? ? Hflag Hrest]; subst.
  simpl Cli.parseArgs_from; rewrite Hflag; cbn [negb].
  rewrite !andb_false_r; cbn [andb].
  repeat match goal with
         | |- context [if Cli.one_of arg ?l ?s then _ else _] =>
             destruct (Cli.one_of arg l s)
         end;
    try (destruct rest as [| v rest']; [split; reflexivity |];
         simpl in Hlen; inversion Hrest; subst);
    match goal with
    | |- context [Cli.parseArgs_from ?r ?q] =>
        destruct (IH r q) as [Hkc Hkp];
        [simpl; lia | assumption
        | split; [rewrite Hkc | rewrite Hkp]; reflexivity]
    end.
Qed.


(** X19. A command that needs a PDF path and gets none -- it stands
    alone, or is followed only by words that begin with a dash -- prints
    [Error: Please provide a PDF file path.] on the error stream and ends
    with exit code 1, without calling the extraction. *)
Theorem cli_command_without_path
    (w : World) (c : jsstring) (rest : list jsstring) :
  c = lit "text" \/ c = lit "images" \/ c = lit "all" ->
  Forall (fun a => Cli.is_flag a = true) rest ->
  without [lit "--help"; lit "-h"] (c :: rest) ->
  Cli.main w (c :: rest)
  = ([ConsoleError (lit "Error: Please provide a PDF file path.")],
     Cli.Exit 1).
Proof.
  intros Hc Hflags Hh.
  assert (Hparse : Cli.command (Cli.parseArgs (c :: rest)) = Some c
                   /\ Cli.pdfPath (Cli.parseArgs (c :: rest)) = None).
  { assert (Hpc : truthy_str c = true /\ Cli.is_flag c = false)
      by (destruct Hc as [-> | [-> | ->]]; split; reflexivity).
    destruct Hpc as [H1 H2].
    unfold Cli.parseArgs; simpl Cli.parseArgs_from.
    rewrite H2; cbn [negb andb].
    apply (@parseArgs_from_flags_only (List.length rest) rest
             (Cli.set_command Cli.initial c) (le_n _) Hflags). }
  destruct Hparse as [Hcmd Hpath].
  unfold Cli.main.
  rewrite (@without_existsb _ _ (lit "--help") Hh (or_introl eq_refl)).
  rewrite (@without_existsb _ _ (lit "-h") Hh (or_intror (or_introl eq_refl))).
  cbn [orb]; rewrite Hcmd, Hpath; cbn [Cli.name_of_command].
  destruct Hc as [-> | [-> | ->]]; reflexivity.
Qed.

Lemma cli_command_without_path_witness :
  Cli.main (Sample.world Sample.parsed_ok)
    [lit "images"; lit "--json"; lit "-b"]
  = ([ConsoleError (lit "Error: Please provide a PDF file path.")],
     Cli.Exit 1).
Proof.
  apply (@cli_command_without_path (Sample.world Sample.parsed_ok)
           (lit "images") [lit "--json"; lit "-b"]).
  - right; left; reflexivity.
  - repeat constructor.
  - intros a [<- | [<- | [<- | []]]]; reflexivity.
Defined.



(* ===================================================================== *)
(** ** The output directory is made once, and first *)
(* ===================================================================== *)

Section Calls.

Variable P : Event -> Prop.

Let calls {A} (m : M A) : Prop := Forall P (trace_of m).

Lemma calls_none {A} (r : result A) : calls ([], r).
Proof. constructor. Qed.

Lemma calls_bind {A B} (m : M A) (f : A -> M B) :
  calls m -> (forall a, calls (f a)) -> calls (bind m f).
Proof.
  unfold calls; intros Hm Hf; rewrite trace_bind.
  apply Forall_app; split; [exact Hm |].
  destruct (outcome m); [apply Hf | constructor].
Qed.

Lemma calls_try_catch {A} (m : M A) (h : JsError -> M A) :
  calls m -> (forall e, calls (h e)) -> calls (try_catch m h).
Proof.
  unfold calls; intros Hm Hh; rewrite trace_try_catch.
  apply Forall_app; split; [exact Hm |].
  destruct (outcome m); [constructor | apply Hh].
Qed.

Lemma calls_foldM {A S} (body : S -> A -> M S) (l : list A) :
  (forall s a, calls (body s a)) -> forall s, calls (foldM body l s).
Proof.
  intros Hb; induction l as [| a l IH]; intros s; simpl.
  - constructor.
  - apply calls_bind; [apply Hb | exact IH].
Qed.

Hypothesis P_write : forall f data, P (FsWrite f data).
Hypothesis P_load : forall i, P (PdfLoadPage i).

Variable w : World.

Lemma calls_write_block {A} (dir : JsVal) (name : jsstring) (data : bytes)
    (k : jsstring -> A) :
  calls (bind (join_path w dir name)
           (fun filePath =>
              bind (fs_writeFileSync w filePath data)
                (fun _ => ret (k filePath)))).
Proof.
  apply calls_bind.
  - unfold join_path; destruct dir; apply calls_none.
  - intros filePath; apply calls_bind; [| intros _; apply calls_none].
    rewrite fs_writeFileSync_eq; constructor; [apply P_write | constructor].
Qed.

Lemma calls_onImageBlock (i : nat) (base : jsstring) (eo : EmbedOptions)
    (st : list ImageInfo * nat) (b : ImageBlock) :
  calls (onImageBlock w i base eo st b).
Proof.
  destruct st as [images k]; unfold onImageBlock.
  apply calls_try_catch; [| intros _; apply calls_none].
  apply calls_bind; [apply calls_none | intros px].
  apply calls_bind; [rewrite encode_lift; apply calls_none | intros data].
  apply calls_bind; [| intros info; apply calls_none].
  destruct (eo_returnBase64 eo); [apply calls_none |].
  cbv zeta; apply calls_write_block.
Qed.

Lemma calls_extractEmbeddedImages (page : Page) (i : nat) (base : jsstring)
    (eo : EmbedOptions) :
  calls (extractEmbeddedImages w page i base eo).
Proof.
  unfold extractEmbeddedImages.
  apply calls_bind; [apply calls_none | intros stext].
  apply calls_bind.
  - apply calls_foldM; intros s b; apply calls_onImageBlock.
  - intros st; destruct (walkError stext); apply calls_none.
Qed.

Lemma calls_image_page (doc : Document) (dir : JsVal) (format : jsstring)
    (inline : bool) (scale : JsNumber) (base : jsstring)
    (images : list ImageInfo) (i : nat) :
  calls (image_page w doc dir format inline scale base images i).
Proof.
  unfold image_page.
  apply calls_bind.
  { rewrite doc_loadPage_eq; constructor; [apply P_load | constructor]. }
  intros page; apply calls_bind; [apply calls_none | intros px].
  apply calls_bind; [rewrite encode_lift; apply calls_none | intros data].
  apply calls_bind.
  { destruct inline; [apply calls_none |].
    cbv zeta; apply calls_write_block. }
  intros info; apply calls_try_catch; [| intros _; apply calls_none].
  apply calls_bind; [apply calls_extractEmbeddedImages |].
  intros es; apply calls_none.
Qed.

End Calls.

(** X21. In disk mode, once the file has been read and the document has
    opened, the recorded calls of [extractImages] -- those on the file
    system, [openDocument] and [loadPage] -- are the existence test, the
    read, the opening and one [mkdirSync], and after it only [loadPage]
    and [writeFileSync] calls: the directory is created before any page is
    loaded or file written, and no later call creates a directory, reads a
    file, tests a path or opens a document.  When [mkdirSync] fails, no
    recorded call follows it.  The calls on a loaded page and its pixmaps
    ([toPixmap], the encoders, [toStructuredText], [walk],
    [image.toPixmap]) are not recorded in a trace, and the statement does
    not speak of them. *)
Theorem output_directory_is_created_once_and_first
    (w : World) (p : jsstring) (o : Options) (buf : bytes) (doc : Document)
    (d : jsstring) :
  readable w p buf ->
  openDocument w buf = Ok doc ->
  inline_mode o = false ->
  dir_of w p o = JString d ->
  exists t,
    trace_of (extractImages w p o)
    = [FsExists (path_resolve w p); FsRead (path_resolve w p);
       PdfOpen buf; FsMkdir d] ++ t
    /\ Forall (fun e => (exists i, e = PdfLoadPage i)
                        \/ (exists f data, e = FsWrite f data)) t
    /\ (mkdirSync w d <> None -> t = []).
Proof.
  unfold inline_mode, dir_of; intros [Hex Hrd] Hop Hin Hd.
  unfold extractImages; rewrite Hin, Hd.
  rewrite trace_bind, outcome_fs_existsSync, Hex; cbn [negb]; cbv zeta.
  rewrite trace_bind, outcome_fs_readFileSync, fs_readFileSync_eq, Hrd.
  rewrite trace_bind, outcome_mupdf_openDocument, mupdf_openDocument_eq, Hop.
  rewrite trace_bind, fs_mkdirSync_eq.
  destruct (mkdirSync w d) as [e |]; simpl.
  - exists []; split; [reflexivity | split; [constructor | reflexivity]].
  - eexists; split; [reflexivity |].
    split; [| intros H; contradiction H; reflexivity].
    apply calls_bind; [| intros images; constructor].
    apply calls_foldM; intros s i; apply calls_image_page.
    + intros f data; right; exists f, data; reflexivity.
    + intros j; left; exists j; reflexivity.
Qed.

Lemma output_directory_is_created_once_and_first_witness :
  exists t,
    trace_of (extractImages (Sample.world Sample.parsed_ok)
                Sample.report_pdf Cases.disk_png)
    = [FsExists Sample.report_pdf; FsRead Sample.report_pdf;
       PdfOpen Sample.pdf_bytes; FsMkdir (lit "/out")] ++ t
    /\ Forall (fun e => (exists i, e = PdfLoadPage i)
                        \/ (exists f data, e = FsWrite f data)) t
    /\ (mkdirSync (Sample.world Sample.parsed_ok) (lit "/out") <> None ->
        t = []).
Proof.
  apply (@output_directory_is_created_once_and_first
           (Sample.world Sample.parsed_ok) Sample.report_pdf Cases.disk_png
           Sample.pdf_bytes Sample.document (lit "/out")).
  - split; reflexivity.
  - reflexivity.
  - reflexivity.
  - reflexivity.
Defined.
